(** * rtctree: the manager and name-server nodes of the RTC tree

    A shallow embedding of [rtctree/nameserver.py] and [rtctree/manager.py].

    - Python strings are [string]s; the string methods the source calls
      ([str.find], [str.replace], [str.format]) are written out.
    - Python objects live in an object store: a node of the tree is an
      index into the store, so that two references to one node are the same
      index and a constructor call yields an index that was not in use.
    - A method is a function in a state-and-exception monad over the store:
      a raised exception keeps every store update made before it, as in
      Python.
    - A remote object handle ([self._obj]) is a record of the answers the
      remote side gives; an answer is a value or a raised fault.
    - The re-entrant mutex of a node ([with self._mutex]) has no effect on
      a single thread of control and is left out. *)

From Stdlib Require Import ZArith Lia DecimalString.
From stdpp Require Import base list strings.

Open Scope string_scope.
Open Scope list_scope.

(** ** Python string methods used by the source *)

Module PyStr.

(** [s.startswith(k)] *)
Fixpoint startswith (s k : string) {struct k} : bool :=
  match k, s with
  | EmptyString, _ => true
  | String a k', String b s' => if Ascii.eqb a b then startswith s' k' else false
  | String _ _, EmptyString => false
  end.

(** [s.find(k)]: the lowest index at which [k] occurs in [s], or [-1]. *)
Fixpoint find_from (i : nat) (s k : string) : Z :=
  if startswith s k then Z.of_nat i
  else match s with
       | EmptyString => (-1)%Z
       | String _ s' => find_from (S i) s' k
       end.

Definition find (s k : string) : Z := find_from 0 s k.

(** [s.replace(old, new)] for a non-empty [old]: every occurrence of
    [old], found left to right without overlap, is replaced. [skip]
    counts the characters of a matched occurrence still to be dropped. *)
Fixpoint replace_from (skip : nat) (s old new : string) : string :=
  match s with
  | EmptyString => EmptyString
  | String c s' =>
      match skip with
      | S n => replace_from n s' old new
      | O =>
          if startswith s old
          then new +:+ replace_from (String.length old - 1) s' old new
          else String c (replace_from 0 s' old new)
      end
  end.

(** For an empty [old] Python puts [new] before every character and at
    the end. *)
Fixpoint interleave (s new : string) : string :=
  match s with
  | EmptyString => new
  | String c s' => new +:+ String c (interleave s' new)
  end.

Definition replace (s old new : string) : string :=
  match old with
  | EmptyString => interleave s new
  | String _ _ => replace_from 0 s old new
  end.

(** [str(n)] for a non-negative integer, as [format] prints it *)
Definition str_of_nat (n : nat) : string := NilZero.string_of_uint (Nat.to_uint n).

End PyStr.

(** ** nameserver.py *)

Module NameServer.
Import PyStr.

(** The dictionary [protocols_m_str], in the order it is written. *)
Definition protocols_m_str : list (string * string) :=
  [ ("iiop:", "corbaloc:iiop:");
    ("ssliop:", "corbaloc:ssliop:");
    ("diop:", "corbaloc:diop:");
    ("shmiop:", "corbaloc:shmiop:");
    ("htiop:", "corbaloc:htiop:") ].

Definition protocols_v_str : list string :=
  [ "http://"; "https://"; "ws://"; "wss://" ].

(** The first loop of [_parse_address]: return at the first key found at
    index 0. *)
Fixpoint parse_m_str (items : list (string * string)) (address : string) : option string :=
  match items with
  | [] => None
  | (k, v) :: rest =>
      if (find address k =? 0)%Z
      then Some (replace address k v +:+ "/NameService")
      else parse_m_str rest address
  end.

(** The second loop. *)
Fixpoint parse_v_str (protocols : list string) (address : string) : option string :=
  match protocols with
  | [] => None
  | protocol :: rest =>
      if (find address protocol =? 0)%Z
      then Some (address +:+ "#NameService")
      else parse_v_str rest address
  end.

Definition _parse_address (address : string) : string :=
  match parse_m_str protocols_m_str address with
  | Some r => r
  | None =>
      match parse_v_str protocols_v_str address with
      | Some r => r
      | None => "corbaloc::" +:+ address +:+ "/NameService"
      end
  end.

End NameServer.

(** ** Python values shared by the node classes *)

(** A Python [dict] with string keys, in insertion order: assigning to a key
    that is present replaces its value in place, assigning to a new key
    appends it. *)
Module PyDict.
Section Dict.
Context {V : Type}.

Definition dict := list (string * V).

(** [d[k] = v] *)
Fixpoint dict_set (k : string) (v : V) (d : dict) : dict :=
  match d with
  | [] => [(k, v)]
  | (k', v') :: d' =>
      if String.eqb k' k then (k, v) :: d' else (k', v') :: dict_set k v d'
  end.

(** [d[k]] ([None] where Python raises [KeyError]) *)
Fixpoint dict_get (k : string) (d : dict) : option V :=
  match d with
  | [] => None
  | (k', v') :: d' => if String.eqb k' k then Some v' else dict_get k d'
  end.

(** [k in d] *)
Definition dict_mem (k : string) (d : dict) : bool :=
  match dict_get k d with Some _ => true | None => false end.

Definition dict_keys (d : dict) : list string := map fst d.
Definition dict_values (d : dict) : list V := map snd d.
End Dict.
Arguments dict V : clear implicits.

(** [not x] for a cache that holds [None], a list or a dictionary: true on
    [None] and on an empty container. *)
Definition py_not {A : Type} (x : option (list A)) : bool :=
  match x with
  | None | Some [] => true
  | Some (_ :: _) => false
  end.
End PyDict.
Export PyDict.

(** Return codes of the remote manager interface ([RTC.ReturnCode_t]). *)
Module RTC.
Inductive ReturnCode_t :=
| RTC_OK | RTC_ERROR | BAD_PARAMETER | UNSUPPORTED | OUT_OF_RESOURCES | PRECONDITION_NOT_MET.

(** [rc != RTC.RTC_OK] *)
Definition ne_RTC_OK (rc : ReturnCode_t) : bool :=
  match rc with RTC_OK => false | _ => true end.
End RTC.

(** CORBA system exceptions; [e.args[0]] is the minor code. *)
Module CORBA.
Inductive SystemException :=
| BAD_PARAM | BAD_OPERATION | TRANSIENT | UNKNOWN | COMM_FAILURE | OBJECT_NOT_EXIST.
End CORBA.

(** What a call can raise: a fault of the transport, one of the errors of
    [rtctree.exceptions] that [manager.py] raises, or a Python error. *)
Inductive exn :=
| CORBA_SystemException (kind : CORBA.SystemException) (minor : Z)
| FailedToAddMasterManagerError
| FailedToAddSlaveManagerError (master slave : string)
| FailedToRemoveMasterManagerError
| FailedToRemoveSlaveManagerError (master slave : string)
| FailedToSetConfigurationError (param value : string)
| NotImplementedError
| AttributeError.

Inductive result (A : Type) :=
| Ok (a : A)
| Raise (e : exn).
Arguments Ok {A} a.
Arguments Raise {A} e.

(** ** Remote object handles

    A handle is the record of the answers of the remote object at the time
    of the calls. The slave managers a manager lists are handles in turn, so
    a handle is a finite tree of answers. Object references passed as
    arguments are identified by a number. *)

Abbreviation objref := nat.

(** A CORBA name-value list with its values taken out of their [any]. *)
Definition NVList := list (string * string).

(** [RTC.ComponentProfile], the field the manager reads *)
Record ComponentProfile := { instance_name : string }.

(** [RTM.ManagerProfile] and [RTM.ModuleProfile] *)
Record Profile := { properties : NVList }.

(** A remote component, [RTC.RTObject] *)
Record RTObject := {
  rtobject_ref : objref;
  get_component_profile : result ComponentProfile }.

#[local] Unset Elimination Schemes.
(** A remote manager, [RTM.Manager]; the fields carry the names under which
    [manager.py] calls them ([add_save_manager] is the name that
    [_add_slave] calls). *)
Inductive RTMManager := mkRTMManager {
  manager_ref : objref;
  get_components : result (list RTObject);
  get_slave_managers : result (list RTMManager);
  get_profile : result Profile;
  get_configuration : result NVList;
  get_factory_profiles : result (list Profile);
  get_loadable_modules : result (list Profile);
  get_loaded_modules : result (list Profile);
  set_configuration : string -> string -> result RTC.ReturnCode_t;
  is_master : result bool;
  add_master_manager : objref -> result RTC.ReturnCode_t;
  add_save_manager : objref -> result RTC.ReturnCode_t;
  remove_master_manager : objref -> result RTC.ReturnCode_t;
  remove_slave_manager : objref -> result RTC.ReturnCode_t }.
#[local] Set Elimination Schemes.

(** ** The object store *)

Abbreviation loc := nat.

(** The attributes of the base class [TreeNode] that the manager uses. *)
Record TreeNode := mkTreeNode {
  _name : string;
  _parent : option loc;
  _children : dict loc }.

Record Manager := mkManager {
  manager_node : TreeNode;
  _obj : RTMManager;
  _components : option (list loc);
  _configuration : option (dict string);
  _profile : option (dict string);
  _factory_profiles : option (list (dict string));
  _loadable_modules : option (list (dict string));
  _loaded_modules : option (list (dict string));
  _masters : option (list loc);
  _slaves : option (list loc) }.

Record Component := mkComponent {
  component_node : TreeNode;
  component_obj : RTObject }.

(** The kinds of node: a manager, a component, or a directory (a name
    server is a directory). *)
Inductive Node :=
| NManager (m : Manager)
| NComponent (c : Component)
| NDirectory (d : TreeNode).

(** What the manager prints on [sys.stderr]: the message of a [BAD_PARAM]
    fault, and the warning that names the manager whose slave is a zombie. *)
Inductive Output :=
| BadParamMessage (e : exn)
| ZombieSlaveWarning (manager_name : string).

Record World := mkWorld {
  heap : list Node;
  stderr : list Output }.

(** ** The monad of methods *)

Definition M (A : Type) : Type := World -> result A * World.

Definition ret {A} (a : A) : M A := fun w => (Ok a, w).

Definition raise {A} (e : exn) : M A := fun w => (Raise e, w).

Definition bind {A B} (c : M A) (k : A -> M B) : M B :=
  fun w =>
    match c w with
    | (Ok a, w') => k a w'
    | (Raise e, w') => (Raise e, w')
    end.

Notation "'let*' x ':=' c1 'in' c2" := (bind c1 (fun x => c2))
  (at level 10, x name, c1 at level 100, c2 at level 200).
Notation "c1 ;; c2" := (bind c1 (fun _ => c2))
  (at level 100, c2 at level 200, right associativity).

(** A call on a remote handle: its answer, the store untouched. *)
Definition remote {A} (answer : result A) : M A := fun w => (answer, w).

(** [for x in l: body(x)] *)
Fixpoint for_each {A} (l : list A) (body : A -> M unit) : M unit :=
  match l with
  | [] => ret tt
  | x :: rest => body x ;; for_each rest body
  end.

(** A new object: the next free index of the store. *)
Definition alloc (n : Node) : M loc :=
  fun w => (Ok (length (heap w)), mkWorld (heap w ++ [n]) (stderr w)).

(** Reading through a reference; [AttributeError] stands for a use of an
    object as a manager that is none. *)
Definition get_node (l : loc) : M Node :=
  fun w =>
    match heap w !! l with
    | Some n => (Ok n, w)
    | None => (Raise AttributeError, w)
    end.

Definition put_node (l : loc) (n : Node) : M unit :=
  fun w => (Ok tt, mkWorld (<[l := n]> (heap w)) (stderr w)).

Definition get_manager (l : loc) : M Manager :=
  let* n := get_node l in
  match n with
  | NManager m => ret m
  | _ => raise AttributeError
  end.

Definition put_manager (l : loc) (m : Manager) : M unit := put_node l (NManager m).

(** [print(..., file=sys.stderr)] *)
Definition print_stderr (o : Output) : M unit :=
  fun w => (Ok tt, mkWorld (heap w) (stderr w ++ [o])).

(** ** node.py, utils.py and component.py: the parts the manager calls *)

(** Modelled from the spec: [utils.nvlist_to_dict] is not among the source
    files. The specification calls a configuration and a profile a
    "name→value mapping": the list is read in order into a dictionary. *)
Definition nvlist_to_dict (nvlist : NVList) : dict string :=
  fold_left (fun d item => dict_set (fst item) (snd item) d) nvlist [].

Definition node_base (n : Node) : TreeNode :=
  match n with
  | NManager m => manager_node m
  | NComponent c => component_node c
  | NDirectory d => d
  end.

Definition set_manager_node (t : TreeNode) (m : Manager) : Manager :=
  mkManager t (_obj m) (_components m) (_configuration m) (_profile m)
    (_factory_profiles m) (_loadable_modules m) (_loaded_modules m)
    (_masters m) (_slaves m).

Definition set_node_base (t : TreeNode) (n : Node) : Node :=
  match n with
  | NManager m => NManager (set_manager_node t m)
  | NComponent c => NComponent (mkComponent t (component_obj c))
  | NDirectory _ => NDirectory t
  end.

(** Modelled from the spec: the discriminators [is_manager] and
    [is_component] of [TreeNode] ("a closed tagged-variant set with a
    capability-set discriminator"); [Manager.is_manager] is in the source
    and is [True]. *)
Definition node_is_manager (n : Node) : bool :=
  match n with NManager _ => true | _ => false end.

Definition node_is_component (n : Node) : bool :=
  match n with NComponent _ => true | _ => false end.

Definition is_manager (l : loc) : M bool :=
  let* n := get_node l in ret (node_is_manager n).

(** Modelled from the spec: the property [TreeNode.name]. *)
Definition name (l : loc) : M string :=
  let* n := get_node l in ret (_name (node_base n)).

(** Modelled from the spec: the property [TreeNode.parent], "a weak/back
    reference"; reading it gives the reference or [None]. *)
Definition parent (l : loc) : M (option loc) :=
  let* n := get_node l in ret (_parent (node_base n)).

(** Modelled from the spec: assigning [TreeNode.parent] stores the new back
    reference ("update the local parent pointer"). What the assignment does
    to the child collections of the old and of the new parent is in
    [node.py] and is not modelled: the properties of [_set_parent] speak of
    the parent reference only. *)
Definition set_parent (l : loc) (new_parent : loc) : M unit :=
  let* n := get_node l in
  let t := node_base n in
  put_node l (set_node_base (mkTreeNode (_name t) (Some new_parent) (_children t)) n).

(** Modelled from the spec: the property [TreeNode.children], the "ordered
    collection of child nodes, keyed by name", as a list. *)
Definition children (l : loc) : M (list loc) :=
  let* n := get_node l in ret (dict_values (_children (node_base n))).

(** Modelled from the spec: [TreeNode._add_child] puts the child into the
    collection under the child's name. *)
Definition _add_child (l : loc) (new_child : loc) : M unit :=
  let* child_name := name new_child in
  let* n := get_node l in
  let t := node_base n in
  put_node l (set_node_base
    (mkTreeNode (_name t) (_parent t) (dict_set child_name new_child (_children t))) n).

(** [[c for c in cs if p(c)]] for a discriminator [p] *)
Definition select (p : Node -> bool) (cs : list loc) : M (list loc) :=
  fun w =>
    (Ok (List.filter (fun c => match heap w !! c with Some n => p n | None => false end) cs), w).

(** Modelled from the spec: the constructor of [Component] (component.py is
    not among the source files, and a component's internals are out of the
    specification's scope): a leaf with its name, parent and handle. *)
Definition Component__init__ (name : string) (parent : option loc) (obj : RTObject) : M loc :=
  alloc (NComponent (mkComponent (mkTreeNode name parent []) obj)).

(** ** manager.py *)

Section ManagerClass.

(** [omniORB.TRANSIENT_ConnectFailed], a minor code of [CORBA.TRANSIENT];
    its value is omniORB's. *)
Variable TRANSIENT_ConnectFailed : Z.

(** *** Cached views: assignments to one attribute *)

Definition with_components (v : option (list loc)) (m : Manager) : Manager :=
  mkManager (manager_node m) (_obj m) v (_configuration m) (_profile m)
    (_factory_profiles m) (_loadable_modules m) (_loaded_modules m)
    (_masters m) (_slaves m).

Definition with_configuration (v : option (dict string)) (m : Manager) : Manager :=
  mkManager (manager_node m) (_obj m) (_components m) v (_profile m)
    (_factory_profiles m) (_loadable_modules m) (_loaded_modules m)
    (_masters m) (_slaves m).

Definition with_profile (v : option (dict string)) (m : Manager) : Manager :=
  mkManager (manager_node m) (_obj m) (_components m) (_configuration m) v
    (_factory_profiles m) (_loadable_modules m) (_loaded_modules m)
    (_masters m) (_slaves m).

Definition with_factory_profiles (v : option (list (dict string))) (m : Manager) : Manager :=
  mkManager (manager_node m) (_obj m) (_components m) (_configuration m) (_profile m)
    v (_loadable_modules m) (_loaded_modules m) (_masters m) (_slaves m).

Definition with_loadable_modules (v : option (list (dict string))) (m : Manager) : Manager :=
  mkManager (manager_node m) (_obj m) (_components m) (_configuration m) (_profile m)
    (_factory_profiles m) v (_loaded_modules m) (_masters m) (_slaves m).

Definition with_loaded_modules (v : option (list (dict string))) (m : Manager) : Manager :=
  mkManager (manager_node m) (_obj m) (_components m) (_configuration m) (_profile m)
    (_factory_profiles m) (_loadable_modules m) v (_masters m) (_slaves m).

Definition with_slaves (v : option (list loc)) (m : Manager) : Manager :=
  mkManager (manager_node m) (_obj m) (_components m) (_configuration m) (_profile m)
    (_factory_profiles m) (_loadable_modules m) (_loaded_modules m) (_masters m) v.

(** [self.attr = v] *)
Definition assign (self : loc) (f : Manager -> Manager) : M unit :=
  let* m := get_manager self in put_manager self (f m).

(** [self.attr.append(x)] on a list attribute *)
Definition append {A} (x : A) (v : option (list A)) : option (list A) :=
  match v with
  | Some l => Some (l ++ [x])
  | None => None
  end.

(** *** Module and component management *)

(** The property [components]. *)
Definition components (self : loc) : M (list loc) :=
  let* m := get_manager self in
  (if py_not (_components m)
   then
     let* cs := children self in
     let* comps := select node_is_component cs in
     assign self (with_components (Some comps))
   else ret tt) ;;
  let* m := get_manager self in
  ret (default [] (_components m)).

(** The property [factory_profiles]. *)
Definition factory_profiles (self : loc) : M (list (dict string)) :=
  let* m := get_manager self in
  (if py_not (_factory_profiles m)
   then
     assign self (with_factory_profiles (Some [])) ;;
     let* fps := remote (get_factory_profiles (_obj m)) in
     for_each fps (fun fp =>
       assign self (fun m =>
         with_factory_profiles
           (append (nvlist_to_dict (properties fp)) (_factory_profiles m)) m))
   else ret tt) ;;
  let* m := get_manager self in
  ret (default [] (_factory_profiles m)).

(** *** Manager configuration *)

Definition set_config_parameter (self : loc) (param value : string) : M unit :=
  let* m := get_manager self in
  let* rc := remote (set_configuration (_obj m) param value) in
  if RTC.ne_RTC_OK rc
  then raise (FailedToSetConfigurationError param value)
  else
    (* Force a reparse of the configuration *)
    assign self (with_configuration None).

(** The property [configuration]. *)
Definition configuration (self : loc) : M (dict string) :=
  let* m := get_manager self in
  (if py_not (_configuration m)
   then
     let* nv := remote (get_configuration (_obj m)) in
     assign self (with_configuration (Some (nvlist_to_dict nv)))
   else ret tt) ;;
  let* m := get_manager self in
  ret (default [] (_configuration m)).

(** The property [profile]. *)
Definition profile (self : loc) : M (dict string) :=
  let* m := get_manager self in
  (if py_not (_profile m)
   then
     let* profile := remote (get_profile (_obj m)) in
     assign self (with_profile (Some (nvlist_to_dict (properties profile))))
   else ret tt) ;;
  let* m := get_manager self in
  ret (default [] (_profile m)).

(** *** Node functionality *)

(** The property [object]. *)
Definition object (self : loc) : M RTMManager :=
  let* m := get_manager self in ret (_obj m).

(** The property [loadable_modules]. *)
Definition loadable_modules (self : loc) : M (list (dict string)) :=
  let* m := get_manager self in
  (if py_not (_loadable_modules m)
   then
     assign self (with_loadable_modules (Some [])) ;;
     let* mps := remote (get_loadable_modules (_obj m)) in
     for_each mps (fun mp =>
       assign self (fun m =>
         with_loadable_modules
           (append (nvlist_to_dict (properties mp)) (_loadable_modules m)) m))
   else ret tt) ;;
  let* m := get_manager self in
  ret (default [] (_loadable_modules m)).

(** The property [loaded_modules]. *)
Definition loaded_modules (self : loc) : M (list (dict string)) :=
  let* m := get_manager self in
  (if py_not (_loaded_modules m)
   then
     assign self (with_loaded_modules (Some [])) ;;
     let* mps := remote (get_loaded_modules (_obj m)) in
     for_each mps (fun mp =>
       assign self (fun m =>
         with_loaded_modules
           (append (nvlist_to_dict (properties mp)) (_loaded_modules m)) m))
   else ret tt) ;;
  let* m := get_manager self in
  ret (default [] (_loaded_modules m)).

(** The property [masters]. *)
Definition masters (self : loc) : M (list loc) :=
  let* m := get_manager self in
  (if py_not (_masters m)
   then raise NotImplementedError
   else ret tt) ;;
  let* m := get_manager self in
  ret (default [] (_masters m)).

(** The property [slaves]. *)
Definition slaves (self : loc) : M (list loc) :=
  let* m := get_manager self in
  (if py_not (_slaves m)
   then
     let* cs := children self in
     let* mgrs := select node_is_manager cs in
     assign self (with_slaves (Some mgrs))
   else ret tt) ;;
  let* m := get_manager self in
  ret (default [] (_slaves m)).

(** *** Internal functions *)

Definition _add_master (self : loc) (new_master : loc) : M unit :=
  let* m := get_manager self in
  let* master_obj := object new_master in
  let* rc := remote (add_master_manager (_obj m) (manager_ref master_obj)) in
  if RTC.ne_RTC_OK rc
  then raise FailedToAddMasterManagerError
  else ret tt.

Definition _add_slave (self : loc) (new_slave : loc) : M unit :=
  let* m := get_manager self in
  let* slave_obj := object new_slave in
  let* rc := remote (add_save_manager (_obj m) (manager_ref slave_obj)) in
  if RTC.ne_RTC_OK rc
  then
    let* self_name := name self in
    let* slave_name := name new_slave in
    raise (FailedToAddSlaveManagerError self_name slave_name)
  else ret tt.

Definition _remove_master (self : loc) (master : loc) : M unit :=
  let* m := get_manager self in
  let* master_obj := object master in
  let* rc := remote (remove_master_manager (_obj m) (manager_ref master_obj)) in
  if RTC.ne_RTC_OK rc
  then raise FailedToRemoveMasterManagerError
  else ret tt.

Definition _remove_slave (self : loc) (slave : loc) : M unit :=
  let* m := get_manager self in
  let* slave_obj := object slave in
  let* rc := remote (remove_slave_manager (_obj m) (manager_ref slave_obj)) in
  if RTC.ne_RTC_OK rc
  then
    let* self_name := name self in
    let* slave_name := name slave in
    raise (FailedToRemoveSlaveManagerError self_name slave_name)
  else ret tt.

Definition _set_parent (self : loc) (new_parent : loc) : M unit :=
  let* old_parent := parent self in
  match old_parent with
  | Some old_parent =>
      let* old_is_manager := is_manager old_parent in
      if old_is_manager
      then _remove_slave old_parent self ;; _remove_master self old_parent
      else ret tt
  | None => ret tt
  end ;;
  _add_master self new_parent ;;
  _add_slave new_parent self ;;
  set_parent self new_parent.

(** *** Parsing the remote listings

    The methods below take the handle [self._obj] as the argument [obj]:
    the constructor stores it and it is never assigned again, and the
    descent into the slave managers is then a recursion on the handle. *)

(** The first statement of [_parse]: every cached view back to [None]. *)
Definition reset_views (m : Manager) : Manager :=
  mkManager (manager_node m) (_obj m) None None None None None None None None.

(** The loop of [_parse_component_children]. *)
Definition component_loop (self : loc) (comps : list RTObject) : M unit :=
  for_each comps (fun c =>
    (* Get the instance profile - this will be the node's name *)
    let* profile := remote (get_component_profile c) in
    let instance_name := instance_name profile in
    (* Create and store the new leaf node *)
    let* leaf := Component__init__ (instance_name +:+ ".rtc") (Some self) c in
    _add_child self leaf).

Definition _parse_component_children (obj : RTMManager) (self : loc) : M unit :=
  match get_components obj with
  | Raise (CORBA_SystemException CORBA.BAD_PARAM minor) =>
      print_stderr (BadParamMessage (CORBA_SystemException CORBA.BAD_PARAM minor))
  | Raise e => raise e
  | Ok comps => component_loop self comps
  end.

Section Slaves.

(** The constructor call [Manager(name, self, m)]. *)
Variable Manager_new : string -> option loc -> RTMManager -> M loc.

(** The loop of [_parse_manager_children], with its counter [index]. *)
Fixpoint slave_loop (self : loc) (mgrs : list RTMManager) (index : nat) : M unit :=
  match mgrs with
  | [] => ret tt
  | m :: rest =>
      (* Add each slave manager as a child node. *)
      match get_profile m with
      | Raise (CORBA_SystemException CORBA.TRANSIENT minor) =>
          if (minor =? TRANSIENT_ConnectFailed)%Z
          then
            let* self_name := name self in
            print_stderr (ZombieSlaveWarning self_name) ;;
            slave_loop self rest index
          else raise (CORBA_SystemException CORBA.TRANSIENT minor)
      | Raise e => raise e
      | Ok slave_profile =>
          let props := nvlist_to_dict (properties slave_profile) in
          let named :=
            match dict_get "name" props with
            | Some n => (n, index)
            | None => ("slave" +:+ PyStr.str_of_nat index, S index)
            end in
          let* leaf := Manager_new (fst named) (Some self) m in
          _add_child self leaf ;;
          slave_loop self rest (snd named)
      end
  end.

Definition parse_manager_children (obj : RTMManager) (self : loc) : M unit :=
  match get_slave_managers obj with
  | Raise (CORBA_SystemException CORBA.BAD_OPERATION _) =>
      (* This manager does not support slave managers; ignore *)
      ret tt
  | Raise e => raise e
  | Ok mgrs => slave_loop self mgrs 0
  end.

Definition parse_children (obj : RTMManager) (self : loc) : M unit :=
  _parse_component_children obj self ;;
  parse_manager_children obj self.

Definition parse (obj : RTMManager) (self : loc) : M unit :=
  (* Nearly everything is delay-parsed when it is first accessed. *)
  assign self reset_views ;;
  parse_children obj self.

End Slaves.

(** [Manager.__init__]: the constructor of the base class, the handle, and
    a first [_parse]. *)
Fixpoint Manager__init__ (obj : RTMManager) (name : string) (parent : option loc)
    {struct obj} : M loc :=
  let* self := alloc (NManager
      (mkManager (mkTreeNode name parent []) obj None None None None None None None None)) in
  parse (fun name parent m => Manager__init__ m name parent) obj self ;;
  ret self.

Definition Manager_new (name : string) (parent : option loc) (m : RTMManager) : M loc :=
  Manager__init__ m name parent.

Definition _parse_manager_children : RTMManager -> loc -> M unit :=
  parse_manager_children Manager_new.

Definition _parse_children : RTMManager -> loc -> M unit :=
  parse_children Manager_new.

Definition _parse : RTMManager -> loc -> M unit :=
  parse Manager_new.

(** Modelled from the spec: [reparse] is not defined in [manager.py] and
    [node.py] is not among the source files. The specification gives its
    steps for a manager: clear the cached views, re-resolve the component
    listing and the slave-manager listing, and append a fresh node for
    every entry; these are the steps of [_parse] on the node's handle.
    [_parse] drops no child: that a reparse drops a child which is not
    listed again is not in these steps, and nodes other than managers have
    no [reparse] here. *)
Definition reparse (self : loc) : M unit :=
  let* obj := object self in
  _parse obj self.

End ManagerClass.

(** * The vocabulary of the properties *)

(** ** Dictionaries *)

Section DictUpdate.
Context {V : Type}.

(** A sequence of assignments [d[k] = v]. *)
Definition dict_update (kvs : list (string * V)) (d : dict V) : dict V :=
  fold_left (fun d kv => dict_set (fst kv) (snd kv) d) kvs d.

End DictUpdate.

Section DictMapping.
Context {V W : Type} (f : V -> W).

(** A dictionary with [f] applied to its values. *)
Definition dict_map (d : dict V) : dict W := map (fun kv => (fst kv, f (snd kv))) d.

End DictMapping.

(** ** Reparenting *)

(** The answers of the remote registration calls that [_set_parent] needs
    in a store: the two removals when the old parent is a manager, then
    the two additions. *)
Definition registration_answers (w : World) (self new_parent : loc)
    : list (result RTC.ReturnCode_t) :=
  match heap w !! self, heap w !! new_parent with
  | Some (NManager m), Some (NManager np) =>
      match _parent (manager_node m) with
      | Some old =>
          match heap w !! old with
          | Some (NManager om) =>
              [ remove_slave_manager (_obj om) (manager_ref (_obj m));
                remove_master_manager (_obj m) (manager_ref (_obj om)) ]
          | _ => []
          end
      | None => []
      end ++
      [ add_master_manager (_obj m) (manager_ref (_obj np));
        add_save_manager (_obj np) (manager_ref (_obj m)) ]
  | _, _ => []
  end.

(** A registration call succeeded: it returned, with [RTC_OK]. *)
Definition succeeded (a : result RTC.ReturnCode_t) : bool :=
  match a with
  | Ok RTC.RTC_OK => true
  | _ => false
  end.

(** The store after the assignment [self.parent = new_parent]. *)
Definition reparented (self new_parent : loc) (m : Manager) (w : World) : World :=
  mkWorld
    (<[self := NManager (set_manager_node
                 (mkTreeNode (_name (manager_node m)) (Some new_parent)
                    (_children (manager_node m))) m)]> (heap w))
    (stderr w).

(** ** What a parse does to the store *)

(** The kind of a node, as the discriminators [is_manager] and
    [is_component] tell it. *)
Inductive Kind := KManager | KComponent | KDirectory.

Definition node_kind (n : Node) : Kind :=
  match n with
  | NManager _ => KManager
  | NComponent _ => KComponent
  | NDirectory _ => KDirectory
  end.

(** A manager with another child collection. *)
Definition with_children (c : dict loc) (m : Manager) : Manager :=
  set_manager_node (mkTreeNode (_name (manager_node m)) (_parent (manager_node m)) c) m.

(** In the store [w'], the assignment [kv] to a child collection puts, under
    the name [fst nk], an object made at or after [base], of kind [snd nk],
    whose own name is that name. *)
Definition created (w' : World) (base : nat) (kv : string * loc) (nk : string * Kind) : Prop :=
  fst kv = fst nk /\ base <= snd kv /\
  exists n, heap w' !! snd kv = Some n /\ node_kind n = snd nk /\ _name (node_base n) = fst nk.

(** From [w] to [w'], the manager [self] was given the children [plan], in
    this order, each a new object; [self] changed in nothing else, and no
    other object that was in the store changed. *)
Definition adds (self : loc) (plan : list (string * Kind)) (w w' : World) : Prop :=
  length (heap w) <= length (heap w') /\
  (forall l, l < length (heap w) -> l <> self -> heap w' !! l = heap w !! l) /\
  exists m kvs,
    heap w !! self = Some (NManager m) /\
    heap w' !! self =
      Some (NManager (with_children (dict_update kvs (_children (manager_node m))) m)) /\
    Forall2 (created w' (length (heap w))) kvs plan.

(** The outcome of a constructor call as the handle fixes it: the new
    object is the next index of the store. *)
Definition at_next {A} (res : result A) (w : World) : result loc :=
  match res with
  | Ok _ => Ok (length (heap w))
  | Raise e => Raise e
  end.

(** The store after the first statement of [_parse]. *)
Definition after_reset (self : loc) (m : Manager) (w : World) : World :=
  mkWorld (<[self := NManager (reset_views m)]> (heap w)) (stderr w).

(** What a parsing method does on the manager [self] named [nm]: outcome,
    output and the children added are fixed by the handle and [nm]. *)
Definition parse_spec (c : loc -> M unit) (nm : string) : Prop :=
  exists plan res out, forall self w m r w',
    heap w !! self = Some (NManager m) ->
    _name (manager_node m) = nm ->
    c self w = (r, w') ->
    r = res /\ stderr w' = stderr w ++ out /\ adds self plan w w'.

Section ParseVocabulary.

Variable TRANSIENT_ConnectFailed : Z.

(** What the constructor of a manager node does: its outcome and its
    output are fixed by the handle and the name; it changes no object that
    was in the store; the new object is a manager with the given name,
    parent and handle. *)
Definition init_spec (obj : RTMManager) : Prop :=
  forall nm, exists (res : result unit) (out : list Output), forall par w r w',
    Manager_new TRANSIENT_ConnectFailed nm par obj w = (r, w') ->
    r = at_next res w
    /\ stderr w' = stderr w ++ out
    /\ length (heap w) < length (heap w')
    /\ (forall l, l < length (heap w) -> heap w' !! l = heap w !! l)
    /\ exists m', heap w' !! length (heap w) = Some (NManager m')
                  /\ _name (manager_node m') = nm
                  /\ _parent (manager_node m') = par
                  /\ _obj m' = obj.

(** [_parse] on a manager named [nm]: outcome and output are fixed, and
    after the cached views are cleared the children of the plan are added. *)
Definition parse_plan (obj : RTMManager) (nm : string)
    (plan : list (string * Kind)) (res : result unit) (out : list Output) : Prop :=
  forall self w m r w',
    heap w !! self = Some (NManager m) ->
    _name (manager_node m) = nm ->
    _parse TRANSIENT_ConnectFailed obj self w = (r, w') ->
    r = res /\ stderr w' = stderr w ++ out /\ adds self plan (after_reset self m w) w'.

End ParseVocabulary.

(** ** What a reader sees of a manager node *)

(** A view fetched from the remote manager: the answer converted, or the
    fault of the call. *)
Definition fetched {A B} (f : A -> B) (answer : result A) : result B :=
  match answer with
  | Ok a => Ok (f a)
  | Raise e => Raise e
  end.

(** The property dictionaries of a list of profiles. *)
Definition dicts_of (ps : list Profile) : list (dict string) :=
  map (fun p => nvlist_to_dict (properties p)) ps.

(** The children of a given kind, as [select] finds them in a store. *)
Definition children_where (p : Node -> bool) (w : World) (m : Manager) : list loc :=
  List.filter (fun c => match heap w !! c with Some n => p n | None => false end)
    (dict_values (_children (manager_node m))).

(** What a reader of the tree sees of a child: its kind and its name. *)
Definition info (n : Node) : Kind * string := (node_kind n, _name (node_base n)).

(** The child collection as a reader sees it: under each key, the kind and
    name of the child object. *)
Definition observe_children (w : World) (m : Manager) : dict (option (Kind * string)) :=
  dict_map (fun l => info <$> heap w !! l) (_children (manager_node m)).

(** The names of the nodes of a list. *)
Definition names_of (w : World) (ls : list loc) : list (option string) :=
  map (fun l => (fun n => _name (node_base n)) <$> heap w !! l) ls.

(** What the cached views of the node [self] hold for a reader: the
    outcome of reading each property, node lists by the names of the nodes. *)
Record Views := mkViews {
  seen_components : result (list (option string));
  seen_configuration : result (dict string);
  seen_profile : result (dict string);
  seen_factory_profiles : result (list (dict string));
  seen_loadable_modules : result (list (dict string));
  seen_loaded_modules : result (list (dict string));
  seen_masters : result (list (option string));
  seen_slaves : result (list (option string)) }.

Definition observe_views (self : loc) (w : World) : Views :=
  mkViews
    (fetched (names_of w) (fst (components self w)))
    (fst (configuration self w))
    (fst (profile self w))
    (fst (factory_profiles self w))
    (fst (loadable_modules self w))
    (fst (loaded_modules self w))
    (fetched (names_of w) (fst (masters self w)))
    (fetched (names_of w) (fst (slaves self w))).

(** The node lists of a kind are read off the observed children. *)
Definition seen_where (pk : Kind -> bool) (obs : dict (option (Kind * string)))
    : list (option string) :=
  map (fun o => snd <$> snd o)
    (List.filter (fun o => match snd o with Some (k, _) => pk k | None => false end) obs).

(** What a reader sees of the children of a plan. *)
Definition seen_plan (plan : list (string * Kind)) : dict (option (Kind * string)) :=
  map (fun nk => (fst nk, Some (snd nk, fst nk))) plan.

(** Every reference of the child collection denotes an object. *)
Definition children_allocated (w : World) (m : Manager) : Prop :=
  Forall (fun c => c < length (heap w)) (dict_values (_children (manager_node m))).

(** ** The slave-manager listing *)

(** An entry of the slave-manager listing whose profile is read and has
    no [name] key. *)
Definition unnamed (s : RTMManager) : bool :=
  match get_profile s with
  | Ok p => negb (dict_mem "name" (nvlist_to_dict (properties p)))
  | Raise _ => false
  end.

(** The number of such entries before position [i] of a listing. *)
Definition unnamed_before (i : nat) (mgrs : list RTMManager) : nat :=
  length (List.filter unnamed (take i mgrs)).

(** ** Examples *)

Module Examples.

(** The value omniORB gives [TRANSIENT_ConnectFailed]. *)
Definition connect_failed : Z := 0x41540002.

Definition accepts : objref -> result RTC.ReturnCode_t := fun _ => Ok RTC.RTC_OK.

Definition refuses : objref -> result RTC.ReturnCode_t := fun _ => Ok RTC.RTC_ERROR.

(** A remote manager that accepts every registration and every setting. *)
Definition remote_manager (ref : objref) (comps : result (list RTObject))
    (slave_managers : result (list RTMManager)) (manager_profile : result Profile)
    : RTMManager :=
  mkRTMManager ref comps slave_managers manager_profile
    (Ok [("manager.name", "manager")]) (Ok []) (Ok []) (Ok [])
    (fun _ _ => Ok RTC.RTC_OK) (Ok true) accepts accepts accepts accepts.

Definition remote_component (ref : objref) (instance : string) : RTObject :=
  {| rtobject_ref := ref; get_component_profile := Ok {| instance_name := instance |} |}.

Definition unnamed_slave (ref : objref) : RTMManager :=
  remote_manager ref (Ok []) (Ok []) (Ok {| properties := [("language", "Python")] |}).

Definition named_slave (ref : objref) (nm : string) : RTMManager :=
  remote_manager ref (Ok []) (Ok []) (Ok {| properties := [("name", nm)] |}).

(** A slave manager that refuses the connection. *)
Definition unreachable_slave (ref : objref) : RTMManager :=
  remote_manager ref (Ok []) (Ok [])
    (Raise (CORBA_SystemException CORBA.TRANSIENT connect_failed)).

(** A master manager with two components and four slave entries: one
    without a name, one named, one unreachable, one without a name. *)
Definition master_slaves : list RTMManager :=
  [ unnamed_slave 2; named_slave 3 "bob"; unreachable_slave 4; unnamed_slave 5 ].

Definition master_components : list RTObject :=
  [ remote_component 10 "C10"; remote_component 11 "C20" ].

Definition master : RTMManager :=
  remote_manager 1 (Ok master_components) (Ok master_slaves)
    (Ok {| properties := [("language", "Python")] |}).

(** A name server node alone, and the tree once the master is bound below
    it: the master is object 1. *)
Definition name_server_only : World :=
  mkWorld [NDirectory (mkTreeNode "localhost" None [])] [].

Definition tree : World :=
  Eval vm_compute in
  snd (Manager__init__ connect_failed master "manager.mgr" (Some 0) name_server_only).

Definition manager_at (w : World) (l : loc) : Manager :=
  match heap w !! l with
  | Some (NManager m) => m
  | _ => mkManager (mkTreeNode "" None []) master None None None None None None None None
  end.

(** A manager node without children or caches, on a given handle. *)
Definition bare_manager (nm : string) (par : option loc) (obj : RTMManager) : Node :=
  NManager (mkManager (mkTreeNode nm par []) obj None None None None None None None None).



(** A manager whose component listing fails with [BAD_PARAM], and one that
    has no slave-manager operation. *)
Definition master_bad_param : RTMManager :=
  remote_manager 1 (Raise (CORBA_SystemException CORBA.BAD_PARAM 0)) (Ok [])
    (Ok {| properties := [] |}).

Definition master_no_slaves : RTMManager :=
  remote_manager 1 (Ok []) (Raise (CORBA_SystemException CORBA.BAD_OPERATION 0))
    (Ok {| properties := [] |}).

(** A slave under an old master that refuses to let it go, and a new
    master. *)
Definition stubborn_master : RTMManager :=
  mkRTMManager 1 (Ok []) (Ok []) (Ok {| properties := [] |})
    (Ok []) (Ok []) (Ok []) (Ok [])
    (fun _ _ => Ok RTC.RTC_OK) (Ok true) accepts accepts accepts refuses.

Definition tree_of_stubborn : World :=
  mkWorld [ bare_manager "old.mgr" None stubborn_master;
            bare_manager "slave0" (Some 0) (unnamed_slave 2);
            bare_manager "new.mgr" None (named_slave 3 "new") ] [].

(** The name server and the master's node before its first parse. *)
Definition unparsed : World :=
  mkWorld [ NDirectory (mkTreeNode "localhost" None []);
            bare_manager "manager.mgr" (Some 0) master ] [].

Definition tree_bad_param : World :=
  mkWorld [bare_manager "manager.mgr" None master_bad_param] [].

Definition tree_no_slaves : World :=
  mkWorld [bare_manager "manager.mgr" None master_no_slaves] [].

(** The tree after one reparse of the master, and after a second. *)
Definition tree1 : World := Eval vm_compute in snd (reparse connect_failed 1 tree).

Definition tree2 : World := Eval vm_compute in snd (reparse connect_failed 1 tree1).

End Examples.

(** * More of manager.py and nameserver.py *)

(** ** Errors and outcomes

    What the methods below raise besides the errors above: more errors of
    [rtctree.exceptions]. *)
Inductive error :=
| Exn (e : exn)
| FailedToCreateComponentError (module_name : string)
| FailedToDeleteComponentError (instance_name : string)
| FailedToLoadModuleError (path : string) (reason : option string)
| FailedToUnloadModuleError (path : string)
| InvalidServiceError (address : string)
| FailedToNarrowRootNamingError (address : string).

Inductive outcome (A : Type) :=
| Done (a : A)
| Raised (e : error).
Arguments Done {A} a.
Arguments Raised {A} e.

(** The monad of the methods that raise these errors. *)
Definition M' (A : Type) : Type := World -> outcome A * World.

Definition ret' {A} (a : A) : M' A := fun w => (Done a, w).

Definition raise' {A} (e : error) : M' A := fun w => (Raised e, w).

Definition bind' {A B} (c : M' A) (k : A -> M' B) : M' B :=
  fun w =>
    match c w with
    | (Done a, w') => k a w'
    | (Raised e, w') => (Raised e, w')
    end.

(** A method of the first kind, called from one of the second. *)
Definition lift {A} (c : M A) : M' A :=
  fun w =>
    match c w with
    | (Ok a, w') => (Done a, w')
    | (Raise e, w') => (Raised (Exn e), w')
    end.

Notation "'let+' x ':=' c1 'in' c2" := (bind' c1 (fun x => c2))
  (at level 10, x name, c1 at level 100, c2 at level 200).

(** ** The remote manager's other operations *)

Module RTM.

(** The answers of a remote manager to the operations of [RTM.Manager] that
    the parsing does not call. [create_component] answers with the
    reference of the new component, or nil ([None]). *)
Record Operations := {
  create_component : string -> result (option objref);
  delete_component : string -> result RTC.ReturnCode_t;
  load_module : string -> string -> result RTC.ReturnCode_t;
  unload_module : string -> result RTC.ReturnCode_t;
  fork : result unit;
  shutdown : result unit;
  restart : result unit }.

End RTM.

Section ManagerOperations.

(** The operations that go with a handle. *)
Variable operations : RTMManager -> RTM.Operations.

(** [omniORB.UNKNOWN_UserException], a minor code of [CORBA.UNKNOWN]. *)
Variable UNKNOWN_UserException : Z.

(** In [create_component] and [delete_component] the listing that
    [_parse_component_children] reads from the handle is the one the remote
    manager gives after the call. *)
Definition create_component (self : loc) (module_name : string) : M' unit :=
  let+ m := lift (get_manager self) in
  let+ made := lift (remote (RTM.create_component (operations (_obj m)) module_name)) in
  match made with
  | None => raise' (FailedToCreateComponentError module_name)
  | Some _ =>
      (* The list of child components will have changed now, so it must be
         reparsed. *)
      lift (_parse_component_children (_obj m) self)
  end.

Definition delete_component (self : loc) (instance_name : string) : M' unit :=
  let+ m := lift (get_manager self) in
  let+ rc := lift (remote (RTM.delete_component (operations (_obj m)) instance_name)) in
  if RTC.ne_RTC_OK rc
  then raise' (FailedToDeleteComponentError instance_name)
  else
    (* The list of child components will have changed now, so it must be
       reparsed. *)
    lift (_parse_component_children (_obj m) self).

Definition load_module (self : loc) (path init_func : string) : M' unit :=
  let+ m := lift (get_manager self) in
  match RTM.load_module (operations (_obj m)) path init_func with
  | Raise (CORBA_SystemException CORBA.UNKNOWN minor) =>
      if (minor =? UNKNOWN_UserException)%Z
      then raise' (FailedToLoadModuleError path (Some "CORBA User Exception"))
      else raise' (Exn (CORBA_SystemException CORBA.UNKNOWN minor))
  | Raise e => raise' (Exn e)
  | Ok rc =>
      if RTC.ne_RTC_OK rc
      then raise' (FailedToLoadModuleError path None)
      else ret' tt
  end.

Definition unload_module (self : loc) (path : string) : M' unit :=
  let+ m := lift (get_manager self) in
  let+ rc := lift (remote (RTM.unload_module (operations (_obj m)) path)) in
  if RTC.ne_RTC_OK rc
  then raise' (FailedToUnloadModuleError path)
  else ret' tt.

Definition fork (self : loc) : M' unit :=
  let+ m := lift (get_manager self) in
  lift (remote (RTM.fork (operations (_obj m)))).

Definition shutdown (self : loc) : M' unit :=
  let+ m := lift (get_manager self) in
  lift (remote (RTM.shutdown (operations (_obj m)))).

Definition restart (self : loc) : M' unit :=
  let+ m := lift (get_manager self) in
  lift (remote (RTM.restart (operations (_obj m)))).

End ManagerOperations.

(** The property [is_master]: the remote manager is asked each time. *)
Definition Manager_is_master (self : loc) : M bool :=
  let* m := get_manager self in
  remote (is_master (_obj m)).

(** ** Connecting a name server *)

(** The object that [orb.string_to_object] resolves: [_narrow] to a naming
    context answers with the context, with nil, or with a fault. *)
Record NamingObject := {
  naming_ref : objref;
  _narrow : result (option objref) }.

(** What [orb.string_to_object] does with a locator: it resolves it, or
    raises [CORBA.ORB.InvalidName], or raises a fault. *)
Inductive Resolution :=
| Resolved (ns_obj : NamingObject)
| CORBA_ORB_InvalidName
| ORBFault (e : exn).

Record ORB := {
  string_to_object : string -> Resolution }.

(** The attributes of a [NameServer] that connecting reads and writes. *)
Record NameServerAttrs := mkNameServerAttrs {
  _address : option string;
  _orb : ORB;
  _full_address : option string;
  _ns_obj : option NamingObject }.

Section NameServerClass.

Variable TRANSIENT_ConnectFailed : Z.

(** [_connect_to_naming_service]: the outcome, and the attributes after. *)
Definition _connect_to_naming_service (self : NameServerAttrs) (address : string)
    : outcome objref * NameServerAttrs :=
  let full := NameServer._parse_address address in
  let self := mkNameServerAttrs (_address self) (_orb self) (Some full) (_ns_obj self) in
  match string_to_object (_orb self) full with
  | CORBA_ORB_InvalidName => (Raised (InvalidServiceError address), self)
  | ORBFault e => (Raised (Exn e), self)
  | Resolved ns_obj =>
      let self := mkNameServerAttrs (_address self) (_orb self) (_full_address self)
                    (Some ns_obj) in
      match _narrow ns_obj with
      | Raise (CORBA_SystemException CORBA.TRANSIENT minor) =>
          if (minor =? TRANSIENT_ConnectFailed)%Z
          then (Raised (InvalidServiceError address), self)
          else (Raised (Exn (CORBA_SystemException CORBA.TRANSIENT minor)), self)
      | Raise e => (Raised (Exn e), self)
      | Ok None => (Raised (FailedToNarrowRootNamingError address), self)
      | Ok (Some root_context) => (Done root_context, self)
      end
  end.

End NameServerClass.

(** ** More vocabulary *)

(** The store in which the manager node [self] is [m]. *)
Definition stored (self : loc) (m : Manager) (w : World) : World :=
  mkWorld (<[self := NManager m]> (heap w)) (stderr w).

(** The error each registration call of [_set_parent] raises when the
    remote manager answers with a code other than [RTC_OK], in the order
    of [registration_answers]. *)
Definition registration_errors (w : World) (self new_parent : loc) : list exn :=
  match heap w !! self, heap w !! new_parent with
  | Some (NManager m), Some (NManager np) =>
      match _parent (manager_node m) with
      | Some old =>
          match heap w !! old with
          | Some (NManager om) =>
              [ FailedToRemoveSlaveManagerError
                  (_name (manager_node om)) (_name (manager_node m));
                FailedToRemoveMasterManagerError ]
          | _ => []
          end
      | None => []
      end ++
      [ FailedToAddMasterManagerError;
        FailedToAddSlaveManagerError (_name (manager_node np)) (_name (manager_node m)) ]
  | _, _ => []
  end.

(** What a registration call that got the answer [a] raises, if anything. *)
Definition failure (a : result RTC.ReturnCode_t) (err : exn) : option exn :=
  match a with
  | Ok RTC.RTC_OK => None
  | Ok _ => Some err
  | Raise e => Some e
  end.

(** What the first call that fails raises. *)
Fixpoint first_failure (answers : list (result RTC.ReturnCode_t)) (errors : list exn)
    : option exn :=
  match answers, errors with
  | a :: answers', err :: errors' =>
      match failure a err with
      | Some e => Some e
      | None => first_failure answers' errors'
      end
  | _, _ => None
  end.

(** Every entry of a child collection denotes an object that has the key
    as its name and the owner of the collection as its parent. *)
Definition children_owned (w : World) : Prop :=
  forall p n k l,
    heap w !! p = Some n ->
    In (k, l) (_children (node_base n)) ->
    exists cn, heap w !! l = Some cn
               /\ _parent (node_base cn) = Some p
               /\ _name (node_base cn) = k.

(** The constructor of a manager node on the handle [obj] keeps the
    invariant. *)
Definition init_owned (TRANSIENT_ConnectFailed : Z) (obj : RTMManager) : Prop :=
  forall nm par w r w',
    children_owned w ->
    Manager_new TRANSIENT_ConnectFailed nm par obj w = (r, w') ->
    children_owned w'.

(** ** More examples *)

Module MoreExamples.
Import Examples.

(** A value for [omniORB.UNKNOWN_UserException]. *)
Definition unknown_user_exception : Z := 0x41540001.

(** A remote manager that does what it is asked, and one that does not. *)
Definition obliging : RTM.Operations :=
  {| RTM.create_component := fun _ => Ok (Some 20);
     RTM.delete_component := fun _ => Ok RTC.RTC_OK;
     RTM.load_module := fun _ _ => Ok RTC.RTC_OK;
     RTM.unload_module := fun _ => Ok RTC.RTC_OK;
     RTM.fork := Ok tt;
     RTM.shutdown := Ok tt;
     RTM.restart := Ok tt |}.

Definition unwilling : RTM.Operations :=
  {| RTM.create_component := fun _ => Ok None;
     RTM.delete_component := fun _ => Ok RTC.RTC_ERROR;
     RTM.load_module := fun _ _ =>
       Raise (CORBA_SystemException CORBA.UNKNOWN unknown_user_exception);
     RTM.unload_module := fun _ =>
       Raise (CORBA_SystemException CORBA.UNKNOWN unknown_user_exception);
     RTM.fork := Raise (CORBA_SystemException CORBA.COMM_FAILURE 0);
     RTM.shutdown := Raise (CORBA_SystemException CORBA.COMM_FAILURE 0);
     RTM.restart := Raise (CORBA_SystemException CORBA.COMM_FAILURE 0) |}.

(** The master's node with one component child, [C10.rtc], after its
    [components] and [loaded_modules] were read: the remote manager lists
    [C10] and [C20]. *)
Definition c10_node : Node :=
  NComponent (mkComponent (mkTreeNode "C10.rtc" (Some 1) []) (remote_component 10 "C10")).

Definition tree_read : World :=
  mkWorld
    [ NDirectory (mkTreeNode "localhost" None [("manager.mgr", 1)]);
      NManager (mkManager (mkTreeNode "manager.mgr" (Some 0) [("C10.rtc", 2)]) master
                  (Some [2]) (Some [("manager.name", "manager")]) None None None
                  (Some [[("file_path", "C10.so")]]) None None);
      c10_node ] [].

(** A manager that lists no component, with the child [C10.rtc] of before. *)
Definition emptied : RTMManager :=
  remote_manager 1 (Ok []) (Ok []) (Ok {| properties := [] |}).

Definition tree_emptied : World :=
  mkWorld
    [ NDirectory (mkTreeNode "localhost" None [("manager.mgr", 1)]);
      NManager (mkManager (mkTreeNode "manager.mgr" (Some 0) [("C10.rtc", 2)]) emptied
                  None None None None None None None None);
      c10_node ] [].

(** A manager whose factory profiles cannot be fetched, with two loadable
    modules and none loaded. *)
Definition off_line : RTMManager :=
  mkRTMManager 1 (Ok []) (Ok []) (Ok {| properties := [] |})
    (Ok []) (Raise (CORBA_SystemException CORBA.COMM_FAILURE 0))
    (Ok [ {| properties := [("file_path", "C10.so")] |};
          {| properties := [("file_path", "C20.so")] |} ])
    (Ok [])
    (fun _ _ => Ok RTC.RTC_OK) (Ok true) accepts accepts accepts accepts.

Definition tree_off_line : World :=
  mkWorld [bare_manager "manager.mgr" None off_line] [].

(** A manager that lists a component whose profile cannot be read between
    two that are in order. *)
Definition broken_component : RTObject :=
  {| rtobject_ref := 12;
     get_component_profile := Raise (CORBA_SystemException CORBA.BAD_PARAM 0) |}.

Definition master_broken : RTMManager :=
  remote_manager 1
    (Ok [remote_component 10 "C10"; broken_component; remote_component 11 "C20"])
    (Ok []) (Ok {| properties := [] |}).

Definition tree_broken : World :=
  mkWorld [bare_manager "manager.mgr" None master_broken] [].

(** A manager whose component listing is refused. *)
Definition master_down : RTMManager :=
  remote_manager 1 (Raise (CORBA_SystemException CORBA.TRANSIENT connect_failed)) (Ok [])
    (Ok {| properties := [] |}).

Definition tree_down : World :=
  mkWorld [bare_manager "manager.mgr" None master_down] [].

(** A slave manager that gives its profile and refuses its component
    listing, and a master that lists it behind a slave in order. *)
Definition half_dead : RTMManager :=
  remote_manager 3 (Raise (CORBA_SystemException CORBA.TRANSIENT connect_failed)) (Ok [])
    (Ok {| properties := [("name", "bob")] |}).

Definition master_of_half_dead : RTMManager :=
  remote_manager 1 (Ok []) (Ok [unnamed_slave 2; half_dead]) (Ok {| properties := [] |}).

Definition tree_of_half_dead : World :=
  mkWorld [bare_manager "manager.mgr" None master_of_half_dead] [].

(** A manager that rejects every setting, with its configuration cached. *)
Definition read_only : RTMManager :=
  mkRTMManager 1 (Ok []) (Ok []) (Ok {| properties := [] |})
    (Ok [("manager.name", "manager")]) (Ok []) (Ok []) (Ok [])
    (fun _ _ => Ok RTC.BAD_PARAMETER) (Ok true) accepts accepts accepts accepts.

Definition tree_read_only : World :=
  mkWorld
    [ NManager (mkManager (mkTreeNode "manager.mgr" None []) read_only
                  None (Some [("manager.name", "manager")]) None None None None None None) ]
    [].

(** The stores after [create_component] and after the parses of the
    examples. *)
Definition tree_created : World :=
  Eval vm_compute in snd (create_component (fun _ => obliging) 1 "C20" tree_read).

Definition tree_half_parsed : World :=
  Eval vm_compute in snd (_parse_component_children master_broken 0 tree_broken).

(** An ORB that resolves every locator to an object that narrows to the
    context 7, and one that knows no locator. *)
Definition orb_up : ORB :=
  {| string_to_object := fun _ => Resolved {| naming_ref := 6; _narrow := Ok (Some 7) |} |}.

Definition orb_down : ORB :=
  {| string_to_object := fun _ => CORBA_ORB_InvalidName |}.

End MoreExamples.

(** * Properties *)

(** ** Name-server addresses (C3) *)

Module NameServerFacts.
Import PyStr NameServer.

Lemma find_from_range i s k : (find_from i s k = -1 \/ Z.of_nat i <= find_from i s k)%Z.
Proof.
  revert i; induction s as [|c s IH]; intros i; cbn [find_from].
  - destruct (startswith "" k); lia.
  - destruct (startswith (String c s) k); [lia|].
    destruct (IH (S i)); lia.
Qed.

(** [address.find(k) == 0] is the test that the address starts with [k]. *)
Lemma find_zero s k : (find s k =? 0)%Z = startswith s k.
Proof.
  unfold find. destruct s as [|c s]; cbn [find_from].
  - destruct (startswith "" k); reflexivity.
  - destruct (startswith (String c s) k); [reflexivity|].
    destruct (find_from_range 1 s k) as [->| ]; [reflexivity|].
    apply Z.eqb_neq. lia.
Qed.

Lemma app_cons a k s : String a k +:+ s = String a (k +:+ s).
Proof. reflexivity. Qed.

Lemma startswith_app k s : startswith (k +:+ s) k = true.
Proof.
  induction k as [|a k IH]; [reflexivity|].
  rewrite app_cons. cbn [startswith]. by rewrite Ascii.eqb_refl.
Qed.

(** Where [old] does not occur, [replace] changes nothing. *)
Lemma replace_from_absent i t old new :
  find_from i t old = (-1)%Z -> replace_from 0 t old new = t.
Proof.
  revert i; induction t as [|c t IH]; intros i; cbn [find_from replace_from]; [done|].
  destruct (startswith (String c t) old); [lia|].
  intros H. by rewrite (IH _ H).
Qed.

Lemma replace_from_skip k t old new :
  replace_from (String.length k) (k +:+ t) old new = replace_from 0 t old new.
Proof.
  induction k as [|a k IH]; [reflexivity|].
  rewrite app_cons. cbn [String.length replace_from]. exact IH.
Qed.

(** A token at the front that occurs nowhere else: [replace] rewrites the
    front. *)
Lemma replace_prefix a k t new :
  find t (String a k) = (-1)%Z ->
  replace (String a k +:+ t) (String a k) new = new +:+ t.
Proof.
  intros Habsent. unfold replace. rewrite app_cons. cbn [replace_from].
  rewrite <- app_cons, startswith_app.
  replace (String.length (String a k) - 1) with (String.length k) by (cbn; lia).
  rewrite replace_from_skip.
  by rewrite (replace_from_absent 0 t _ _ Habsent).
Qed.

(** Settles the prefix tests on an address whose front is known. *)
Ltac settle_prefix_tests :=
  repeat match goal with
    | |- context [startswith ?s ?k] =>
        let b := eval cbv in (startswith s k) in
        lazymatch b with
        | true => change (startswith s k) with true
        | false => change (startswith s k) with false
        end
    end; cbv iota.

(** The first part of C3 where the code meets it: a protocol-prefixed
    address in which the protocol token occurs at the front only maps to the
    address after [corbaloc:], with [/NameService] appended. *)
Lemma parse_address_protocol k v t :
  In (k, v) protocols_m_str ->
  find t k = (-1)%Z ->
  v = "corbaloc:" +:+ k
  /\ _parse_address (k +:+ t) = "corbaloc:" +:+ k +:+ t +:+ "/NameService".
Proof.
  intros Hin Habsent.
  cbv [protocols_m_str In] in Hin.
  repeat destruct Hin as [[= <- <-]|Hin]; try done; (split; [reflexivity|]);
    cbv [_parse_address parse_m_str protocols_m_str];
    rewrite !find_zero; settle_prefix_tests;
    by rewrite (replace_prefix _ _ _ _ Habsent).
Qed.

(** The second part of C3: a web-scheme address gets [#NameService]. *)
Lemma parse_address_web protocol t :
  In protocol protocols_v_str ->
  _parse_address (protocol +:+ t) = protocol +:+ t +:+ "#NameService".
Proof.
  intros Hin. cbv [protocols_v_str In] in Hin.
  repeat destruct Hin as [<-|Hin]; try done;
    cbv [_parse_address parse_m_str parse_v_str protocols_m_str protocols_v_str];
    rewrite !find_zero; settle_prefix_tests; reflexivity.
Qed.

(** The third part of C3: any other address gets the bare form. *)
Lemma parse_address_other address :
  Forall (fun k => startswith address k = false)
    (map fst protocols_m_str ++ protocols_v_str) ->
  _parse_address address = "corbaloc::" +:+ address +:+ "/NameService".
Proof.
  intros Hall.
  cbv [_parse_address parse_m_str parse_v_str protocols_m_str protocols_v_str].
  rewrite !find_zero.
  cbv [protocols_m_str protocols_v_str map fst app] in Hall.
  repeat (inversion Hall as [|? ? Hk Hall']; subst; clear Hall; rename Hall' into Hall;
          rewrite Hk; clear Hk).
  reflexivity.
Qed.

(** The string methods on small inputs. *)
Example find_examples :
  find "abcabc" "ca" = 2%Z /\ find "abc" "x" = (-1)%Z /\ find "abc" "" = 0%Z
  /\ find "" "a" = (-1)%Z.
Proof. repeat split. Qed.

Example replace_examples :
  replace "aaa" "aa" "b" = "ba"
  /\ replace "abc" "" "-" = "-a-b-c-"
  /\ replace "a.b.c" "." "::" = "a::b::c"
  /\ replace "abc" "x" "y" = "abc".
Proof. repeat split. Qed.

Example str_of_nat_examples :
  str_of_nat 0 = "0" /\ str_of_nat 7 = "7" /\ str_of_nat 10 = "10" /\ str_of_nat 123 = "123".
Proof. repeat split. Qed.

(** The example addresses of the specification. *)
Example parse_address_iiop :
  _parse_address "iiop:localhost:2809" = "corbaloc:iiop:localhost:2809/NameService".
Proof. reflexivity. Qed.

Example parse_address_bare :
  _parse_address "myhost" = "corbaloc::myhost/NameService".
Proof. reflexivity. Qed.

Example parse_address_http :
  _parse_address "http://host/path" = "http://host/path#NameService".
Proof. reflexivity. Qed.

(** C3, at the address where it fails: the protocol token of a
    protocol-prefixed address is replaced wherever it occurs, not at the
    front only, so a host name that ends in the token is rewritten too. The
    claim asks for [corbaloc:iiop:myiiop:2809/NameService]. *)
Theorem parse_address_replaces_every_occurrence :
  _parse_address "iiop:myiiop:2809" = "corbaloc:iiop:mycorbaloc:iiop:2809/NameService"
  /\ _parse_address "iiop:myiiop:2809" <> "corbaloc:" +:+ "iiop:myiiop:2809" +:+ "/NameService".
Proof. split; [reflexivity | discriminate]. Qed.

End NameServerFacts.

(** ** Running the primitives *)

Section Run.

Lemma bind_run {A B} (c : M A) (k : A -> M B) w :
  bind c k w =
  match c w with
  | (Ok a, w') => k a w'
  | (Raise e, w') => (Raise e, w')
  end.
Proof. reflexivity. Qed.

Lemma bind_ok {A B} (c : M A) (k : A -> M B) w a w' :
  c w = (Ok a, w') -> bind c k w = k a w'.
Proof. intros H. by rewrite bind_run, H. Qed.

Lemma bind_raise {A B} (c : M A) (k : A -> M B) w e w' :
  c w = (Raise e, w') -> bind c k w = (Raise e, w').
Proof. intros H. by rewrite bind_run, H. Qed.

Lemma get_node_run l w n :
  heap w !! l = Some n -> get_node l w = (Ok n, w).
Proof. intros H. unfold get_node. by rewrite H. Qed.

Lemma get_manager_run l w m :
  heap w !! l = Some (NManager m) -> get_manager l w = (Ok m, w).
Proof.
  intros H. unfold get_manager.
  by rewrite (bind_ok _ _ _ _ _ (get_node_run _ _ _ H)).
Qed.

Lemma object_run l w m :
  heap w !! l = Some (NManager m) -> object l w = (Ok (_obj m), w).
Proof.
  intros H. unfold object.
  by rewrite (bind_ok _ _ _ _ _ (get_manager_run _ _ _ H)).
Qed.

Lemma name_run l w n :
  heap w !! l = Some n -> name l w = (Ok (_name (node_base n)), w).
Proof.
  intros H. unfold name.
  by rewrite (bind_ok _ _ _ _ _ (get_node_run _ _ _ H)).
Qed.

Lemma parent_run l w n :
  heap w !! l = Some n -> parent l w = (Ok (_parent (node_base n)), w).
Proof.
  intros H. unfold parent.
  by rewrite (bind_ok _ _ _ _ _ (get_node_run _ _ _ H)).
Qed.

Lemma is_manager_run l w n :
  heap w !! l = Some n -> is_manager l w = (Ok (node_is_manager n), w).
Proof.
  intros H. unfold is_manager.
  by rewrite (bind_ok _ _ _ _ _ (get_node_run _ _ _ H)).
Qed.

Lemma children_run l w n :
  heap w !! l = Some n ->
  children l w = (Ok (dict_values (_children (node_base n))), w).
Proof.
  intros H. unfold children.
  by rewrite (bind_ok _ _ _ _ _ (get_node_run _ _ _ H)).
Qed.

Lemma assign_run l f w m :
  heap w !! l = Some (NManager m) ->
  assign l f w = (Ok tt, mkWorld (<[l := NManager (f m)]> (heap w)) (stderr w)).
Proof.
  intros H. unfold assign.
  by rewrite (bind_ok _ _ _ _ _ (get_manager_run _ _ _ H)).
Qed.

Lemma set_parent_run l p w n :
  heap w !! l = Some n ->
  set_parent l p w =
  (Ok tt,
   mkWorld (<[l := set_node_base
                     (mkTreeNode (_name (node_base n)) (Some p) (_children (node_base n))) n]>
              (heap w))
           (stderr w)).
Proof.
  intros H. unfold set_parent.
  by rewrite (bind_ok _ _ _ _ _ (get_node_run _ _ _ H)).
Qed.

Lemma add_child_run l c w n cn :
  heap w !! l = Some n -> heap w !! c = Some cn ->
  _add_child l c w =
  (Ok tt,
   mkWorld (<[l := set_node_base
                     (mkTreeNode (_name (node_base n)) (_parent (node_base n))
                        (dict_set (_name (node_base cn)) c (_children (node_base n)))) n]>
              (heap w))
           (stderr w)).
Proof.
  intros H Hc. unfold _add_child.
  rewrite (bind_ok _ _ _ _ _ (name_run _ _ _ Hc)).
  by rewrite (bind_ok _ _ _ _ _ (get_node_run _ _ _ H)).
Qed.

Lemma lookup_insert_manager (h : list Node) l n m :
  h !! l = Some n -> <[l := NManager m]> h !! l = Some (NManager m).
Proof. intros H. apply list_lookup_insert_eq. by eapply lookup_lt_Some. Qed.

End Run.

(** ** set_config_parameter (C9) *)

Section Configuration.

(** C9. A successful [set_config_parameter] sets [_configuration] to
    [None] and changes nothing else: the node keeps its children, its
    handle and every other cached view, no other object of the store is
    touched and nothing is printed. The next read of [configuration]
    asks the remote manager again. *)
Theorem set_config_parameter_resets_only_configuration
    (self : loc) (param value : string) (w : World) (m : Manager) :
  heap w !! self = Some (NManager m) ->
  set_configuration (_obj m) param value = Ok RTC.RTC_OK ->
  exists m' w',
    set_config_parameter self param value w = (Ok tt, w')
    /\ heap w' = <[self := NManager m']> (heap w)
    /\ stderr w' = stderr w
    /\ _configuration m' = None
    /\ manager_node m' = manager_node m
    /\ _obj m' = _obj m
    /\ _components m' = _components m
    /\ _profile m' = _profile m
    /\ _factory_profiles m' = _factory_profiles m
    /\ _loadable_modules m' = _loadable_modules m
    /\ _loaded_modules m' = _loaded_modules m
    /\ _masters m' = _masters m
    /\ _slaves m' = _slaves m
    /\ fst (configuration self w') =
       match get_configuration (_obj m) with
       | Ok nv => Ok (nvlist_to_dict nv)
       | Raise e => Raise e
       end.
Proof.
  intros Hself Hrc.
  exists (with_configuration None m),
         (mkWorld (<[self := NManager (with_configuration None m)]> (heap w)) (stderr w)).
  assert (Hrun : set_config_parameter self param value w =
                 (Ok tt, mkWorld (<[self := NManager (with_configuration None m)]> (heap w))
                                 (stderr w))).
  { unfold set_config_parameter.
    rewrite (bind_ok _ _ _ _ _ (get_manager_run _ _ _ Hself)).
    unfold remote at 1. rewrite bind_run, Hrc. cbn [RTC.ne_RTC_OK].
    by apply assign_run. }
  repeat split; try done.
  set (w' := mkWorld _ _).
  assert (Hself' : heap w' !! self = Some (NManager (with_configuration None m))).
  { by eapply lookup_insert_manager. }
  unfold configuration.
  rewrite (bind_ok _ _ _ _ _ (get_manager_run _ _ _ Hself')).
  cbn [with_configuration _configuration py_not _obj].
  rewrite bind_run. rewrite bind_run. unfold remote at 1.
  destruct (get_configuration (_obj m)) as [nv|e]; [|done].
  rewrite (assign_run _ _ _ _ Hself').
  set (w'' := mkWorld _ _).
  assert (Hself'' : heap w'' !! self =
            Some (NManager (with_configuration (Some (nvlist_to_dict nv))
                              (with_configuration None m)))).
  { by eapply lookup_insert_manager. }
  by rewrite (bind_ok _ _ _ _ _ (get_manager_run _ _ _ Hself'')).
Qed.

(** A rejected [set_configuration] raises the error that carries the key
    and the value, and leaves the store as it was. *)
Lemma set_config_parameter_rejected
    (self : loc) (param value : string) (w : World) (m : Manager) rc :
  heap w !! self = Some (NManager m) ->
  set_configuration (_obj m) param value = Ok rc ->
  rc <> RTC.RTC_OK ->
  set_config_parameter self param value w =
  (Raise (FailedToSetConfigurationError param value), w).
Proof.
  intros Hself Hrc Hne. unfold set_config_parameter.
  rewrite (bind_ok _ _ _ _ _ (get_manager_run _ _ _ Hself)).
  unfold remote at 1. rewrite bind_run, Hrc.
  by destruct rc.
Qed.

End Configuration.

(** ** Reparenting a manager (C1) *)

Section Reparenting.

Lemma add_master_run self new_master w m np :
  heap w !! self = Some (NManager m) ->
  heap w !! new_master = Some (NManager np) ->
  if succeeded (add_master_manager (_obj m) (manager_ref (_obj np)))
  then _add_master self new_master w = (Ok tt, w)
  else exists e, _add_master self new_master w = (Raise e, w).
Proof.
  intros Hs Hn. unfold _add_master.
  rewrite (bind_ok _ _ _ _ _ (get_manager_run _ _ _ Hs)).
  rewrite (bind_ok _ _ _ _ _ (object_run _ _ _ Hn)).
  unfold remote. rewrite bind_run.
  destruct (add_master_manager _ _) as [[]|e]; cbn; eauto.
Qed.

Lemma remove_master_run self master w m np :
  heap w !! self = Some (NManager m) ->
  heap w !! master = Some (NManager np) ->
  if succeeded (remove_master_manager (_obj m) (manager_ref (_obj np)))
  then _remove_master self master w = (Ok tt, w)
  else exists e, _remove_master self master w = (Raise e, w).
Proof.
  intros Hs Hn. unfold _remove_master.
  rewrite (bind_ok _ _ _ _ _ (get_manager_run _ _ _ Hs)).
  rewrite (bind_ok _ _ _ _ _ (object_run _ _ _ Hn)).
  unfold remote. rewrite bind_run.
  destruct (remove_master_manager _ _) as [[]|e]; cbn; eauto.
Qed.

Lemma add_slave_run self new_slave w m sm :
  heap w !! self = Some (NManager m) ->
  heap w !! new_slave = Some (NManager sm) ->
  if succeeded (add_save_manager (_obj m) (manager_ref (_obj sm)))
  then _add_slave self new_slave w = (Ok tt, w)
  else exists e, _add_slave self new_slave w = (Raise e, w).
Proof.
  intros Hs Hn. unfold _add_slave.
  rewrite (bind_ok _ _ _ _ _ (get_manager_run _ _ _ Hs)).
  rewrite (bind_ok _ _ _ _ _ (object_run _ _ _ Hn)).
  unfold remote. rewrite bind_run.
  destruct (add_save_manager _ _) as [[]|e]; cbn; eauto;
    rewrite (bind_ok _ _ _ _ _ (name_run _ _ _ Hs));
    rewrite (bind_ok _ _ _ _ _ (name_run _ _ _ Hn)); eauto.
Qed.

Lemma remove_slave_run self slave w m sm :
  heap w !! self = Some (NManager m) ->
  heap w !! slave = Some (NManager sm) ->
  if succeeded (remove_slave_manager (_obj m) (manager_ref (_obj sm)))
  then _remove_slave self slave w = (Ok tt, w)
  else exists e, _remove_slave self slave w = (Raise e, w).
Proof.
  intros Hs Hn. unfold _remove_slave.
  rewrite (bind_ok _ _ _ _ _ (get_manager_run _ _ _ Hs)).
  rewrite (bind_ok _ _ _ _ _ (object_run _ _ _ Hn)).
  unfold remote. rewrite bind_run.
  destruct (remove_slave_manager _ _) as [[]|e]; cbn; eauto;
    rewrite (bind_ok _ _ _ _ _ (name_run _ _ _ Hs));
    rewrite (bind_ok _ _ _ _ _ (name_run _ _ _ Hn)); eauto.
Qed.

Lemma answers_all (l : list (result RTC.ReturnCode_t)) :
  Forall (fun a => a = Ok RTC.RTC_OK) l <-> forallb succeeded l = true.
Proof.
  rewrite forallb_forall, Forall_forall.
  split; intros H a Ha.
  - apply list_elem_of_In in Ha. by rewrite (H a Ha).
  - apply list_elem_of_In in Ha. specialize (H a Ha).
    by destruct a as [[]|].
Qed.

Lemma answers_some (l : list (result RTC.ReturnCode_t)) :
  Exists (fun a => a <> Ok RTC.RTC_OK) l -> forallb succeeded l = false.
Proof.
  intros H. destruct (forallb succeeded l) eqn:E; [|done].
  apply answers_all in E. apply Exists_exists in H as (a & Ha & Hne).
  rewrite Forall_forall in E. by specialize (E a Ha).
Qed.

Lemma set_parent_cases (self new_parent : loc) (w : World) (m np : Manager) :
  heap w !! self = Some (NManager m) ->
  heap w !! new_parent = Some (NManager np) ->
  (forall old, _parent (manager_node m) = Some old -> is_Some (heap w !! old)) ->
  if forallb succeeded (registration_answers w self new_parent)
  then _set_parent self new_parent w = (Ok tt, reparented self new_parent m w)
  else exists e, _set_parent self new_parent w = (Raise e, w).
Proof.
  intros Hs Hn Hold.
  unfold _set_parent, registration_answers. rewrite Hs, Hn.
  rewrite (bind_ok _ _ _ _ _ (parent_run _ _ _ Hs)). cbn [node_base].
  assert (Hadd :
    if forallb succeeded
         [add_master_manager (_obj m) (manager_ref (_obj np));
          add_save_manager (_obj np) (manager_ref (_obj m))]
    then (_add_master self new_parent;; _add_slave new_parent self;;
          set_parent self new_parent) w = (Ok tt, reparented self new_parent m w)
    else exists e, (_add_master self new_parent;; _add_slave new_parent self;;
          set_parent self new_parent) w = (Raise e, w)).
  { cbn [forallb].
    pose proof (add_master_run _ _ _ _ _ Hs Hn) as H1.
    pose proof (add_slave_run _ _ _ _ _ Hn Hs) as H2.
    destruct (succeeded (add_master_manager _ _)); cbn [andb].
    - rewrite (bind_ok _ _ _ _ _ H1).
      destruct (succeeded (add_save_manager _ _)); cbn [andb].
      + rewrite (bind_ok _ _ _ _ _ H2). by rewrite (set_parent_run _ _ _ _ Hs).
      + destruct H2 as [e H2]. exists e. by rewrite (bind_raise _ _ _ _ _ H2).
    - destruct H1 as [e H1]. exists e. by rewrite (bind_raise _ _ _ _ _ H1). }
  destruct (_parent (manager_node m)) as [old|] eqn:Hp.
  - destruct (Hold old eq_refl) as [on Hon]. rewrite Hon.
    rewrite (bind_run (let* old_is_manager := is_manager old in _)).
    rewrite (bind_ok _ _ _ _ _ (is_manager_run _ _ _ Hon)).
    destruct on as [om| |]; cbn [node_is_manager app]; [|exact Hadd..].
    pose proof (remove_slave_run _ _ _ _ _ Hon Hs) as H1.
    pose proof (remove_master_run _ _ _ _ _ Hs Hon) as H2.
    cbn [forallb].
    destruct (succeeded (remove_slave_manager _ _)); cbn [andb].
    + rewrite (bind_ok _ _ _ _ _ H1).
      destruct (succeeded (remove_master_manager _ _)); cbn [andb].
      * rewrite H2. exact Hadd.
      * destruct H2 as [e H2]. exists e. by rewrite H2.
    + destruct H1 as [e H1]. exists e. by rewrite (bind_raise _ _ _ _ _ H1).
  - rewrite bind_run. cbn [ret app]. exact Hadd.
Qed.

(** C1. Reparenting a manager is all or nothing. If one of the remote
    registration calls it needs fails (raises, or answers another code
    than [RTC_OK]), [_set_parent] raises an error and the store, with the
    node's parent reference in it, is as before. If they all succeed,
    [_set_parent] returns and the parent reference is the new parent. So
    the reference changes only when every registration has succeeded. *)
Theorem set_parent_all_or_nothing
    (self new_parent : loc) (w : World) (m np : Manager) :
  heap w !! self = Some (NManager m) ->
  heap w !! new_parent = Some (NManager np) ->
  (forall old, _parent (manager_node m) = Some old -> is_Some (heap w !! old)) ->
  (Exists (fun a => a <> Ok RTC.RTC_OK) (registration_answers w self new_parent) ->
     exists e, _set_parent self new_parent w = (Raise e, w)
               /\ parent self w = (Ok (_parent (manager_node m)), w))
  /\ (Forall (fun a => a = Ok RTC.RTC_OK) (registration_answers w self new_parent) ->
        exists w', _set_parent self new_parent w = (Ok tt, w')
                   /\ parent self w' = (Ok (Some new_parent), w'))
  /\ (forall w', _set_parent self new_parent w = (Ok tt, w') ->
        Forall (fun a => a = Ok RTC.RTC_OK) (registration_answers w self new_parent)).
Proof.
  intros Hs Hn Hold.
  pose proof (set_parent_cases _ _ _ _ _ Hs Hn Hold) as Hc.
  split; [|split].
  - intros Hex. rewrite (answers_some _ Hex) in Hc.
    destruct Hc as [e He]. exists e. split; [done|].
    apply (parent_run _ _ _ Hs).
  - intros Hall. apply answers_all in Hall. rewrite Hall in Hc.
    eexists. split; [exact Hc|].
    assert (H : heap (reparented self new_parent m w) !! self =
                Some (NManager (set_manager_node
                   (mkTreeNode (_name (manager_node m)) (Some new_parent)
                      (_children (manager_node m))) m))).
    { eapply list_lookup_insert_eq, lookup_lt_Some, Hs. }
    by rewrite (parent_run _ _ _ H).
  - intros w' Hrun. apply answers_all.
    destruct (forallb succeeded _); [done|].
    destruct Hc as [e He]. congruence.
Qed.

End Reparenting.

(** ** Dictionaries *)

Section DictFacts.
Context {V : Type}.
Implicit Types (d : dict V) (k : string) (v : V).

Lemma dict_update_app kvs1 kvs2 d :
  dict_update (kvs1 ++ kvs2) d = dict_update kvs2 (dict_update kvs1 d).
Proof. apply fold_left_app. Qed.

Lemma dict_mem_set k v d : dict_mem k (dict_set k v d) = true.
Proof.
  unfold dict_mem. induction d as [|[k' v'] d IH]; cbn.
  - by rewrite String.eqb_refl.
  - destruct (String.eqb k' k) eqn:E; cbn.
    + by rewrite String.eqb_refl.
    + by rewrite E.
Qed.

Lemma dict_mem_set_other k k' v d :
  dict_mem k d = true -> dict_mem k (dict_set k' v d) = true.
Proof.
  unfold dict_mem. induction d as [|[k0 v0] d IH]; cbn; [done|].
  destruct (String.eqb k0 k') eqn:E'; cbn.
  - apply String.eqb_eq in E' as ->.
    by destruct (String.eqb k' k).
  - destruct (String.eqb k0 k); [done|]. exact IH.
Qed.

(** Assigning to a key that is present keeps the keys in place. *)
Lemma dict_keys_set_present k v d :
  dict_mem k d = true -> dict_keys (dict_set k v d) = dict_keys d.
Proof.
  unfold dict_mem, dict_keys. induction d as [|[k' v'] d IH]; cbn; [done|].
  destruct (String.eqb k' k) eqn:E; cbn.
  - apply String.eqb_eq in E as ->. done.
  - intros H. by rewrite IH.
Qed.

(** Two assignments to one key: the second wins. *)
Lemma dict_set_set k v v' d : dict_set k v (dict_set k v' d) = dict_set k v d.
Proof.
  induction d as [|[k0 v0] d IH]; cbn.
  - by rewrite String.eqb_refl.
  - destruct (String.eqb k0 k) eqn:E; cbn.
    + by rewrite String.eqb_refl.
    + by rewrite E, IH.
Qed.

(** Assignments to different keys commute when the first key is present. *)
Lemma dict_set_comm k1 v1 k2 v2 d :
  k1 <> k2 -> dict_mem k1 d = true ->
  dict_set k1 v1 (dict_set k2 v2 d) = dict_set k2 v2 (dict_set k1 v1 d).
Proof.
  intros Hne. unfold dict_mem.
  induction d as [|[k0 v0] d IH]; cbn; [done|].
  destruct (String.eqb k0 k1) eqn:E1, (String.eqb k0 k2) eqn:E2; cbn;
    rewrite ?E1, ?E2; cbn; try done.
  - apply String.eqb_eq in E1, E2. congruence.
  - intros _. apply String.eqb_neq in Hne. by rewrite Hne.
  - intros _. assert (String.eqb k2 k1 = false) as ->; [|done].
    apply String.eqb_neq. congruence.
  - intros H. by rewrite IH.
Qed.

Lemma dict_mem_update k kvs d :
  dict_mem k d = true -> dict_mem k (dict_update kvs d) = true.
Proof.
  revert d; induction kvs as [|[k' v'] kvs IH]; intros d H; cbn; [done|].
  apply IH. by apply dict_mem_set_other.
Qed.

Lemma dict_mem_update_keys kvs d :
  Forall (fun kv => dict_mem (fst kv) (dict_update kvs d) = true) kvs.
Proof.
  revert d; induction kvs as [|[k v] kvs IH]; intros d; constructor; cbn.
  - apply dict_mem_update, dict_mem_set.
  - apply IH.
Qed.

(** On a dictionary that has every key of [kvs], an assignment can be
    moved behind the assignments [kvs]. *)
Lemma dict_update_absorb k v kvs d :
  Forall (fun kv => dict_mem (fst kv) d = true) kvs ->
  dict_set k v (dict_update kvs (dict_set k v d)) = dict_set k v (dict_update kvs d).
Proof.
  revert d; induction kvs as [|[k1 v1] kvs IH]; intros d Hall; cbn.
  - apply dict_set_set.
  - inversion Hall as [|? ? H1 Hrest]; subst; cbn in H1.
    assert (Hrest' : Forall (fun kv => dict_mem (fst kv) (dict_set k1 v1 d) = true) kvs).
    { eapply Forall_impl; [exact Hrest|]. intros kv H. by apply dict_mem_set_other. }
    destruct (String.eqb k1 k) eqn:E.
    + apply String.eqb_eq in E as ->. by rewrite dict_set_set.
    + apply String.eqb_neq in E.
      rewrite (dict_set_comm k1 v1 k v d E H1).
      by apply IH.
Qed.

(** Repeating a sequence of assignments changes nothing. *)
Lemma dict_update_idempotent kvs d :
  dict_update kvs (dict_update kvs d) = dict_update kvs d.
Proof.
  revert d; induction kvs as [|[k v] kvs IH] using rev_ind; intros d; [done|].
  rewrite !dict_update_app. cbn.
  rewrite dict_update_absorb.
  - by rewrite IH.
  - apply dict_mem_update_keys.
Qed.

Lemma dict_values_set k v d x :
  In x (dict_values (dict_set k v d)) -> x = v \/ In x (dict_values d).
Proof.
  unfold dict_values. induction d as [|[k0 v0] d IH]; cbn.
  - intros [<-|[]]. by left.
  - destruct (String.eqb k0 k); cbn; intros [<-|H]; auto.
    destruct (IH H); auto.
Qed.

Lemma dict_values_update kvs d x :
  In x (dict_values (dict_update kvs d)) ->
  In x (map snd kvs) \/ In x (dict_values d).
Proof.
  revert d; induction kvs as [|[k v] kvs IH]; intros d; cbn; [auto|].
  intros H. destruct (IH _ H) as [H'|H']; [auto|].
  apply dict_values_set in H' as [->|H']; auto.
Qed.

End DictFacts.

Section DictMap.
Context {V W : Type} (f : V -> W).

Lemma dict_map_set k v d : dict_map f (dict_set k v d) = dict_set k (f v) (dict_map f d).
Proof.
  unfold dict_map. induction d as [|[k0 v0] d IH]; cbn; [done|].
  destruct (String.eqb k0 k); cbn; [done|]. by rewrite IH.
Qed.

Lemma dict_map_update kvs d :
  dict_map f (dict_update kvs d) = dict_update (dict_map f kvs) (dict_map f d).
Proof.
  revert d; induction kvs as [|[k v] kvs IH]; intros d; [done|].
  change (dict_map f (dict_update kvs (dict_set k v d)) =
          dict_update (dict_map f kvs) (dict_set k (f v) (dict_map f d))).
  by rewrite IH, dict_map_set.
Qed.

Lemma dict_keys_map d : dict_keys (dict_map f d) = dict_keys d.
Proof. unfold dict_keys, dict_map. rewrite map_map. by apply map_ext. Qed.

End DictMap.

(** ** What a parse does to the store *)

Section Store.

Lemma with_children_id m : with_children (_children (manager_node m)) m = m.
Proof. by destruct m as [[]]. Qed.

Lemma with_children_twice c c' m : with_children c (with_children c' m) = with_children c m.
Proof. reflexivity. Qed.

Lemma adds_nothing self w w' m :
  heap w !! self = Some (NManager m) ->
  length (heap w) <= length (heap w') ->
  (forall l, l < length (heap w) -> heap w' !! l = heap w !! l) ->
  adds self [] w w'.
Proof.
  intros Hs Hlen Hframe. split; [done|]. split; [auto|].
  exists m, []. split; [done|]. split; [|constructor].
  cbn. rewrite with_children_id, Hframe; [done|]. by eapply lookup_lt_Some.
Qed.

Lemma adds_refl self w m : heap w !! self = Some (NManager m) -> adds self [] w w.
Proof. intros Hs. by eapply adds_nothing. Qed.

Lemma adds_trans self plan1 plan2 w w1 w2 :
  adds self plan1 w w1 -> adds self plan2 w1 w2 -> adds self (plan1 ++ plan2) w w2.
Proof.
  intros (Hlen1 & Hfr1 & m & kvs1 & Hs & Hs1 & Hc1) (Hlen2 & Hfr2 & m1 & kvs2 & Hs1' & Hs2 & Hc2).
  assert (Hself : self < length (heap w)) by by eapply lookup_lt_Some.
  split; [lia|]. split.
  { intros l Hl Hne. rewrite Hfr2, Hfr1; [done..|lia|done]. }
  exists m, (kvs1 ++ kvs2). split; [done|]. split.
  - rewrite Hs1 in Hs1'. injection Hs1' as <-.
    rewrite Hs2. by rewrite dict_update_app.
  - apply Forall2_app.
    + eapply Forall2_impl; [exact Hc1|].
      intros kv nk (Hk & Hbase & n & Hn & Hkind & Hname).
      split; [done|]. split; [done|]. exists n. split; [|done].
      rewrite Hfr2; [done| |lia]. by eapply lookup_lt_Some.
    + eapply Forall2_impl; [exact Hc2|].
      intros kv nk (Hk & Hbase & Hn). split; [done|]. split; [lia|done].
Qed.

(** A new child object [c], put under its name into [self]. *)
Lemma adds_child self w w1 m c cn :
  heap w !! self = Some (NManager m) ->
  length (heap w) <= c ->
  (forall l, l < length (heap w) -> heap w1 !! l = heap w !! l) ->
  heap w1 !! c = Some cn ->
  exists w2,
    _add_child self c w1 = (Ok tt, w2) /\
    stderr w2 = stderr w1 /\
    adds self [(_name (node_base cn), node_kind cn)] w w2.
Proof.
  intros Hs Hc Hframe Hcn.
  assert (Hself : self < length (heap w)) by by eapply lookup_lt_Some.
  assert (Hs1 : heap w1 !! self = Some (NManager m)) by by rewrite Hframe.
  eexists. split; [by apply (add_child_run _ _ _ _ _ Hs1 Hcn)|].
  split; [done|]. unfold adds. cbn [heap].
  assert (Hlen : length (heap w) <= length (heap w1)).
  { apply lookup_lt_Some in Hcn. lia. }
  split; [by rewrite length_insert|]. split.
  { intros l Hl Hne. rewrite list_lookup_insert_ne; auto. }
  exists m, [(_name (node_base cn), c)]. split; [done|]. split.
  - rewrite list_lookup_insert_eq; [done|]. by eapply lookup_lt_Some.
  - constructor; [|constructor]. split; [done|]. split; [done|].
    exists cn. cbn. rewrite list_lookup_insert_ne; [done|lia].
Qed.

Lemma alloc_run n w :
  alloc n w = (Ok (length (heap w)), mkWorld (heap w ++ [n]) (stderr w)).
Proof. reflexivity. Qed.

Lemma lookup_alloc_old (h : list Node) n l : l < length h -> (h ++ [n]) !! l = h !! l.
Proof. intros H. by apply lookup_app_l. Qed.

Lemma lookup_alloc_new (h : list Node) n : (h ++ [n]) !! length h = Some n.
Proof. by rewrite lookup_app_r, Nat.sub_diag. Qed.

End Store.

(** ** The component listing *)

Section ComponentChildren.

Lemma adds_manager self plan w w' m :
  adds self plan w w' ->
  heap w !! self = Some (NManager m) ->
  exists c, heap w' !! self = Some (NManager (with_children c m)).
Proof.
  intros (_ & _ & m0 & kvs & Hs & Hs' & _) Hm.
  rewrite Hs in Hm. injection Hm as ->. eauto.
Qed.

Lemma component_loop_cons self c rest :
  component_loop self (c :: rest) =
  ((let* profile := remote (get_component_profile c) in
    let* leaf := Component__init__ (instance_name profile +:+ ".rtc") (Some self) c in
    _add_child self leaf) ;;
   component_loop self rest).
Proof. reflexivity. Qed.

(** One pass of the loop over a component whose profile is read. *)
Lemma component_step self c p w m :
  heap w !! self = Some (NManager m) ->
  get_component_profile c = Ok p ->
  exists w2,
    (let* profile := remote (get_component_profile c) in
     let* leaf := Component__init__ (instance_name profile +:+ ".rtc") (Some self) c in
     _add_child self leaf) w = (Ok tt, w2)
    /\ stderr w2 = stderr w
    /\ adds self [(instance_name p +:+ ".rtc", KComponent)] w w2
    /\ heap w2 !! length (heap w) =
       Some (NComponent (mkComponent
               (mkTreeNode (instance_name p +:+ ".rtc") (Some self) []) c)).
Proof.
  intros Hs Hp.
  set (cn := NComponent (mkComponent
               (mkTreeNode (instance_name p +:+ ".rtc") (Some self) []) c)).
  set (w1 := mkWorld (heap w ++ [cn]) (stderr w)).
  assert (Hself : self < length (heap w)) by by eapply lookup_lt_Some.
  destruct (adds_child self w w1 m (length (heap w)) cn) as (w2 & Hrun & Herr & Hadds);
    [done|done| |apply lookup_alloc_new|].
  { intros l Hl. by apply lookup_alloc_old. }
  exists w2. split; [|split; [done|split; [done|]]].
  - unfold remote at 1. rewrite bind_run, Hp.
    unfold Component__init__. rewrite bind_run, alloc_run. exact Hrun.
  - assert (Hcn : heap w1 !! length (heap w) = Some cn) by apply lookup_alloc_new.
    assert (Hs1 : heap w1 !! self = Some (NManager m)).
    { cbn. by rewrite lookup_alloc_old. }
    rewrite (add_child_run _ _ _ _ _ Hs1 Hcn) in Hrun.
    injection Hrun as <-. cbn [heap].
    rewrite list_lookup_insert_ne; [done|lia].
Qed.

(** The loop over the listing: its outcome and the children it adds are
    fixed by the listing. *)
Lemma component_loop_spec (comps : list RTObject) :
  exists plan res, forall self w m r w',
    heap w !! self = Some (NManager m) ->
    component_loop self comps w = (r, w') ->
    r = res /\ stderr w' = stderr w /\ adds self plan w w'.
Proof.
  induction comps as [|c rest (plan & res & IH)].
  - exists [], (Ok tt). intros self w m r w' Hs Hrun.
    injection Hrun as <- <-. eauto using adds_refl.
  - destruct (get_component_profile c) as [p|e] eqn:Hp.
    + exists ((instance_name p +:+ ".rtc", KComponent) :: plan), res.
      intros self w m r w' Hs Hrun.
      destruct (component_step self c p w m Hs Hp) as (w2 & Hstep & Herr & Hadds & _).
      rewrite component_loop_cons, (bind_ok _ _ _ _ _ Hstep) in Hrun.
      destruct (adds_manager _ _ _ _ _ Hadds Hs) as [c2 Hs2].
      destruct (IH self w2 _ r w' Hs2 Hrun) as (-> & Herr' & Hadds').
      split; [done|]. split; [congruence|].
      by apply (adds_trans self [_] plan w w2 w').
    + exists [], (Raise e). intros self w m r w' Hs Hrun.
      rewrite component_loop_cons in Hrun.
      unfold remote in Hrun. rewrite !bind_run, Hp in Hrun.
      injection Hrun as <- <-. eauto using adds_refl.
Qed.

Lemma parse_component_children_spec (obj : RTMManager) :
  exists plan res out, forall self w m r w',
    heap w !! self = Some (NManager m) ->
    _parse_component_children obj self w = (r, w') ->
    r = res /\ stderr w' = stderr w ++ out /\ adds self plan w w'.
Proof.
  unfold _parse_component_children.
  destruct (get_components obj) as [comps|e].
  - destruct (component_loop_spec comps) as (plan & res & H).
    exists plan, res, []. intros self w m r w' Hs Hrun.
    destruct (H self w m r w' Hs Hrun) as (-> & -> & Hadds).
    by rewrite app_nil_r.
  - assert (Hraise : exists plan res out, forall self w m r w',
              heap w !! self = Some (NManager m) ->
              @raise unit e w = (r, w') ->
              r = res /\ stderr w' = stderr w ++ out /\ adds self plan w w').
    { exists [], (Raise e), []. intros self w m r w' Hs Hrun.
      injection Hrun as <- <-. rewrite app_nil_r. eauto using adds_refl. }
    destruct e as [[] minor| | | | | | |]; try exact Hraise.
    exists [], (Ok tt), [BadParamMessage (CORBA_SystemException CORBA.BAD_PARAM minor)].
    intros self w m r w' Hs Hrun. injection Hrun as <- <-.
    split; [done|]. split; [done|]. by eapply adds_nothing.
Qed.

End ComponentChildren.

(** ** The slave-manager listing and the whole parse *)

(** Induction on a handle, with the property at hand for the slave managers
    the handle lists. *)
Lemma RTMManager_nested_ind (P : RTMManager -> Prop) :
  (forall obj, (forall mgrs, get_slave_managers obj = Ok mgrs -> Forall P mgrs) -> P obj) ->
  forall obj, P obj.
Proof.
  intros H. fix IH 1. intros obj. apply H.
  destruct obj as [? ? slave_managers ? ? ? ? ? ? ? ? ? ? ?]. cbn.
  intros mgrs Heq. destruct slave_managers as [l|e]; [|discriminate].
  injection Heq as <-.
  induction l as [|m l IHl]; constructor; [apply IH | apply IHl].
Qed.

Section SlaveManagers.

Variable TRANSIENT_ConnectFailed : Z.

Lemma parse_spec_raise e nm : parse_spec (fun _ => raise e) nm.
Proof.
  exists [], (Raise e), []. intros self w m r w' Hs _ Hrun.
  injection Hrun as <- <-. rewrite app_nil_r. eauto using adds_refl.
Qed.

Lemma parse_spec_ret nm : parse_spec (fun _ => ret tt) nm.
Proof.
  exists [], (Ok tt), []. intros self w m r w' Hs _ Hrun.
  injection Hrun as <- <-. rewrite app_nil_r. eauto using adds_refl.
Qed.

Lemma adds_name self plan w w' m m' :
  adds self plan w w' ->
  heap w !! self = Some (NManager m) ->
  heap w' !! self = Some (NManager m') ->
  _name (manager_node m') = _name (manager_node m).
Proof.
  intros Hadds Hs Hs'. destruct (adds_manager _ _ _ _ _ Hadds Hs) as [c Hc].
  rewrite Hc in Hs'. by injection Hs' as <-.
Qed.

(** Sequencing two parsing steps. *)
Lemma parse_spec_seq (c1 c2 : loc -> M unit) nm :
  parse_spec c1 nm -> parse_spec c2 nm ->
  parse_spec (fun self => c1 self ;; c2 self) nm.
Proof.
  intros (plan1 & res1 & out1 & H1) (plan2 & res2 & out2 & H2).
  destruct res1 as [[]|e].
  - exists (plan1 ++ plan2), res2, (out1 ++ out2).
    intros self w m r w' Hs Hnm Hrun. rewrite bind_run in Hrun.
    destruct (c1 self w) as [r1 w1] eqn:Hrun1.
    destruct (H1 self w m r1 w1 Hs Hnm Hrun1) as (-> & Herr1 & Hadds1).
    destruct (adds_manager _ _ _ _ _ Hadds1 Hs) as [c Hs1].
    destruct (H2 self w1 _ r w' Hs1 Hnm Hrun) as (-> & Herr2 & Hadds2).
    split; [done|]. split; [by rewrite Herr2, Herr1, app_assoc|].
    by eapply adds_trans.
  - exists plan1, (Raise e), out1.
    intros self w m r w' Hs Hnm Hrun. rewrite bind_run in Hrun.
    destruct (c1 self w) as [r1 w1] eqn:Hrun1.
    destruct (H1 self w m r1 w1 Hs Hnm Hrun1) as (-> & Herr1 & Hadds1).
    by injection Hrun as <- <-.
Qed.

Lemma slave_loop_cons self m rest index :
  slave_loop TRANSIENT_ConnectFailed (Manager_new TRANSIENT_ConnectFailed) self (m :: rest) index =
  match get_profile m with
  | Raise (CORBA_SystemException CORBA.TRANSIENT minor) =>
      if (minor =? TRANSIENT_ConnectFailed)%Z
      then
        let* self_name := name self in
        print_stderr (ZombieSlaveWarning self_name) ;;
        slave_loop TRANSIENT_ConnectFailed (Manager_new TRANSIENT_ConnectFailed) self rest index
      else raise (CORBA_SystemException CORBA.TRANSIENT minor)
  | Raise e => raise e
  | Ok slave_profile =>
      let props := nvlist_to_dict (properties slave_profile) in
      let named :=
        match dict_get "name" props with
        | Some n => (n, index)
        | None => ("slave" +:+ PyStr.str_of_nat index, S index)
        end in
      let* leaf := Manager_new TRANSIENT_ConnectFailed (fst named) (Some self) m in
      _add_child self leaf ;;
      slave_loop TRANSIENT_ConnectFailed (Manager_new TRANSIENT_ConnectFailed) self rest (snd named)
  end.
Proof. reflexivity. Qed.

(** One pass of the loop over a slave manager that is constructed. *)
Lemma slave_step self m0 nm0 w m w1 :
  heap w !! self = Some (NManager m) ->
  init_spec TRANSIENT_ConnectFailed m0 ->
  Manager_new TRANSIENT_ConnectFailed nm0 (Some self) m0 w = (Ok (length (heap w)), w1) ->
  exists w2 m',
    _add_child self (length (heap w)) w1 = (Ok tt, w2)
    /\ stderr w2 = stderr w1
    /\ adds self [(nm0, KManager)] w w2
    /\ heap w2 !! length (heap w) = Some (NManager m')
    /\ _name (manager_node m') = nm0
    /\ _parent (manager_node m') = Some self
    /\ _obj m' = m0.
Proof.
  intros Hs Hinit Hrun.
  destruct (Hinit nm0) as (res & out & H).
  destruct (H _ _ _ _ Hrun) as (_ & _ & Hlen & Hframe & m' & Hm' & Hnm & Hpar & Hobj).
  destruct (adds_child self w w1 m (length (heap w)) (NManager m'))
    as (w2 & Hadd & Herr & Hadds); [done..|].
  exists w2, m'. cbn in Hadds. rewrite Hnm in Hadds.
  repeat (split; [done|]). split; [|done].
  assert (Hs1 : heap w1 !! self = Some (NManager m)).
  { rewrite Hframe; [done|]. by eapply lookup_lt_Some. }
  rewrite (add_child_run _ _ _ _ _ Hs1 Hm') in Hadd.
  injection Hadd as <-. cbn [heap].
  rewrite list_lookup_insert_ne; [done|].
  apply lookup_lt_Some in Hs. lia.
Qed.

Lemma slave_loop_spec (mgrs : list RTMManager) :
  Forall (init_spec TRANSIENT_ConnectFailed) mgrs ->
  forall nm index,
    parse_spec
      (fun self =>
         slave_loop TRANSIENT_ConnectFailed (Manager_new TRANSIENT_ConnectFailed) self mgrs index)
      nm.
Proof.
  induction 1 as [|m0 rest H0 _ IH]; intros nm index.
  { apply parse_spec_ret. }
  assert (Hraise : forall e, get_profile m0 = Raise e ->
            (forall self,
                slave_loop TRANSIENT_ConnectFailed (Manager_new TRANSIENT_ConnectFailed)
                  self (m0 :: rest) index = raise e) ->
            parse_spec
              (fun self =>
                 slave_loop TRANSIENT_ConnectFailed (Manager_new TRANSIENT_ConnectFailed)
                   self (m0 :: rest) index)
              nm).
  { intros e _ Heq. destruct (parse_spec_raise e nm) as (plan & res & out & H).
    exists plan, res, out. intros self. rewrite Heq. apply H. }
  destruct (get_profile m0) as [p|e] eqn:Hp.
  - set (named := match dict_get "name" (nvlist_to_dict (properties p)) with
                  | Some n => (n, index)
                  | None => ("slave" +:+ PyStr.str_of_nat index, S index)
                  end).
    destruct (H0 (fst named)) as (res0 & out0 & Hinit).
    destruct (IH nm (snd named)) as (plan_r & res_r & out_r & Hrest).
    destruct res0 as [[]|e].
    + exists ((fst named, KManager) :: plan_r), res_r, (out0 ++ out_r).
      intros self w m r w' Hs Hnm Hrun.
      rewrite slave_loop_cons, Hp in Hrun. cbv zeta in Hrun. fold named in Hrun.
      rewrite bind_run in Hrun.
      destruct (Manager_new TRANSIENT_ConnectFailed (fst named) (Some self) m0 w)
        as [r0 w1] eqn:Hnew.
      destruct (Hinit _ _ _ _ Hnew) as (-> & Herr0 & _). cbn [at_next] in *.
      destruct (slave_step self m0 (fst named) w m w1 Hs H0 Hnew)
        as (w2 & m' & Hadd & Herr2 & Hadds & _).
      rewrite (bind_ok _ _ _ _ _ Hadd) in Hrun.
      destruct (adds_manager _ _ _ _ _ Hadds Hs) as [c Hs2].
      destruct (Hrest self w2 _ r w' Hs2 Hnm Hrun) as (-> & Herr' & Hadds').
      split; [done|]. split; [by rewrite Herr', Herr2, Herr0, app_assoc|].
      by apply (adds_trans self [_] plan_r w w2 w').
    + exists [], (Raise e), out0.
      intros self w m r w' Hs Hnm Hrun.
      rewrite slave_loop_cons, Hp in Hrun. cbv zeta in Hrun. fold named in Hrun.
      rewrite bind_run in Hrun.
      destruct (Manager_new TRANSIENT_ConnectFailed (fst named) (Some self) m0 w)
        as [r0 w1] eqn:Hnew.
      destruct (Hinit _ _ _ _ Hnew) as (-> & Herr0 & Hlen & Hframe & _).
      cbn [at_next] in *. injection Hrun as <- <-.
      split; [done|]. split; [done|].
      eapply adds_nothing; [done|lia|done].
  - destruct e as [[] minor| | | | | | |];
      try (apply (Hraise _ eq_refl); intros self; by rewrite slave_loop_cons, Hp).
    destruct (minor =? TRANSIENT_ConnectFailed)%Z eqn:Hminor.
    + destruct (IH nm index) as (plan_r & res_r & out_r & Hrest).
      exists plan_r, res_r, (ZombieSlaveWarning nm :: out_r).
      intros self w m r w' Hs Hnm Hrun.
      rewrite slave_loop_cons, Hp, Hminor in Hrun.
      rewrite (bind_ok _ _ _ _ _ (name_run _ _ _ Hs)) in Hrun.
      cbn [node_base] in Hrun. rewrite Hnm in Hrun.
      rewrite bind_run in Hrun. cbn [print_stderr] in Hrun.
      set (w1 := mkWorld (heap w) (stderr w ++ [ZombieSlaveWarning nm])) in Hrun.
      destruct (Hrest self w1 m r w' Hs Hnm Hrun) as (-> & Herr' & Hadds').
      split; [done|]. split; [|done].
      rewrite Herr'. cbn. by rewrite <- app_assoc.
    + apply (Hraise _ eq_refl); intros self. by rewrite slave_loop_cons, Hp, Hminor.
Qed.

Lemma parse_manager_children_spec (obj : RTMManager) nm :
  (forall mgrs, get_slave_managers obj = Ok mgrs ->
                Forall (init_spec TRANSIENT_ConnectFailed) mgrs) ->
  parse_spec (_parse_manager_children TRANSIENT_ConnectFailed obj) nm.
Proof.
  intros Hslaves.
  unfold _parse_manager_children, parse_manager_children.
  destruct (get_slave_managers obj) as [mgrs|e].
  - apply (slave_loop_spec mgrs (Hslaves mgrs eq_refl) nm 0).
  - destruct e as [[] minor| | | | | | |];
      first [apply parse_spec_raise | apply parse_spec_ret].
Qed.

Lemma parse_children_spec (obj : RTMManager) nm :
  (forall mgrs, get_slave_managers obj = Ok mgrs ->
                Forall (init_spec TRANSIENT_ConnectFailed) mgrs) ->
  parse_spec (_parse_children TRANSIENT_ConnectFailed obj) nm.
Proof.
  intros Hslaves.
  apply (parse_spec_seq (_parse_component_children obj)
           (_parse_manager_children TRANSIENT_ConnectFailed obj)).
  - destruct (parse_component_children_spec obj) as (plan & res & out & H).
    exists plan, res, out. intros self w m r w' Hs _. by apply (H self w m).
  - by apply parse_manager_children_spec.
Qed.

Lemma parse_run (obj : RTMManager) self w m :
  heap w !! self = Some (NManager m) ->
  _parse TRANSIENT_ConnectFailed obj self w =
  _parse_children TRANSIENT_ConnectFailed obj self (after_reset self m w).
Proof.
  intros Hs. unfold _parse, parse.
  by rewrite (bind_ok _ _ _ _ _ (assign_run _ reset_views _ _ Hs)).
Qed.

Lemma parse_plan_exists_from (obj : RTMManager) nm :
  (forall mgrs, get_slave_managers obj = Ok mgrs ->
                Forall (init_spec TRANSIENT_ConnectFailed) mgrs) ->
  exists plan res out, parse_plan TRANSIENT_ConnectFailed obj nm plan res out.
Proof.
  intros Hslaves.
  destruct (parse_children_spec obj nm Hslaves) as (plan & res & out & H).
  exists plan, res, out. intros self w m r w' Hs Hnm Hrun.
  rewrite (parse_run _ _ _ _ Hs) in Hrun.
  apply (H self (after_reset self m w) (reset_views m)); [|done..].
  cbn. eapply list_lookup_insert_eq, lookup_lt_Some, Hs.
Qed.

Lemma Manager_new_run (obj : RTMManager) nm par :
  Manager_new TRANSIENT_ConnectFailed nm par obj =
  (let* self := alloc (NManager
      (mkManager (mkTreeNode nm par []) obj None None None None None None None None)) in
   _parse TRANSIENT_ConnectFailed obj self ;;
   ret self).
Proof. unfold Manager_new. by destruct obj. Qed.

Lemma init_spec_from (obj : RTMManager) :
  (forall mgrs, get_slave_managers obj = Ok mgrs ->
                Forall (init_spec TRANSIENT_ConnectFailed) mgrs) ->
  init_spec TRANSIENT_ConnectFailed obj.
Proof.
  intros Hslaves nm.
  destruct (parse_plan_exists_from obj nm Hslaves) as (plan & res & out & H).
  exists res, out. intros par w r w' Hrun.
  rewrite Manager_new_run, bind_run, alloc_run in Hrun.
  set (m0 := mkManager (mkTreeNode nm par []) obj None None None None None None None None)
    in Hrun.
  set (w1 := mkWorld (heap w ++ [NManager m0]) (stderr w)) in Hrun.
  assert (Hs1 : heap w1 !! length (heap w) = Some (NManager m0)) by apply lookup_alloc_new.
  rewrite bind_run in Hrun.
  destruct (_parse TRANSIENT_ConnectFailed obj (length (heap w)) w1) as [rp wp] eqn:Hparse.
  destruct (H _ _ _ _ _ Hs1 eq_refl Hparse) as (-> & Herr & Hadds).
  assert (w' = wp) as ->.
  { destruct res as [[]|e]; by injection Hrun as <- <-. }
  assert (Hs1r : heap (after_reset (length (heap w)) m0 w1) !! length (heap w) =
                 Some (NManager (reset_views m0))).
  { cbn. eapply list_lookup_insert_eq, lookup_lt_Some, Hs1. }
  destruct (adds_manager _ _ _ _ _ Hadds Hs1r) as [c Hc].
  destruct Hadds as (Hlen & Hframe & _).
  cbn [after_reset heap w1] in Hlen, Hframe.
  rewrite length_insert, length_app in Hlen, Hframe. cbn [length] in Hlen, Hframe.
  split. { destruct res as [[]|e]; by injection Hrun as <-. }
  split; [done|]. split; [lia|]. split.
  - intros l Hl. rewrite Hframe; [|lia..].
    rewrite list_lookup_insert_ne; [|lia]. by apply lookup_alloc_old.
  - eexists. split; [exact Hc|]. done.
Qed.

(** The constructor meets [init_spec] on every handle. *)
Lemma init_all (obj : RTMManager) : init_spec TRANSIENT_ConnectFailed obj.
Proof. induction obj using RTMManager_nested_ind. by apply init_spec_from. Qed.

Lemma parse_plan_exists (obj : RTMManager) nm :
  exists plan res out, parse_plan TRANSIENT_ConnectFailed obj nm plan res out.
Proof.
  apply parse_plan_exists_from. intros mgrs _.
  apply Forall_forall. intros m _. apply init_all.
Qed.

End SlaveManagers.

(** ** Reading the cached views *)

Section Views.

Lemma world_eta w : mkWorld (heap w) (stderr w) = w.
Proof. by destruct w. Qed.

(** The loop that appends the dictionaries of a profile list to a list
    attribute, for any attribute with its assignment. *)
Lemma append_loop
    (getf : Manager -> option (list (dict string)))
    (setf : option (list (dict string)) -> Manager -> Manager)
    (Hgs : forall v m, getf (setf v m) = v)
    (Hss : forall v v' m, setf v (setf v' m) = setf v m)
    (Hsg : forall m, setf (getf m) m = m)
    (ps : list Profile) self w m acc :
  heap w !! self = Some (NManager m) ->
  getf m = Some acc ->
  for_each ps (fun p =>
    assign self (fun m => setf (append (nvlist_to_dict (properties p)) (getf m)) m)) w =
  (Ok tt, mkWorld (<[self := NManager (setf (Some (acc ++ dicts_of ps)) m)]> (heap w))
                  (stderr w)).
Proof.
  revert w m acc. induction ps as [|p ps IH]; intros w m acc Hs Hacc.
  - cbn. rewrite app_nil_r, <- Hacc, Hsg, list_insert_id; [|done].
    by rewrite world_eta.
  - cbn [for_each]. rewrite (bind_ok _ _ _ _ _ (assign_run _ _ _ _ Hs)).
    rewrite Hacc. cbn [append].
    erewrite IH; [| by eapply lookup_insert_manager | by rewrite Hgs].
    cbn [heap stderr]. rewrite list_insert_insert_eq, Hss.
    cbn [dicts_of map]. by rewrite <- app_assoc.
Qed.

(** A list view that is fetched from the remote manager. *)
Lemma list_view_run
    (getf : Manager -> option (list (dict string)))
    (setf : option (list (dict string)) -> Manager -> Manager)
    (Hgs : forall v m, getf (setf v m) = v)
    (Hss : forall v v' m, setf v (setf v' m) = setf v m)
    (Hsg : forall m, setf (getf m) m = m)
    (call : RTMManager -> result (list Profile)) self w m :
  heap w !! self = Some (NManager m) ->
  fst ((let* m := get_manager self in
        (if py_not (getf m)
         then
           assign self (setf (Some [])) ;;
           let* ps := remote (call (_obj m)) in
           for_each ps (fun p =>
             assign self (fun m => setf (append (nvlist_to_dict (properties p)) (getf m)) m))
         else ret tt) ;;
        let* m := get_manager self in
        ret (default [] (getf m))) w) =
  if py_not (getf m) then fetched dicts_of (call (_obj m)) else Ok (default [] (getf m)).
Proof.
  intros Hs. rewrite (bind_ok _ _ _ _ _ (get_manager_run _ _ _ Hs)).
  destruct (py_not (getf m)).
  - rewrite bind_run, (bind_ok _ _ _ _ _ (assign_run _ _ _ _ Hs)).
    unfold remote at 1. rewrite bind_run.
    destruct (call (_obj m)) as [ps|e]; [|done].
    erewrite (append_loop getf setf Hgs Hss Hsg ps);
      [| by eapply lookup_insert_manager | by rewrite Hgs].
    cbn [heap stderr]. rewrite list_insert_insert_eq.
    erewrite bind_ok; [|apply get_manager_run; cbn; by eapply lookup_insert_manager].
    cbn. by rewrite Hgs.
  - rewrite bind_run. cbn [ret].
    by rewrite (bind_ok _ _ _ _ _ (get_manager_run _ _ _ Hs)).
Qed.

Lemma factory_profiles_run self w m :
  heap w !! self = Some (NManager m) ->
  fst (factory_profiles self w) =
  if py_not (_factory_profiles m)
  then fetched dicts_of (get_factory_profiles (_obj m))
  else Ok (default [] (_factory_profiles m)).
Proof.
  apply (list_view_run _factory_profiles with_factory_profiles); try done.
  by intros [].
Qed.

Lemma loadable_modules_run self w m :
  heap w !! self = Some (NManager m) ->
  fst (loadable_modules self w) =
  if py_not (_loadable_modules m)
  then fetched dicts_of (get_loadable_modules (_obj m))
  else Ok (default [] (_loadable_modules m)).
Proof.
  apply (list_view_run _loadable_modules with_loadable_modules); try done.
  by intros [].
Qed.

Lemma loaded_modules_run self w m :
  heap w !! self = Some (NManager m) ->
  fst (loaded_modules self w) =
  if py_not (_loaded_modules m)
  then fetched dicts_of (get_loaded_modules (_obj m))
  else Ok (default [] (_loaded_modules m)).
Proof.
  apply (list_view_run _loaded_modules with_loaded_modules); try done.
  by intros [].
Qed.

Lemma configuration_run self w m :
  heap w !! self = Some (NManager m) ->
  fst (configuration self w) =
  if py_not (_configuration m)
  then fetched nvlist_to_dict (get_configuration (_obj m))
  else Ok (default [] (_configuration m)).
Proof.
  intros Hs. unfold configuration.
  rewrite (bind_ok _ _ _ _ _ (get_manager_run _ _ _ Hs)).
  destruct (py_not (_configuration m)).
  - rewrite bind_run. unfold remote at 1. rewrite bind_run.
    destruct (get_configuration (_obj m)) as [nv|e]; [|done].
    rewrite (assign_run _ _ _ _ Hs).
    erewrite bind_ok; [|apply get_manager_run; cbn; by eapply lookup_insert_manager].
    done.
  - rewrite bind_run. cbn [ret].
    by rewrite (bind_ok _ _ _ _ _ (get_manager_run _ _ _ Hs)).
Qed.

Lemma profile_run self w m :
  heap w !! self = Some (NManager m) ->
  fst (profile self w) =
  if py_not (_profile m)
  then fetched (fun p => nvlist_to_dict (properties p)) (get_profile (_obj m))
  else Ok (default [] (_profile m)).
Proof.
  intros Hs. unfold profile.
  rewrite (bind_ok _ _ _ _ _ (get_manager_run _ _ _ Hs)).
  destruct (py_not (_profile m)).
  - rewrite bind_run. unfold remote at 1. rewrite bind_run.
    destruct (get_profile (_obj m)) as [nv|e]; [|done].
    rewrite (assign_run _ _ _ _ Hs).
    erewrite bind_ok; [|apply get_manager_run; cbn; by eapply lookup_insert_manager].
    done.
  - rewrite bind_run. cbn [ret].
    by rewrite (bind_ok _ _ _ _ _ (get_manager_run _ _ _ Hs)).
Qed.

Lemma masters_run self w m :
  heap w !! self = Some (NManager m) ->
  masters self w =
  if py_not (_masters m)
  then (Raise NotImplementedError, w)
  else (Ok (default [] (_masters m)), w).
Proof.
  intros Hs. unfold masters.
  rewrite (bind_ok _ _ _ _ _ (get_manager_run _ _ _ Hs)).
  destruct (py_not (_masters m)); [done|].
  rewrite bind_run. cbn [ret].
  by rewrite (bind_ok _ _ _ _ _ (get_manager_run _ _ _ Hs)).
Qed.

Lemma slaves_run self w m :
  heap w !! self = Some (NManager m) ->
  fst (slaves self w) =
  Ok (if py_not (_slaves m) then children_where node_is_manager w m
      else default [] (_slaves m)).
Proof.
  intros Hs. unfold slaves.
  rewrite (bind_ok _ _ _ _ _ (get_manager_run _ _ _ Hs)).
  destruct (py_not (_slaves m)).
  - rewrite bind_run.
    rewrite (bind_ok _ _ _ _ _ (children_run _ _ _ Hs)).
    rewrite bind_run. cbn [select]. rewrite (assign_run _ _ _ _ Hs).
    erewrite bind_ok; [|apply get_manager_run; cbn; by eapply lookup_insert_manager].
    done.
  - rewrite bind_run. cbn [ret].
    by rewrite (bind_ok _ _ _ _ _ (get_manager_run _ _ _ Hs)).
Qed.

Lemma components_run self w m :
  heap w !! self = Some (NManager m) ->
  fst (components self w) =
  Ok (if py_not (_components m) then children_where node_is_component w m
      else default [] (_components m)).
Proof.
  intros Hs. unfold components.
  rewrite (bind_ok _ _ _ _ _ (get_manager_run _ _ _ Hs)).
  destruct (py_not (_components m)).
  - rewrite bind_run.
    rewrite (bind_ok _ _ _ _ _ (children_run _ _ _ Hs)).
    rewrite bind_run. cbn [select]. rewrite (assign_run _ _ _ _ Hs).
    erewrite bind_ok; [|apply get_manager_run; cbn; by eapply lookup_insert_manager].
    done.
  - rewrite bind_run. cbn [ret].
    by rewrite (bind_ok _ _ _ _ _ (get_manager_run _ _ _ Hs)).
Qed.

End Views.

(** ** The observable state of a manager node *)

Section Observation.

Lemma dict_get_set_eq {V} k (v : V) d : dict_get k (dict_set k v d) = Some v.
Proof.
  induction d as [|[k0 v0] d IH]; cbn.
  - by rewrite String.eqb_refl.
  - destruct (String.eqb k0 k) eqn:E; cbn; [by rewrite String.eqb_refl|by rewrite E].
Qed.

Lemma dict_get_set_ne {V} k k' (v : V) d :
  k' <> k -> dict_get k (dict_set k' v d) = dict_get k d.
Proof.
  intros Hne. induction d as [|[k0 v0] d IH]; cbn.
  - apply String.eqb_neq in Hne. by rewrite Hne.
  - destruct (String.eqb k0 k') eqn:E; cbn.
    + apply String.eqb_eq in E as ->. apply String.eqb_neq in Hne. by rewrite Hne.
    + by rewrite IH.
Qed.

Lemma dict_get_update_in {V} k (kvs : list (string * V)) d :
  In k (map fst kvs) ->
  exists v, dict_get k (dict_update kvs d) = Some v /\ In (k, v) kvs.
Proof.
  induction kvs as [|[k' v'] kvs IH] using rev_ind; [done|].
  rewrite map_app, dict_update_app. cbn. intros Hin.
  destruct (String.eqb_spec k' k) as [->|Hne].
  - exists v'. rewrite dict_get_set_eq. split; [done|].
    apply in_or_app. right. by left.
  - rewrite dict_get_set_ne; [|done].
    apply in_app_or in Hin as [Hin|[Heq|[]]]; [|done].
    destruct (IH Hin) as (v & Hv & Hkv). exists v. split; [done|].
    apply in_or_app. by left.
Qed.

Lemma dict_get_update_notin {V} k (kvs : list (string * V)) d :
  ~ In k (map fst kvs) -> dict_get k (dict_update kvs d) = dict_get k d.
Proof.
  revert d; induction kvs as [|[k' v'] kvs IH]; intros d Hnin; [done|].
  change (dict_get k (dict_update kvs (dict_set k' v' d)) = dict_get k d).
  cbn in Hnin. rewrite IH; [|tauto].
  apply dict_get_set_ne. tauto.
Qed.

Lemma dict_get_value {V} k (d : dict V) v : dict_get k d = Some v -> In v (dict_values d).
Proof.
  induction d as [|[k0 v0] d IH]; cbn; [done|].
  destruct (String.eqb k0 k); [intros [= ->]; by left|auto].
Qed.

Lemma names_of_children_where p pk w m :
  (forall n, p n = pk (node_kind n)) ->
  names_of w (children_where p w m) = seen_where pk (observe_children w m).
Proof.
  intros Hp. unfold names_of, children_where, seen_where, observe_children,
    dict_values, dict_map.
  induction (_children (manager_node m)) as [|[k l] d IH]; cbn; [done|].
  destruct (heap w !! l) as [n|] eqn:Hl; cbn.
  - rewrite <- Hp. destruct (p n); cbn; [|done]. by rewrite Hl, IH.
  - done.
Qed.

(** A store change that keeps the kind and name of the objects that were
    there keeps what is seen of an old child collection. *)
Lemma observe_children_old w w' m :
  (forall l, l < length (heap w) -> info <$> heap w' !! l = info <$> heap w !! l) ->
  Forall (fun c => c < length (heap w)) (dict_values (_children (manager_node m))) ->
  dict_map (fun l => info <$> heap w' !! l) (_children (manager_node m)) =
  observe_children w m.
Proof.
  intros Hinfo. unfold observe_children, dict_map, dict_values.
  induction (_children (manager_node m)) as [|[k l] d IH]; cbn; [done|].
  intros Hall. inversion Hall; subst. by rewrite Hinfo, IH.
Qed.

Lemma created_seen w' base kvs plan :
  Forall2 (created w' base) kvs plan ->
  dict_map (fun l => info <$> heap w' !! l) kvs = seen_plan plan.
Proof.
  induction 1 as [|[k l] [nm kd] kvs plan (Hk & _ & n & Hn & Hkind & Hname) _ IH]; [done|].
  cbn in *. rewrite Hn. cbn. unfold info. rewrite Hkind, Hname. subst k.
  f_equal. exact IH.
Qed.

(** After the children of a plan were added, a reader sees the old
    children with the assignments of the plan applied. *)
Lemma adds_observed self plan w w' m :
  adds self plan w w' ->
  heap w !! self = Some (NManager m) ->
  Forall (fun c => c < length (heap w)) (dict_values (_children (manager_node m))) ->
  exists kvs,
    heap w' !! self =
      Some (NManager (with_children (dict_update kvs (_children (manager_node m))) m))
    /\ map fst kvs = map fst plan
    /\ Forall (fun kv => length (heap w) <= snd kv < length (heap w')) kvs
    /\ observe_children w'
         (with_children (dict_update kvs (_children (manager_node m))) m) =
       dict_update (seen_plan plan) (observe_children w m).
Proof.
  intros (Hlen & Hframe & m0 & kvs & Hs & Hs' & Hc) Hm Hvalid.
  rewrite Hs in Hm. injection Hm as ->.
  exists kvs. split; [done|]. split; [|split].
  - clear -Hc. induction Hc as [|? ? ? ? (Hk & _) _ IH]; cbn; [done|]. by rewrite Hk, IH.
  - clear -Hc. induction Hc as [|? ? ? ? (_ & Hb & n & Hn & _) _ IH]; constructor; [|done].
    split; [done|]. by eapply lookup_lt_Some.
  - unfold observe_children at 1. cbn [with_children set_manager_node manager_node _children].
    rewrite dict_map_update, (created_seen _ _ _ _ Hc).
    f_equal. apply observe_children_old; [|done].
    intros l Hl. destruct (decide (l = self)) as [Heq|Hne].
    + by rewrite Heq, Hs', Hs.
    + by rewrite Hframe.
Qed.

End Observation.

(** ** reparse (C6, C7, C8) and two parses in a row *)

Section Reparse.

Variable TRANSIENT_ConnectFailed : Z.

Lemma reparse_run self w m :
  heap w !! self = Some (NManager m) ->
  reparse TRANSIENT_ConnectFailed self w = _parse TRANSIENT_ConnectFailed (_obj m) self w.
Proof.
  intros Hs. unfold reparse.
  by rewrite (bind_ok _ _ _ _ _ (object_run _ _ _ Hs)).
Qed.

(** C7. When [get_components] fails with a [BAD_PARAM] fault, the parse
    of the component children returns normally: it prints the fault and
    adds no child, the store is as it was. The fault is not raised by a
    reparse either: after the cached views are cleared and the fault is
    printed, the reparse is the parse of the slave managers. *)
Theorem parse_component_children_bad_param
    (self : loc) (w : World) (m : Manager) (minor : Z) :
  heap w !! self = Some (NManager m) ->
  get_components (_obj m) = Raise (CORBA_SystemException CORBA.BAD_PARAM minor) ->
  let printed := [BadParamMessage (CORBA_SystemException CORBA.BAD_PARAM minor)] in
  _parse_component_children (_obj m) self w = (Ok tt, mkWorld (heap w) (stderr w ++ printed))
  /\ reparse TRANSIENT_ConnectFailed self w =
     _parse_manager_children TRANSIENT_ConnectFailed (_obj m) self
       (mkWorld (heap (after_reset self m w)) (stderr w ++ printed)).
Proof.
  intros Hs Hfault printed.
  assert (H : forall w0, _parse_component_children (_obj m) self w0 =
                         (Ok tt, mkWorld (heap w0) (stderr w0 ++ printed))).
  { intros w0. unfold _parse_component_children. by rewrite Hfault. }
  split; [apply H|].
  rewrite (reparse_run _ _ _ Hs), (parse_run _ _ _ _ _ Hs).
  unfold _parse_children, parse_children.
  by rewrite (bind_ok _ _ _ _ _ (H _)).
Qed.

(** C8. When [get_slave_managers] fails with a [BAD_OPERATION] fault, the
    parse of the manager children returns normally, adds no child, prints
    nothing and leaves the store as it was. A reparse then is the parse of
    the component children, after the cached views are cleared: the fault
    is not raised and the manager gets no manager child. *)
Theorem parse_manager_children_bad_operation
    (self : loc) (w : World) (m : Manager) (minor : Z) :
  heap w !! self = Some (NManager m) ->
  get_slave_managers (_obj m) = Raise (CORBA_SystemException CORBA.BAD_OPERATION minor) ->
  _parse_manager_children TRANSIENT_ConnectFailed (_obj m) self w = (Ok tt, w)
  /\ reparse TRANSIENT_ConnectFailed self w =
     _parse_component_children (_obj m) self (after_reset self m w).
Proof.
  intros Hs Hfault.
  assert (H : forall w0, _parse_manager_children TRANSIENT_ConnectFailed (_obj m) self w0 =
                         (Ok tt, w0)).
  { intros w0. unfold _parse_manager_children, parse_manager_children. by rewrite Hfault. }
  split; [apply H|].
  rewrite (reparse_run _ _ _ Hs), (parse_run _ _ _ _ _ Hs).
  unfold _parse_children, parse_children. rewrite bind_run.
  destruct (_parse_component_children (_obj m) self (after_reset self m w))
    as [[[]|e] w1]; [|done].
  apply H.
Qed.

(** One reparse, against the plan of the handle. *)
Lemma reparse_once self w m plan res out r w1 :
  heap w !! self = Some (NManager m) ->
  children_allocated w m ->
  parse_plan TRANSIENT_ConnectFailed (_obj m) (_name (manager_node m)) plan res out ->
  reparse TRANSIENT_ConnectFailed self w = (r, w1) ->
  r = res
  /\ length (heap w) <= length (heap w1)
  /\ exists kvs,
      heap w1 !! self =
        Some (NManager (with_children (dict_update kvs (_children (manager_node m)))
                          (reset_views m)))
      /\ map fst kvs = map fst plan
      /\ Forall (fun kv => length (heap w) <= snd kv < length (heap w1)) kvs
      /\ observe_children w1
           (with_children (dict_update kvs (_children (manager_node m))) (reset_views m)) =
         dict_update (seen_plan plan) (observe_children w m).
Proof.
  intros Hs Hvalid Hplan Hrun.
  rewrite (reparse_run _ _ _ Hs) in Hrun.
  destruct (Hplan _ _ _ _ _ Hs eq_refl Hrun) as (-> & _ & Hadds).
  assert (Hsr : heap (after_reset self m w) !! self = Some (NManager (reset_views m))).
  { cbn. eapply list_lookup_insert_eq, lookup_lt_Some, Hs. }
  assert (Hlenr : length (heap (after_reset self m w)) = length (heap w)).
  { cbn. apply length_insert. }
  destruct (adds_observed _ _ _ _ _ Hadds Hsr) as (kvs & Hs1 & Hk & Hfresh & Hobs).
  { unfold children_allocated in Hvalid. by rewrite Hlenr. }
  split; [done|]. split. { destruct Hadds as [Hlen _]. lia. }
  exists kvs. rewrite Hlenr in Hfresh. cbn [reset_views manager_node] in Hs1, Hobs.
  repeat (split; [done|]).
  cbn [reset_views manager_node]. rewrite Hobs. f_equal.
  apply (observe_children_old w (after_reset self m w) m); [|done].
  intros l Hl. cbn. destruct (decide (l = self)) as [->|Hne].
  - rewrite list_lookup_insert_eq, Hs; done.
  - by rewrite list_lookup_insert_ne.
Qed.

Lemma children_allocated_update w w1 m kvs :
  children_allocated w m ->
  length (heap w) <= length (heap w1) ->
  Forall (fun kv => length (heap w) <= snd kv < length (heap w1)) kvs ->
  children_allocated w1
    (with_children (dict_update kvs (_children (manager_node m))) (reset_views m)).
Proof.
  intros Hvalid Hlen Hfresh. unfold children_allocated in *. cbn.
  apply Forall_forall. intros c Hc. apply list_elem_of_In in Hc.
  apply dict_values_update in Hc as [Hc|Hc].
  - apply in_map_iff in Hc as (kv & <- & Hkv).
    rewrite Forall_forall in Hfresh. apply list_elem_of_In in Hkv.
    specialize (Hfresh kv Hkv). lia.
  - rewrite Forall_forall in Hvalid. apply list_elem_of_In in Hc.
    specialize (Hvalid c Hc). lia.
Qed.

(** The views of a manager whose caches are all [None] are fixed by its
    handle and by what is seen of its children. *)
Lemma observe_views_reset self w c m :
  heap w !! self = Some (NManager (with_children c (reset_views m))) ->
  observe_views self w =
  mkViews
    (Ok (seen_where (fun k => match k with KComponent => true | _ => false end)
           (observe_children w (with_children c (reset_views m)))))
    (fetched nvlist_to_dict (get_configuration (_obj m)))
    (fetched (fun p => nvlist_to_dict (properties p)) (get_profile (_obj m)))
    (fetched dicts_of (get_factory_profiles (_obj m)))
    (fetched dicts_of (get_loadable_modules (_obj m)))
    (fetched dicts_of (get_loaded_modules (_obj m)))
    (Raise NotImplementedError)
    (Ok (seen_where (fun k => match k with KManager => true | _ => false end)
           (observe_children w (with_children c (reset_views m))))).
Proof.
  intros Hs. unfold observe_views.
  rewrite (components_run _ _ _ Hs), (configuration_run _ _ _ Hs), (profile_run _ _ _ Hs),
    (factory_profiles_run _ _ _ Hs), (loadable_modules_run _ _ _ Hs),
    (loaded_modules_run _ _ _ Hs), (masters_run _ _ _ Hs), (slaves_run _ _ _ Hs).
  cbn [with_children reset_views set_manager_node py_not fetched fst
       _components _configuration _profile _factory_profiles _loadable_modules
       _loaded_modules _masters _slaves _obj].
  f_equal; f_equal; apply names_of_children_where; by intros [].
Qed.

(** Two parses of a manager node in a row, the remote answers being those
    of the node's handle both times: the second has the outcome of the
    first, and after it the node has the same child names in the same
    order, the same kind and name of child under each of them, every
    cached view unfetched as after the first, and every property reads the
    same. The children that the first parse built are other objects after
    the second; a child that was there before and is not listed is the
    same object throughout. This is about [_parse], through [reparse] as it
    is modelled above; the [reparse] of the other kinds of node is not in
    the sources. *)
Theorem reparse_twice_same_observable_state
    (self : loc) (w : World) (m : Manager) (r1 r2 : result unit) (w1 w2 : World) :
  heap w !! self = Some (NManager m) ->
  children_allocated w m ->
  reparse TRANSIENT_ConnectFailed self w = (r1, w1) ->
  reparse TRANSIENT_ConnectFailed self w1 = (r2, w2) ->
  r2 = r1
  /\ exists m1 m2,
      heap w1 !! self = Some (NManager m1)
      /\ heap w2 !! self = Some (NManager m2)
      /\ dict_keys (_children (manager_node m2)) = dict_keys (_children (manager_node m1))
      /\ observe_children w2 m2 = observe_children w1 m1
      /\ reset_views m1 = m1
      /\ reset_views m2 = m2
      /\ observe_views self w2 = observe_views self w1
      /\ (forall k l1 l2,
            dict_get k (_children (manager_node m1)) = Some l1 ->
            dict_get k (_children (manager_node m2)) = Some l2 ->
            length (heap w) <= l1 ->
            l1 < l2).
Proof.
  intros Hs Hvalid Hrun1 Hrun2.
  destruct (parse_plan_exists TRANSIENT_ConnectFailed (_obj m) (_name (manager_node m)))
    as (plan & res & out & Hplan).
  destruct (reparse_once _ _ _ _ _ _ _ _ Hs Hvalid Hplan Hrun1)
    as (-> & Hlen1 & kvs1 & Hs1 & Hk1 & Hfresh1 & Hobs1).
  set (m1 := with_children (dict_update kvs1 (_children (manager_node m))) (reset_views m))
    in *.
  assert (Hvalid1 : children_allocated w1 m1) by by apply (children_allocated_update w).
  destruct (reparse_once _ _ m1 plan res out _ _ Hs1 Hvalid1 Hplan Hrun2)
    as (-> & Hlen2 & kvs2 & Hs2 & Hk2 & Hfresh2 & Hobs2).
  set (m2 := with_children (dict_update kvs2 (_children (manager_node m1))) (reset_views m1))
    in *.
  assert (Hobs : observe_children w2 m2 = observe_children w1 m1).
  { rewrite Hobs2, Hobs1. apply dict_update_idempotent. }
  split; [done|]. exists m1, m2.
  repeat (split; [done|]). split; [|split; [done|split; [done|split; [done|split]]]].
  - assert (Hkeys : forall w0 m0,
              dict_keys (observe_children w0 m0) = dict_keys (_children (manager_node m0))).
    { intros. apply dict_keys_map. }
    by rewrite <- (Hkeys w2 m2), <- (Hkeys w1 m1), Hobs.
  - rewrite (observe_views_reset _ _ _ _ Hs2), (observe_views_reset _ _ _ _ Hs1).
    fold m2. fold m1. by rewrite Hobs.
  - intros k l1 l2 Hl1 Hl2 Hnew. cbn in Hl1, Hl2.
    assert (Hin : In k (map fst kvs1)).
    { destruct (in_dec String.string_dec k (map fst kvs1)) as [|Hnin]; [done|].
      rewrite (dict_get_update_notin _ _ _ Hnin) in Hl1.
      apply dict_get_value in Hl1. unfold children_allocated in Hvalid.
      rewrite Forall_forall in Hvalid. apply list_elem_of_In in Hl1.
      specialize (Hvalid _ Hl1). lia. }
    assert (Hl1' : l1 < length (heap w1)).
    { destruct (dict_get_update_in k kvs1 (_children (manager_node m)) Hin)
        as (v & Hv & Hkv).
      rewrite Hv in Hl1. injection Hl1 as ->.
      rewrite Forall_forall in Hfresh1. apply list_elem_of_In in Hkv.
      specialize (Hfresh1 _ Hkv). cbn in Hfresh1. lia. }
    rewrite Hk1, <- Hk2 in Hin.
    destruct (dict_get_update_in k kvs2
                (dict_update kvs1 (_children (manager_node m))) Hin) as (v & Hv & Hkv).
    rewrite Hv in Hl2. injection Hl2 as ->.
    rewrite Forall_forall in Hfresh2. apply list_elem_of_In in Hkv.
    specialize (Hfresh2 _ Hkv). cbn in Hfresh2. lia.
Qed.

(** After a reparse the node is a manager whose cached views are unset. *)
Lemma reparse_node self w m r w1 :
  heap w !! self = Some (NManager m) ->
  reparse TRANSIENT_ConnectFailed self w = (r, w1) ->
  exists c, heap w1 !! self = Some (NManager (with_children c (reset_views m))).
Proof.
  intros Hs Hrun.
  destruct (parse_plan_exists TRANSIENT_ConnectFailed (_obj m) (_name (manager_node m)))
    as (plan & res & out & Hplan).
  rewrite (reparse_run _ _ _ Hs) in Hrun.
  destruct (Hplan _ _ _ _ _ Hs eq_refl Hrun) as (_ & _ & Hadds).
  eapply adds_manager; [exact Hadds|].
  cbn. eapply list_lookup_insert_eq, lookup_lt_Some, Hs.
Qed.

(** C6, as the code has it. After a [_parse] of a manager node, which
    the constructor runs and which is what a reparse of a manager runs,
    and whatever its outcome: [masters] raises [NotImplementedError] and
    returns no list, for [_parse] sets [_masters] to [None] and nothing
    assigns it a list; this is so for a master manager too. [slaves]
    returns the children of the node that are managers, those and no
    others, in the order of the child collection, and caches that list in
    [_slaves]. *)
Theorem slaves_and_masters_after_parse
    (obj : RTMManager) (self : loc) (w : World) (m : Manager)
    (r : result unit) (w1 : World) :
  heap w !! self = Some (NManager m) ->
  _parse TRANSIENT_ConnectFailed obj self w = (r, w1) ->
  exists m1 ls,
    heap w1 !! self = Some (NManager m1)
    /\ _masters m1 = None
    /\ masters self w1 = (Raise NotImplementedError, w1)
    /\ (forall links, fst (masters self w1) <> Ok links)
    /\ slaves self w1 = (Ok ls, stored self (with_slaves (Some ls) m1) w1)
    /\ ls = List.filter
              (fun c => match heap w1 !! c with Some (NManager _) => true | _ => false end)
              (dict_values (_children (manager_node m1)))
    /\ (forall c, In c ls <->
          In c (dict_values (_children (manager_node m1)))
          /\ exists mc, heap w1 !! c = Some (NManager mc)).
Proof.
  intros Hs Hrun.
  assert (Hnode : exists c,
            heap w1 !! self = Some (NManager (with_children c (reset_views m)))).
  { destruct (parse_plan_exists TRANSIENT_ConnectFailed obj (_name (manager_node m)))
      as (plan & res & out & Hplan).
    destruct (Hplan _ _ _ _ _ Hs eq_refl Hrun) as (_ & _ & Hadds).
    eapply adds_manager; [exact Hadds|].
    cbn. eapply list_lookup_insert_eq, lookup_lt_Some, Hs. }
  destruct Hnode as [c Hs1].
  assert (Hfilter : children_where node_is_manager w1 (with_children c (reset_views m)) =
            List.filter
              (fun c => match heap w1 !! c with Some (NManager _) => true | _ => false end)
              (dict_values (_children (manager_node (with_children c (reset_views m)))))).
  { unfold children_where. apply filter_ext. intros l.
    by destruct (heap w1 !! l) as [[]|]. }
  assert (Hmasters : masters self w1 = (Raise NotImplementedError, w1)).
  { by rewrite (masters_run _ _ _ Hs1). }
  exists (with_children c (reset_views m)),
         (children_where node_is_manager w1 (with_children c (reset_views m))).
  split; [exact Hs1|]. split; [reflexivity|]. split; [exact Hmasters|].
  split; [intros links; by rewrite Hmasters|].
  split; [|split; [exact Hfilter|]].
  - unfold slaves.
    rewrite (bind_ok _ _ _ _ _ (get_manager_run _ _ _ Hs1)).
    change (py_not (_slaves (with_children c (reset_views m)))) with true. cbv iota.
    rewrite bind_run.
    rewrite (bind_ok _ _ _ _ _ (children_run _ _ _ Hs1)).
    rewrite bind_run. cbn [select]. rewrite (assign_run _ _ _ _ Hs1).
    erewrite bind_ok; [|apply get_manager_run; cbn; by eapply lookup_insert_manager].
    done.
  - intros l. rewrite Hfilter, filter_In. split.
    + intros [Hin Hl]. split; [done|]. destruct (heap w1 !! l) as [[mc| |]|]; eauto; done.
    + intros [Hin [mc Hl]]. split; [done|]. by rewrite Hl.
Qed.

End Reparse.

(** ** The names of the children (C4, C5, C10) *)

Section ChildNames.

Variable TRANSIENT_ConnectFailed : Z.

(** After children were added, the node has the keys it had and the keys
    of the plan. *)
Lemma adds_keys self plan w w' m :
  adds self plan w w' ->
  heap w !! self = Some (NManager m) ->
  exists m', heap w' !! self = Some (NManager m')
    /\ (forall k, dict_mem k (_children (manager_node m)) = true ->
                  dict_mem k (_children (manager_node m')) = true)
    /\ Forall (fun nk => dict_mem (fst nk) (_children (manager_node m')) = true) plan.
Proof.
  intros (_ & _ & m0 & kvs & Hs & Hs' & Hc) Hm.
  rewrite Hs in Hm. injection Hm as ->.
  eexists. split; [exact Hs'|]. cbn. split.
  - intros k Hk. by apply dict_mem_update.
  - pose proof (dict_mem_update_keys kvs (_children (manager_node m))) as Hkeys.
    clear -Hc Hkeys. revert Hkeys. generalize (dict_update kvs (_children (manager_node m))).
    intros d. induction Hc as [|? ? ? ? (Hk & _) _ IH]; intros Hkeys; constructor.
    + inversion Hkeys; subst. by rewrite <- Hk.
    + apply IH. by inversion Hkeys.
Qed.

Lemma adds_frame self plan w w' l :
  adds self plan w w' -> l < length (heap w) -> l <> self -> heap w' !! l = heap w !! l.
Proof. intros (_ & Hframe & _). apply Hframe. Qed.

Lemma adds_length self plan w w' : adds self plan w w' -> length (heap w) <= length (heap w').
Proof. by intros (Hlen & _). Qed.

(** A component of the listing whose profile is read, and before which
    every profile of the listing is read, is in the tree as a new component
    node named by its [instance_name] followed by [.rtc]. *)
Lemma component_child_exists
    (obj : RTMManager) (self : loc) (w : World) (m : Manager)
    (comps : list RTObject) (i : nat) (c : RTObject) (p : ComponentProfile)
    (r : result unit) (w' : World) :
  heap w !! self = Some (NManager m) ->
  get_components obj = Ok comps ->
  Forall (fun c' => exists p', get_component_profile c' = Ok p') (take i comps) ->
  comps !! i = Some c ->
  get_component_profile c = Ok p ->
  _parse_component_children obj self w = (r, w') ->
  exists l m',
    length (heap w) <= l
    /\ heap w' !! l =
       Some (NComponent (mkComponent
               (mkTreeNode (instance_name p +:+ ".rtc") (Some self) []) c))
    /\ heap w' !! self = Some (NManager m')
    /\ dict_mem (instance_name p +:+ ".rtc") (_children (manager_node m')) = true.
Proof.
  intros Hs Hcomps Hbefore Hi Hp Hrun.
  unfold _parse_component_children in Hrun. rewrite Hcomps in Hrun. clear Hcomps.
  revert i w m Hs Hbefore Hi Hrun.
  induction comps as [|c0 rest IH]; intros i w m Hs Hbefore Hi Hrun; [done|].
  rewrite component_loop_cons in Hrun.
  destruct i as [|i]; cbn in Hi, Hbefore.
  - injection Hi as ->.
    destruct (component_step self c p w m Hs Hp) as (w2 & Hstep & _ & Hadds & Hnode).
    rewrite (bind_ok _ _ _ _ _ Hstep) in Hrun.
    destruct (adds_keys _ _ _ _ _ Hadds Hs) as (m2 & Hs2 & _ & Hkey).
    destruct (component_loop_spec rest) as (plan & res & Hloop).
    destruct (Hloop _ _ _ _ _ Hs2 Hrun) as (_ & _ & Hadds').
    destruct (adds_keys _ _ _ _ _ Hadds' Hs2) as (m' & Hs' & Hkeep & _).
    exists (length (heap w)), m'. split; [done|].
    assert (Hself : self < length (heap w)) by by eapply lookup_lt_Some.
    split; [|split; [done|]].
    + rewrite (adds_frame _ _ _ _ _ Hadds'); [done| |lia]. by eapply lookup_lt_Some.
    + apply Hkeep. by inversion Hkey.
  - inversion Hbefore as [|? ? [p0 Hp0] Hbefore']; subst.
    destruct (component_step self c0 p0 w m Hs Hp0) as (w2 & Hstep & _ & Hadds & _).
    rewrite (bind_ok _ _ _ _ _ Hstep) in Hrun.
    destruct (adds_manager _ _ _ _ _ Hadds Hs) as [c2 Hs2].
    destruct (IH i w2 _ Hs2 Hbefore' Hi Hrun) as (l & m' & Hl & Hnode & Hs' & Hkey).
    exists l, m'. pose proof (adds_length _ _ _ _ Hadds). split; [lia|done].
Qed.

Lemma component_step_length self c w w2 :
  (let* profile := remote (get_component_profile c) in
   let* leaf := Component__init__ (instance_name profile +:+ ".rtc") (Some self) c in
   _add_child self leaf) w = (Ok tt, w2) ->
  length (heap w2) = S (length (heap w)).
Proof.
  unfold remote at 1. rewrite bind_run.
  destruct (get_component_profile c) as [p|e]; [|done].
  unfold Component__init__. rewrite bind_run, alloc_run.
  unfold _add_child, name, get_node, put_node. rewrite !bind_run. cbn [heap stderr].
  rewrite lookup_alloc_new. cbn [ret].
  rewrite bind_run. cbn [heap stderr].
  destruct ((heap w ++ [_]) !! self); [|done].
  intros [= <-]. cbn. rewrite length_insert, length_app. cbn. lia.
Qed.

(** Every object that the loop over the component listing makes is a
    component node named by the [instance_name] of a listed component,
    followed by [.rtc]. *)
Lemma component_loop_nodes (comps : list RTObject) :
  forall self w m r w' l n,
    heap w !! self = Some (NManager m) ->
    component_loop self comps w = (r, w') ->
    length (heap w) <= l ->
    heap w' !! l = Some n ->
    exists c p,
      In c comps /\ get_component_profile c = Ok p
      /\ n = NComponent (mkComponent
                (mkTreeNode (instance_name p +:+ ".rtc") (Some self) []) c).
Proof.
  induction comps as [|c0 rest IH]; intros self w m r w' l n Hs Hrun Hl Hn.
  - injection Hrun as <- <-. apply lookup_lt_Some in Hn. lia.
  - destruct (get_component_profile c0) as [p0|e] eqn:Hp0.
    + destruct (component_step self c0 p0 w m Hs Hp0) as (w2 & Hstep & _ & Hadds & Hnode).
      pose proof (component_step_length _ _ _ _ Hstep) as Hlen2.
      rewrite component_loop_cons, (bind_ok _ _ _ _ _ Hstep) in Hrun.
      destruct (adds_manager _ _ _ _ _ Hadds Hs) as [c2 Hs2].
      destruct (decide (l = length (heap w))) as [->|Hne].
      * destruct (component_loop_spec rest) as (plan & res & Hloop).
        destruct (Hloop _ _ _ _ _ Hs2 Hrun) as (_ & _ & Hadds').
        assert (Hself : self < length (heap w)) by by eapply lookup_lt_Some.
        rewrite (adds_frame _ _ _ _ _ Hadds'), Hnode in Hn; [|lia..].
        injection Hn as <-. exists c0, p0. split; [by left|done].
      * destruct (IH self w2 _ r w' l n Hs2 Hrun) as (c & p & Hin & Hp & ->);
          [lia|done|].
        exists c, p. split; [by right|done].
    + rewrite component_loop_cons in Hrun.
      unfold remote in Hrun. rewrite !bind_run, Hp0 in Hrun.
      injection Hrun as <- <-. apply lookup_lt_Some in Hn. lia.
Qed.

(** C10. Whatever the outcome of the parse of the component listing: every
    object it makes is a component node named by the [instance_name] of a
    listed component followed by [.rtc], with the manager as parent and the
    remote component as handle; and a component of the listing whose
    profile is read, and before which every profile is read, has such a
    node, and the manager has a child under that name. *)
Theorem component_child_named_by_instance_name
    (obj : RTMManager) (self : loc) (w : World) (m : Manager)
    (comps : list RTObject) (r : result unit) (w' : World) :
  heap w !! self = Some (NManager m) ->
  get_components obj = Ok comps ->
  _parse_component_children obj self w = (r, w') ->
  (forall l n,
     length (heap w) <= l ->
     heap w' !! l = Some n ->
     exists c p,
       In c comps /\ get_component_profile c = Ok p
       /\ n = NComponent (mkComponent
                 (mkTreeNode (instance_name p +:+ ".rtc") (Some self) []) c))
  /\ (forall i c p,
        Forall (fun c' => exists p', get_component_profile c' = Ok p') (take i comps) ->
        comps !! i = Some c ->
        get_component_profile c = Ok p ->
        exists l m',
          length (heap w) <= l
          /\ heap w' !! l =
             Some (NComponent (mkComponent
                     (mkTreeNode (instance_name p +:+ ".rtc") (Some self) []) c))
          /\ heap w' !! self = Some (NManager m')
          /\ dict_mem (instance_name p +:+ ".rtc") (_children (manager_node m')) = true).
Proof.
  intros Hs Hcomps Hrun. split.
  - intros l n Hl Hn. unfold _parse_component_children in Hrun. rewrite Hcomps in Hrun.
    by apply (component_loop_nodes comps self w m r w' l n).
  - intros i c p Hbefore Hi Hp.
    by apply (component_child_exists obj self w m comps i c p r w').
Qed.

Lemma slave_loop_names (mgrs : list RTMManager) :
  forall index self w m w' i s,
    heap w !! self = Some (NManager m) ->
    slave_loop TRANSIENT_ConnectFailed (Manager_new TRANSIENT_ConnectFailed)
      self mgrs index w = (Ok tt, w') ->
    mgrs !! i = Some s ->
    unnamed s = true ->
    exists l ms m',
      length (heap w) <= l
      /\ heap w' !! l = Some (NManager ms)
      /\ _name (manager_node ms) =
         "slave" +:+ PyStr.str_of_nat (index + unnamed_before i mgrs)
      /\ _parent (manager_node ms) = Some self
      /\ _obj ms = s
      /\ heap w' !! self = Some (NManager m')
      /\ dict_mem ("slave" +:+ PyStr.str_of_nat (index + unnamed_before i mgrs))
           (_children (manager_node m')) = true.
Proof.
  induction mgrs as [|m0 rest IH]; intros index self w m w' i s Hs Hrun Hi Hun; [done|].
  rewrite slave_loop_cons in Hrun.
  assert (Hself : self < length (heap w)) by by eapply lookup_lt_Some.
  destruct (get_profile m0) as [p|e] eqn:Hp.
  - cbv zeta in Hrun.
    set (named := match dict_get "name" (nvlist_to_dict (properties p)) with
                  | Some n => (n, index)
                  | None => ("slave" +:+ PyStr.str_of_nat index, S index)
                  end) in Hrun.
    rewrite bind_run in Hrun.
    destruct (Manager_new TRANSIENT_ConnectFailed (fst named) (Some self) m0 w) as [r0 w1] eqn:Hnew.
    destruct (init_all TRANSIENT_ConnectFailed m0 (fst named)) as (res0 & out0 & Hinit).
    destruct (Hinit _ _ _ _ Hnew) as (-> & _).
    destruct res0 as [[]|e]; [|done]. cbn [at_next] in *.
    destruct (slave_step TRANSIENT_ConnectFailed self m0 (fst named) w m w1 Hs
                (init_all _ m0) Hnew)
      as (w2 & ms & Hadd & _ & Hadds & Hnode & Hnm & Hpar & Hobj).
    rewrite (bind_ok _ _ _ _ _ Hadd) in Hrun.
    destruct (adds_keys _ _ _ _ _ Hadds Hs) as (m2 & Hs2 & _ & Hkey).
    destruct i as [|i]; cbn in Hi.
    + injection Hi as ->. unfold unnamed in Hun. rewrite Hp in Hun.
      unfold dict_mem in Hun.
      destruct (dict_get "name" (nvlist_to_dict (properties p))); [done|].
      cbn [named fst snd] in *.
      destruct (slave_loop_spec TRANSIENT_ConnectFailed rest) with
        (nm := _name (manager_node m2)) (index := S index) as (plan & res & out & Hloop).
      { apply Forall_forall. intros ? _. apply init_all. }
      destruct (Hloop _ _ _ _ _ Hs2 eq_refl Hrun) as (_ & _ & Hadds').
      destruct (adds_keys _ _ _ _ _ Hadds' Hs2) as (m' & Hs' & Hkeep & _).
      exists (length (heap w)), ms, m'.
      unfold unnamed_before. cbn [take List.filter length]. rewrite Nat.add_0_r.
      split; [done|]. split.
      { rewrite (adds_frame _ _ _ _ _ Hadds'); [done| |lia]. by eapply lookup_lt_Some. }
      repeat (split; [done|]). apply Hkeep. by inversion Hkey.
    + destruct (IH (snd named) self w2 m2 w' i s Hs2 Hrun Hi Hun)
        as (l & ms' & m' & Hl & Hnode' & Hnm' & Hrest).
      assert (Hcount : snd named + unnamed_before i rest =
                       index + unnamed_before (S i) (m0 :: rest)).
      { unfold unnamed_before. cbn [take List.filter]. unfold unnamed at 2.
        rewrite Hp. unfold dict_mem, named.
        destruct (dict_get "name" (nvlist_to_dict (properties p))); cbn; lia. }
      rewrite Hcount in Hnm', Hrest.
      exists l, ms', m'. pose proof (adds_length _ _ _ _ Hadds).
      split; [lia|]. done.
  - assert (Hun0 : unnamed m0 = false) by (unfold unnamed; by rewrite Hp).
    assert (Hskip : exists w1,
              heap w1 = heap w /\
              slave_loop TRANSIENT_ConnectFailed (Manager_new TRANSIENT_ConnectFailed)
                self rest index w1 = (Ok tt, w')).
    { destruct e as [[] minor| | | | | | |]; try done.
      destruct (minor =? TRANSIENT_ConnectFailed)%Z; [|done].
      rewrite (bind_ok _ _ _ _ _ (name_run _ _ _ Hs)), bind_run in Hrun.
      cbn [print_stderr] in Hrun. eexists. split; [|exact Hrun]. done. }
    destruct Hskip as (w1 & Hheap & Hrun').
    destruct i as [|i]; cbn in Hi; [injection Hi as ->; congruence|].
    rewrite <- Hheap in Hs.
    destruct (IH index self w1 m w' i s Hs Hrun' Hi Hun) as (l & ms' & m' & Hrest).
    assert (Hcount : unnamed_before (S i) (m0 :: rest) = unnamed_before i rest).
    { unfold unnamed_before. cbn [take List.filter]. by rewrite Hun0. }
    rewrite Hcount, <- Hheap. eauto.
Qed.

(** C4. When the parse of the slave managers returns, an entry of the
    listing whose profile has no [name] key is in the tree as a new manager
    node named [slave<N>], [N] the number of such entries before it in the
    listing; the node has the manager as parent and the entry as handle,
    and the manager has a child under that name. *)
Theorem unnamed_slave_named_by_counter
    (obj : RTMManager) (self : loc) (w : World) (m : Manager)
    (mgrs : list RTMManager) (i : nat) (s : RTMManager) (w' : World) :
  heap w !! self = Some (NManager m) ->
  get_slave_managers obj = Ok mgrs ->
  _parse_manager_children TRANSIENT_ConnectFailed obj self w = (Ok tt, w') ->
  mgrs !! i = Some s ->
  unnamed s = true ->
  exists l ms m',
    length (heap w) <= l
    /\ heap w' !! l = Some (NManager ms)
    /\ _name (manager_node ms) = "slave" +:+ PyStr.str_of_nat (unnamed_before i mgrs)
    /\ _parent (manager_node ms) = Some self
    /\ _obj ms = s
    /\ heap w' !! self = Some (NManager m')
    /\ dict_mem ("slave" +:+ PyStr.str_of_nat (unnamed_before i mgrs))
         (_children (manager_node m')) = true.
Proof.
  intros Hs Hmgrs Hrun Hi Hun.
  unfold _parse_manager_children, parse_manager_children in Hrun.
  rewrite Hmgrs in Hrun.
  apply (slave_loop_names mgrs 0 self w m w' i s Hs Hrun Hi Hun).
Qed.


End ChildNames.

Section Witnesses.
Import Examples.

(** Settles a closed equation between values of the model by evaluation. *)
Ltac evaluate := vm_compute; reflexivity.

Example tree_is_built :
  tree = snd (Manager__init__ connect_failed master "manager.mgr" (Some 0) name_server_only)
  /\ tree1 = snd (reparse connect_failed 1 tree)
  /\ tree2 = snd (reparse connect_failed 1 tree1).
Proof. repeat split; evaluate. Qed.

(** The children of the master in the example tree: the two components,
    then the slaves; the unreachable entry left no child and no number. *)
Example tree_children :
  _children (manager_node (manager_at tree 1)) =
  [("C10.rtc", 2); ("C20.rtc", 3); ("slave0", 4); ("bob", 5); ("slave1", 6)]
  /\ stderr tree = [ZombieSlaveWarning "manager.mgr"]
  /\ dict_keys (_children (manager_node (manager_at tree2 1))) =
     ["C10.rtc"; "C20.rtc"; "slave0"; "bob"; "slave1"].
Proof. repeat split; evaluate. Qed.

Lemma set_config_parameter_witness :
  (heap MoreExamples.tree_read !! 1 = Some (NManager (manager_at MoreExamples.tree_read 1))
   /\ set_configuration (_obj (manager_at MoreExamples.tree_read 1)) "manager.name" "other" =
      Ok RTC.RTC_OK)
  /\ (_configuration (manager_at MoreExamples.tree_read 1) =
        Some [("manager.name", "manager")]
      /\ _components (manager_at MoreExamples.tree_read 1) = Some [2]
      /\ _loaded_modules (manager_at MoreExamples.tree_read 1) =
         Some [[("file_path", "C10.so")]]
      /\ _children (manager_node (manager_at MoreExamples.tree_read 1)) = [("C10.rtc", 2)])
  /\ exists m' w',
      set_config_parameter 1 "manager.name" "other" MoreExamples.tree_read = (Ok tt, w')
      /\ heap w' = <[1 := NManager m']> (heap MoreExamples.tree_read)
      /\ stderr w' = stderr MoreExamples.tree_read
      /\ _configuration m' = None
      /\ manager_node m' = manager_node (manager_at MoreExamples.tree_read 1)
      /\ _obj m' = _obj (manager_at MoreExamples.tree_read 1)
      /\ _components m' = _components (manager_at MoreExamples.tree_read 1)
      /\ _profile m' = _profile (manager_at MoreExamples.tree_read 1)
      /\ _factory_profiles m' = _factory_profiles (manager_at MoreExamples.tree_read 1)
      /\ _loadable_modules m' = _loadable_modules (manager_at MoreExamples.tree_read 1)
      /\ _loaded_modules m' = _loaded_modules (manager_at MoreExamples.tree_read 1)
      /\ _masters m' = _masters (manager_at MoreExamples.tree_read 1)
      /\ _slaves m' = _slaves (manager_at MoreExamples.tree_read 1)
      /\ fst (configuration 1 w') =
         match get_configuration (_obj (manager_at MoreExamples.tree_read 1)) with
         | Ok nv => Ok (nvlist_to_dict nv)
         | Raise e => Raise e
         end.
Proof.
  assert (H1 : heap MoreExamples.tree_read !! 1 =
               Some (NManager (manager_at MoreExamples.tree_read 1))) by evaluate.
  assert (H2 : set_configuration (_obj (manager_at MoreExamples.tree_read 1))
                 "manager.name" "other" = Ok RTC.RTC_OK) by evaluate.
  split; [by split|]. split; [repeat split; evaluate|].
  exact (set_config_parameter_resets_only_configuration 1 "manager.name" "other"
           MoreExamples.tree_read (manager_at MoreExamples.tree_read 1) H1 H2).
Defined.

(** The call on this example: the cached configuration is gone, the cached
    components and loaded modules and the child are as before. *)
Example set_config_parameter_example :
  snd (set_config_parameter 1 "manager.name" "other" MoreExamples.tree_read) =
  mkWorld
    [ NDirectory (mkTreeNode "localhost" None [("manager.mgr", 1)]);
      NManager (mkManager (mkTreeNode "manager.mgr" (Some 0) [("C10.rtc", 2)]) master
                  (Some [2]) None None None None
                  (Some [[("file_path", "C10.so")]]) None None);
      MoreExamples.c10_node ] []
  /\ snd (set_config_parameter 1 "manager.name" "other" MoreExamples.tree_read) <>
     MoreExamples.tree_read.
Proof.
  split; [evaluate|]. intros H. vm_compute in H. discriminate H.
Qed.


Lemma set_parent_witness :
  (heap tree !! 4 = Some (NManager (manager_at tree 4))
   /\ heap tree !! 5 = Some (NManager (manager_at tree 5))
   /\ (forall old, _parent (manager_node (manager_at tree 4)) = Some old ->
                   is_Some (heap tree !! old)))
  /\ Forall (fun a => a = Ok RTC.RTC_OK) (registration_answers tree 4 5)
  /\ exists w', _set_parent 4 5 tree = (Ok tt, w')
                /\ parent 4 w' = (Ok (Some 5), w').
Proof.
  assert (H1 : heap tree !! 4 = Some (NManager (manager_at tree 4))) by evaluate.
  assert (H2 : heap tree !! 5 = Some (NManager (manager_at tree 5))) by evaluate.
  assert (H3 : forall old, _parent (manager_node (manager_at tree 4)) = Some old ->
                           is_Some (heap tree !! old)).
  { intros old H. vm_compute in H. injection H as <-.
    exists (NManager (manager_at tree 1)). evaluate. }
  assert (H4 : Forall (fun a => a = Ok RTC.RTC_OK) (registration_answers tree 4 5)).
  { apply answers_all. evaluate. }
  split; [by repeat split|]. split; [exact H4|].
  exact (proj1 (proj2 (set_parent_all_or_nothing 4 5 tree _ _ H1 H2 H3)) H4).
Defined.

(** A refused removal: the old master answers [RTC_ERROR] to
    [remove_slave_manager]; the slave keeps its parent. *)
Example set_parent_refused :
  exists e, _set_parent 1 2 tree_of_stubborn = (Raise e, tree_of_stubborn)
            /\ parent 1 tree_of_stubborn = (Ok (Some 0), tree_of_stubborn).
Proof.
  assert (H1 : heap tree_of_stubborn !! 1 = Some (NManager (manager_at tree_of_stubborn 1)))
    by evaluate.
  assert (H2 : heap tree_of_stubborn !! 2 = Some (NManager (manager_at tree_of_stubborn 2)))
    by evaluate.
  assert (H3 : forall old, _parent (manager_node (manager_at tree_of_stubborn 1)) = Some old ->
                           is_Some (heap tree_of_stubborn !! old)).
  { intros old H. vm_compute in H. injection H as <-.
    exists (NManager (manager_at tree_of_stubborn 0)). evaluate. }
  pose proof (set_parent_cases 1 2 tree_of_stubborn _ _ H1 H2 H3) as Hc.
  assert (Hf : forallb succeeded (registration_answers tree_of_stubborn 1 2) = false)
    by evaluate.
  rewrite Hf in Hc. destruct Hc as [e He]. exists e. split; [exact He|evaluate].
Qed.

Lemma reparse_twice_witness :
  (heap tree !! 1 = Some (NManager (manager_at tree 1))
   /\ children_allocated tree (manager_at tree 1)
   /\ reparse connect_failed 1 tree = (Ok tt, tree1)
   /\ reparse connect_failed 1 tree1 = (Ok tt, tree2))
  /\ Ok tt = Ok tt
  /\ exists m1 m2,
      heap tree1 !! 1 = Some (NManager m1)
      /\ heap tree2 !! 1 = Some (NManager m2)
      /\ dict_keys (_children (manager_node m2)) = dict_keys (_children (manager_node m1))
      /\ observe_children tree2 m2 = observe_children tree1 m1
      /\ reset_views m1 = m1
      /\ reset_views m2 = m2
      /\ observe_views 1 tree2 = observe_views 1 tree1
      /\ (forall k l1 l2,
            dict_get k (_children (manager_node m1)) = Some l1 ->
            dict_get k (_children (manager_node m2)) = Some l2 ->
            length (heap tree) <= l1 ->
            l1 < l2).
Proof.
  assert (H1 : heap tree !! 1 = Some (NManager (manager_at tree 1))) by evaluate.
  assert (H2 : children_allocated tree (manager_at tree 1)).
  { unfold children_allocated. vm_compute. repeat constructor. }
  assert (H3 : reparse connect_failed 1 tree = (Ok tt, tree1)) by evaluate.
  assert (H4 : reparse connect_failed 1 tree1 = (Ok tt, tree2)) by evaluate.
  split; [by repeat split|].
  exact (reparse_twice_same_observable_state connect_failed 1 tree (manager_at tree 1)
           (Ok tt) (Ok tt) tree1 tree2 H1 H2 H3 H4).
Defined.

Lemma unnamed_slave_witness :
  (heap unparsed !! 1 = Some (NManager (manager_at unparsed 1))
   /\ get_slave_managers master = Ok master_slaves
   /\ _parse_manager_children connect_failed master 1 unparsed =
      (Ok tt, snd (_parse_manager_children connect_failed master 1 unparsed))
   /\ master_slaves !! 3 = Some (unnamed_slave 5)
   /\ unnamed (unnamed_slave 5) = true
   /\ "slave" +:+ PyStr.str_of_nat (unnamed_before 3 master_slaves) = "slave1")
  /\ exists l ms m',
      length (heap unparsed) <= l
      /\ heap (snd (_parse_manager_children connect_failed master 1 unparsed)) !! l =
         Some (NManager ms)
      /\ _name (manager_node ms) =
         "slave" +:+ PyStr.str_of_nat (unnamed_before 3 master_slaves)
      /\ _parent (manager_node ms) = Some 1
      /\ _obj ms = unnamed_slave 5
      /\ heap (snd (_parse_manager_children connect_failed master 1 unparsed)) !! 1 =
         Some (NManager m')
      /\ dict_mem ("slave" +:+ PyStr.str_of_nat (unnamed_before 3 master_slaves))
           (_children (manager_node m')) = true.
Proof.
  assert (H1 : heap unparsed !! 1 = Some (NManager (manager_at unparsed 1))) by evaluate.
  assert (H2 : get_slave_managers master = Ok master_slaves) by evaluate.
  assert (H3 : _parse_manager_children connect_failed master 1 unparsed =
               (Ok tt, snd (_parse_manager_children connect_failed master 1 unparsed)))
    by evaluate.
  assert (H4 : master_slaves !! 3 = Some (unnamed_slave 5)) by evaluate.
  assert (H5 : unnamed (unnamed_slave 5) = true) by evaluate.
  split; [repeat split; try done; evaluate|].
  exact (unnamed_slave_named_by_counter connect_failed master 1 unparsed
           (manager_at unparsed 1) master_slaves 3 (unnamed_slave 5) _ H1 H2 H3 H4 H5).
Defined.



Lemma slaves_and_masters_witness :
  (heap tree !! 1 = Some (NManager (manager_at tree 1))
   /\ _parse connect_failed master 1 tree = (Ok tt, tree1))
  /\ is_master master = Ok true
  /\ fst (slaves 1 tree1) = Ok [9; 10; 11]
  /\ exists m1 ls,
      heap tree1 !! 1 = Some (NManager m1)
      /\ _masters m1 = None
      /\ masters 1 tree1 = (Raise NotImplementedError, tree1)
      /\ (forall links, fst (masters 1 tree1) <> Ok links)
      /\ slaves 1 tree1 = (Ok ls, stored 1 (with_slaves (Some ls) m1) tree1)
      /\ ls = List.filter
                (fun c => match heap tree1 !! c with Some (NManager _) => true | _ => false end)
                (dict_values (_children (manager_node m1)))
      /\ (forall c, In c ls <->
            In c (dict_values (_children (manager_node m1)))
            /\ exists mc, heap tree1 !! c = Some (NManager mc)).
Proof.
  assert (H1 : heap tree !! 1 = Some (NManager (manager_at tree 1))) by evaluate.
  assert (H2 : _parse connect_failed master 1 tree = (Ok tt, tree1)) by evaluate.
  split; [by split|]. split; [reflexivity|]. split; [evaluate|].
  exact (slaves_and_masters_after_parse connect_failed master 1 tree (manager_at tree 1)
           (Ok tt) tree1 H1 H2).
Defined.

(** The master of the example tree as its constructor leaves it: reading
    [masters] raises. *)
Example masters_raises_for_master :
  Manager__init__ connect_failed master "manager.mgr" (Some 0) name_server_only =
    (Ok 1, tree)
  /\ is_master master = Ok true
  /\ masters 1 tree = (Raise NotImplementedError, tree).
Proof. repeat split; evaluate. Qed.

Lemma parse_component_children_bad_param_witness :
  (heap tree_bad_param !! 0 = Some (NManager (manager_at tree_bad_param 0))
   /\ get_components (_obj (manager_at tree_bad_param 0)) =
      Raise (CORBA_SystemException CORBA.BAD_PARAM 0))
  /\ _parse_component_children (_obj (manager_at tree_bad_param 0)) 0 tree_bad_param =
     (Ok tt, mkWorld (heap tree_bad_param)
               (stderr tree_bad_param ++
                [BadParamMessage (CORBA_SystemException CORBA.BAD_PARAM 0)]))
  /\ reparse connect_failed 0 tree_bad_param =
     _parse_manager_children connect_failed (_obj (manager_at tree_bad_param 0)) 0
       (mkWorld (heap (after_reset 0 (manager_at tree_bad_param 0) tree_bad_param))
          (stderr tree_bad_param ++
           [BadParamMessage (CORBA_SystemException CORBA.BAD_PARAM 0)])).
Proof.
  assert (H1 : heap tree_bad_param !! 0 = Some (NManager (manager_at tree_bad_param 0)))
    by evaluate.
  assert (H2 : get_components (_obj (manager_at tree_bad_param 0)) =
               Raise (CORBA_SystemException CORBA.BAD_PARAM 0)) by evaluate.
  split; [by split|].
  exact (parse_component_children_bad_param connect_failed 0 tree_bad_param
           (manager_at tree_bad_param 0) 0 H1 H2).
Defined.

(** The reparse of that manager returns, with the fault printed and no
    child. *)
Example reparse_bad_param :
  reparse connect_failed 0 tree_bad_param =
  (Ok tt,
   mkWorld [bare_manager "manager.mgr" None master_bad_param]
     [BadParamMessage (CORBA_SystemException CORBA.BAD_PARAM 0)]).
Proof. evaluate. Qed.

Lemma parse_manager_children_bad_operation_witness :
  (heap tree_no_slaves !! 0 = Some (NManager (manager_at tree_no_slaves 0))
   /\ get_slave_managers (_obj (manager_at tree_no_slaves 0)) =
      Raise (CORBA_SystemException CORBA.BAD_OPERATION 0))
  /\ _parse_manager_children connect_failed (_obj (manager_at tree_no_slaves 0)) 0
       tree_no_slaves = (Ok tt, tree_no_slaves)
  /\ reparse connect_failed 0 tree_no_slaves =
     _parse_component_children (_obj (manager_at tree_no_slaves 0)) 0
       (after_reset 0 (manager_at tree_no_slaves 0) tree_no_slaves).
Proof.
  assert (H1 : heap tree_no_slaves !! 0 = Some (NManager (manager_at tree_no_slaves 0)))
    by evaluate.
  assert (H2 : get_slave_managers (_obj (manager_at tree_no_slaves 0)) =
               Raise (CORBA_SystemException CORBA.BAD_OPERATION 0)) by evaluate.
  split; [by split|].
  exact (parse_manager_children_bad_operation connect_failed 0 tree_no_slaves
           (manager_at tree_no_slaves 0) 0 H1 H2).
Defined.

(** The reparse of that manager returns and changes nothing. *)
Example reparse_no_slaves :
  reparse connect_failed 0 tree_no_slaves = (Ok tt, tree_no_slaves).
Proof. evaluate. Qed.

Lemma component_child_witness :
  (heap unparsed !! 1 = Some (NManager (manager_at unparsed 1))
   /\ get_components master = Ok master_components
   /\ Forall (fun c' => exists p', get_component_profile c' = Ok p')
        (take 0 master_components)
   /\ master_components !! 0 = Some (remote_component 10 "C10")
   /\ get_component_profile (remote_component 10 "C10") = Ok {| instance_name := "C10" |}
   /\ "C10" +:+ ".rtc" = "C10.rtc")
  /\ exists l m',
      length (heap unparsed) <= l
      /\ heap (snd (_parse_component_children master 1 unparsed)) !! l =
         Some (NComponent (mkComponent
                 (mkTreeNode ("C10" +:+ ".rtc") (Some 1) []) (remote_component 10 "C10")))
      /\ heap (snd (_parse_component_children master 1 unparsed)) !! 1 = Some (NManager m')
      /\ dict_mem ("C10" +:+ ".rtc") (_children (manager_node m')) = true.
Proof.
  assert (H1 : heap unparsed !! 1 = Some (NManager (manager_at unparsed 1))) by evaluate.
  assert (H2 : get_components master = Ok master_components) by evaluate.
  assert (H3 : Forall (fun c' => exists p', get_component_profile c' = Ok p')
                 (take 0 master_components)) by constructor.
  assert (H4 : master_components !! 0 = Some (remote_component 10 "C10")) by evaluate.
  assert (H5 : get_component_profile (remote_component 10 "C10") =
               Ok {| instance_name := "C10" |}) by evaluate.
  assert (H6 : _parse_component_children master 1 unparsed =
               (fst (_parse_component_children master 1 unparsed),
                snd (_parse_component_children master 1 unparsed))) by evaluate.
  split; [repeat split; try done; evaluate|].
  exact (proj2 (component_child_named_by_instance_name master 1 unparsed
                  (manager_at unparsed 1) master_components _ _ H1 H2 H6)
           0 (remote_component 10 "C10") {| instance_name := "C10" |} H3 H4 H5).
Defined.

End Witnesses.

(** * Further properties of the two modules *)

(** ** Name-server addresses *)

Section Addresses.
Import PyStr NameServer NameServerFacts.

(** Case analysis on a test [Ascii.eqb a b] that a hypothesis says passed. *)
Ltac passed H :=
  match type of H with
  | (if Ascii.eqb ?a ?b then _ else _) = true =>
      let E := fresh "E" in
      destruct (Ascii.eqb a b) eqn:E; [apply Ascii.eqb_eq in E; subst b|discriminate H]
  end.

(** No address starts with two of the protocol tokens. *)
Lemma protocol_keys_exclusive address kv1 kv2 :
  In kv1 protocols_m_str -> In kv2 protocols_m_str ->
  startswith address (fst kv1) = true -> startswith address (fst kv2) = true ->
  kv1 = kv2.
Proof.
  intros H1 H2.
  cbv [protocols_m_str In] in H1, H2.
  repeat destruct H1 as [<-|H1]; try done;
    repeat destruct H2 as [<-|H2]; try done; cbn [fst]; try reflexivity;
    intros Ha Hb; exfalso;
    destruct address as [|c1 [|c2 address]]; cbn [startswith] in Ha, Hb;
    try discriminate;
    passed Ha; cbn in Hb; try discriminate;
    passed Ha; cbn in Hb; discriminate.
Qed.

Lemma parse_m_str_none items address :
  Forall (fun kv => startswith address (fst kv) = false) items ->
  parse_m_str items address = None.
Proof.
  induction 1 as [|[k v] items Hk _ IH]; [reflexivity|].
  cbn [parse_m_str]. rewrite find_zero. cbn [fst] in Hk. by rewrite Hk.
Qed.

Lemma parse_m_str_hit items address kv :
  In kv items ->
  startswith address (fst kv) = true ->
  (forall kv', In kv' items -> startswith address (fst kv') = true -> kv' = kv) ->
  parse_m_str items address = Some (replace address (fst kv) (snd kv) +:+ "/NameService").
Proof.
  induction items as [|[k v] items IH]; intros Hin Hhit Honly; [done|].
  cbn [parse_m_str]. rewrite find_zero.
  destruct (startswith address k) eqn:Hk.
  - rewrite <- (Honly (k, v)); [reflexivity|by left|exact Hk].
  - destruct Hin as [<-|Hin]; [cbn [fst] in Hhit; congruence|].
    apply IH; [exact Hin|exact Hhit|].
    intros kv' Hin'. apply Honly. by right.
Qed.

(** X1. [_parse_address] walks [protocols_m_str.items()] and returns at the
    first token the address starts with. The outcome of that loop does not
    depend on the order in which the dictionary yields its items: for every
    ordering of the five entries the loop returns what it returns for the
    order in which the source writes them. *)
Theorem parse_address_any_dictionary_order items address :
  Permutation items protocols_m_str ->
  parse_m_str items address = parse_m_str protocols_m_str address.
Proof.
  intros Hperm.
  destruct (existsb (fun kv => startswith address (fst kv)) protocols_m_str) eqn:Hex.
  - apply existsb_exists in Hex as (kv & Hin & Hhit).
    rewrite (parse_m_str_hit protocols_m_str address kv Hin Hhit).
    + apply parse_m_str_hit; [|exact Hhit|].
      * by apply (Permutation_in _ (Permutation_sym Hperm)).
      * intros kv' Hin' Hhit'.
        apply (protocol_keys_exclusive address); try done.
        by apply (Permutation_in _ Hperm).
    + intros kv' Hin' Hhit'. by apply (protocol_keys_exclusive address).
  - assert (Hnone : Forall (fun kv => startswith address (fst kv) = false) protocols_m_str).
    { apply List.Forall_forall. intros kv Hin.
      destruct (startswith address (fst kv)) eqn:Hhit; [|reflexivity].
      assert (existsb (fun kv => startswith address (fst kv)) protocols_m_str = true)
        by (apply existsb_exists; exists kv; split; [exact Hin|exact Hhit]).
      congruence. }
    rewrite (parse_m_str_none _ _ Hnone).
    apply parse_m_str_none.
    apply List.Forall_forall. intros kv Hin.
    apply (proj1 (List.Forall_forall _ _) Hnone).
    by apply (Permutation_in _ Hperm).
Qed.

Lemma parse_address_any_dictionary_order_witness :
  Permutation (rev protocols_m_str) protocols_m_str
  /\ parse_m_str (rev protocols_m_str) "shmiop:host" = Some "corbaloc:shmiop:host/NameService"
  /\ parse_m_str (rev protocols_m_str) "shmiop:host" =
     parse_m_str protocols_m_str "shmiop:host".
Proof.
  assert (H : Permutation (rev protocols_m_str) protocols_m_str)
    by (apply Permutation_sym, Permutation_rev).
  split; [exact H|].
  split; [reflexivity|].
  exact (parse_address_any_dictionary_order (rev protocols_m_str) "shmiop:host" H).
Defined.

(** A token at the front is replaced, and the replacement goes on behind it. *)
Lemma replace_front a k t new :
  replace (String a k +:+ t) (String a k) new = new +:+ replace t (String a k) new.
Proof.
  unfold replace. rewrite app_cons. cbn [replace_from].
  rewrite <- app_cons, startswith_app.
  replace (String.length (String a k) - 1) with (String.length k) by (cbn; lia).
  by rewrite replace_from_skip.
Qed.

(** X2. For an address that starts with one of the five protocol tokens,
    [_parse_address] returns [corbaloc:], the token, the rest of the address
    in which every further occurrence of the token is replaced by
    [corbaloc:] and the token, and [/NameService]. *)
Theorem parse_address_protocol_closed_form k v t :
  In (k, v) protocols_m_str ->
  _parse_address (k +:+ t) =
  "corbaloc:" +:+ k +:+ replace t k ("corbaloc:" +:+ k) +:+ "/NameService".
Proof.
  intros Hin.
  cbv [protocols_m_str In] in Hin.
  repeat destruct Hin as [[= <- <-]|Hin]; try done;
    cbv [_parse_address parse_m_str protocols_m_str];
    rewrite !find_zero; settle_prefix_tests;
    by rewrite replace_front.
Qed.

Lemma parse_address_protocol_closed_form_witness :
  In ("diop:", "corbaloc:diop:") protocols_m_str
  /\ "corbaloc:" +:+ "diop:" +:+ replace "host.diop:9" "diop:" ("corbaloc:" +:+ "diop:")
       +:+ "/NameService" = "corbaloc:diop:host.corbaloc:diop:9/NameService"
  /\ _parse_address ("diop:" +:+ "host.diop:9") =
     "corbaloc:" +:+ "diop:" +:+ replace "host.diop:9" "diop:" ("corbaloc:" +:+ "diop:")
       +:+ "/NameService".
Proof.
  assert (H : In ("diop:", "corbaloc:diop:") protocols_m_str) by (cbv; tauto).
  split; [exact H|].
  split; [reflexivity|].
  exact (parse_address_protocol_closed_form "diop:" "corbaloc:diop:" "host.diop:9" H).
Defined.

Lemma parse_v_str_run protocols address :
  parse_v_str protocols address =
  if existsb (startswith address) protocols then Some (address +:+ "#NameService") else None.
Proof.
  induction protocols as [|p protocols IH]; [reflexivity|].
  cbn [parse_v_str existsb]. rewrite find_zero.
  by destruct (startswith address p).
Qed.

(** X3. For an address that starts with none of the five protocol tokens,
    [_parse_address] appends [#NameService] to the address as it is when the
    address starts with one of the four web schemes, and otherwise puts the
    address between [corbaloc::] and [/NameService]. *)
Theorem parse_address_without_protocol address :
  Forall (fun kv => startswith address (fst kv) = false) protocols_m_str ->
  _parse_address address =
  if existsb (startswith address) protocols_v_str
  then address +:+ "#NameService"
  else "corbaloc::" +:+ address +:+ "/NameService".
Proof.
  intros Hnone. unfold _parse_address.
  rewrite (parse_m_str_none _ _ Hnone), parse_v_str_run.
  by destruct (existsb (startswith address) protocols_v_str).
Qed.

Lemma parse_address_without_protocol_witness :
  Forall (fun kv => startswith "https://host:8080/ws" (fst kv) = false) protocols_m_str
  /\ _parse_address "https://host:8080/ws" =
     (if existsb (startswith "https://host:8080/ws") protocols_v_str
      then "https://host:8080/ws" +:+ "#NameService"
      else "corbaloc::" +:+ "https://host:8080/ws" +:+ "/NameService")
  /\ existsb (startswith "https://host:8080/ws") protocols_v_str = true.
Proof.
  assert (H : Forall (fun kv => startswith "https://host:8080/ws" (fst kv) = false)
                protocols_m_str) by (repeat constructor).
  split; [exact H|].
  split; [|reflexivity].
  exact (parse_address_without_protocol "https://host:8080/ws" H).
Defined.

End Addresses.

(** ** Connecting to a name server *)

Section Connecting.

Variable TRANSIENT_ConnectFailed : Z.

(** Takes the hypotheses about an outcome apart. *)
Ltac settle_outcome :=
  repeat match goal with
    | H : _ /\ _ |- _ => destruct H
    | H : _ \/ _ |- _ => destruct H
    | H : exists _, _ |- _ => destruct H
    end;
  simplify_eq.

(** X4. [_connect_to_naming_service] stores the locator that
    [_parse_address] makes of the address in [_full_address] before it does
    anything else, and keeps the resolved object in [_ns_obj] once the ORB
    resolved the locator. It returns a root context exactly when the locator
    resolves and narrows to a context that is not nil. [InvalidName] from
    the ORB and a refused connection on narrowing both become
    [InvalidServiceError], a nil context becomes
    [FailedToNarrowRootNamingError]; both carry the address as the caller
    gave it, not the locator. Every other fault is raised as it is. *)
Theorem connect_to_naming_service_outcomes (self : NameServerAttrs) (address : string) :
  _full_address (snd (_connect_to_naming_service TRANSIENT_ConnectFailed self address)) =
    Some (NameServer._parse_address address)
  /\ _orb (snd (_connect_to_naming_service TRANSIENT_ConnectFailed self address)) = _orb self
  /\ _address (snd (_connect_to_naming_service TRANSIENT_ConnectFailed self address)) =
     _address self
  /\ _ns_obj (snd (_connect_to_naming_service TRANSIENT_ConnectFailed self address)) =
     match string_to_object (_orb self) (NameServer._parse_address address) with
     | Resolved ns_obj => Some ns_obj
     | _ => _ns_obj self
     end
  /\ (forall root_context,
        fst (_connect_to_naming_service TRANSIENT_ConnectFailed self address) =
          Done root_context <->
        exists ns_obj,
          string_to_object (_orb self) (NameServer._parse_address address) = Resolved ns_obj
          /\ _narrow ns_obj = Ok (Some root_context))
  /\ (forall a,
        fst (_connect_to_naming_service TRANSIENT_ConnectFailed self address) =
          Raised (InvalidServiceError a) <->
        a = address
        /\ (string_to_object (_orb self) (NameServer._parse_address address) =
              CORBA_ORB_InvalidName
            \/ exists ns_obj,
                 string_to_object (_orb self) (NameServer._parse_address address) =
                   Resolved ns_obj
                 /\ _narrow ns_obj =
                    Raise (CORBA_SystemException CORBA.TRANSIENT TRANSIENT_ConnectFailed)))
  /\ (forall a,
        fst (_connect_to_naming_service TRANSIENT_ConnectFailed self address) =
          Raised (FailedToNarrowRootNamingError a) <->
        a = address
        /\ exists ns_obj,
             string_to_object (_orb self) (NameServer._parse_address address) =
               Resolved ns_obj
             /\ _narrow ns_obj = Ok None)
  /\ (forall e,
        fst (_connect_to_naming_service TRANSIENT_ConnectFailed self address) =
          Raised (Exn e) <->
        string_to_object (_orb self) (NameServer._parse_address address) = ORBFault e
        \/ exists ns_obj,
             string_to_object (_orb self) (NameServer._parse_address address) =
               Resolved ns_obj
             /\ _narrow ns_obj = Raise e
             /\ e <> CORBA_SystemException CORBA.TRANSIENT TRANSIENT_ConnectFailed).
Proof.
  unfold _connect_to_naming_service. cbn [_orb _address _full_address _ns_obj].
  destruct (string_to_object (_orb self) (NameServer._parse_address address))
    as [ns_obj| |e0]; cbn [fst snd _orb _address _full_address _ns_obj].
  2,3: by repeat split; intros; try done; settle_outcome; eauto.
  destruct (_narrow ns_obj) as [[root_context|]|[[] minor| | | | | | |]] eqn:Hnarrow;
    try destruct (Z.eqb_spec minor TRANSIENT_ConnectFailed) as [->|Hminor];
    cbn [fst snd _orb _address _full_address _ns_obj];
    repeat split; intros; try done; settle_outcome;
    eauto 8 using eq_refl; try congruence;
    try (right; exists ns_obj; repeat split; congruence).
Qed.

End Connecting.

(** ** Module and component management *)

Section Management.

Variable operations : RTMManager -> RTM.Operations.
Variable UNKNOWN_UserException : Z.

Lemma bind'_run {A B} (c : M' A) (k : A -> M' B) w :
  bind' c k w =
  match c w with
  | (Done a, w') => k a w'
  | (Raised e, w') => (Raised e, w')
  end.
Proof. reflexivity. Qed.

Lemma lift_run {A} (c : M A) w :
  lift c w =
  match c w with
  | (Ok a, w') => (Done a, w')
  | (Raise e, w') => (Raised (Exn e), w')
  end.
Proof. reflexivity. Qed.

Lemma lift_get_manager self w m (B : Type) (k : Manager -> M' B) :
  heap w !! self = Some (NManager m) ->
  bind' (lift (get_manager self)) k w = k m w.
Proof. intros Hs. by rewrite bind'_run, lift_run, (get_manager_run _ _ _ Hs). Qed.

(** What adding children leaves as it was. *)
Lemma adds_summary self plan w w' m :
  adds self plan w w' ->
  heap w !! self = Some (NManager m) ->
  length (heap w) <= length (heap w')
  /\ (forall l, l < length (heap w) -> l <> self -> heap w' !! l = heap w !! l)
  /\ exists c, heap w' !! self = Some (NManager (with_children c m))
       /\ forall k, dict_mem k (_children (manager_node m)) = true -> dict_mem k c = true.
Proof.
  intros (Hlen & Hframe & m0 & kvs & Hs & Hs' & _) Hm.
  rewrite Hs in Hm. injection Hm as ->.
  split; [done|]. split; [done|].
  eexists. split; [exact Hs'|].
  intros k Hk. by apply dict_mem_update.
Qed.

Lemma parse_component_children_keeps obj self w m r w' :
  heap w !! self = Some (NManager m) ->
  _parse_component_children obj self w = (r, w') ->
  length (heap w) <= length (heap w')
  /\ (forall l, l < length (heap w) -> l <> self -> heap w' !! l = heap w !! l)
  /\ exists c, heap w' !! self = Some (NManager (with_children c m))
       /\ forall k, dict_mem k (_children (manager_node m)) = true -> dict_mem k c = true.
Proof.
  intros Hs Hrun.
  destruct (parse_component_children_spec obj) as (plan & res & out & H).
  destruct (H self w m r w' Hs Hrun) as (_ & _ & Hadds).
  by apply (adds_summary self plan).
Qed.

Lemma keeps_refl self w m :
  heap w !! self = Some (NManager m) ->
  length (heap w) <= length (heap w)
  /\ (forall l, l < length (heap w) -> l <> self -> heap w !! l = heap w !! l)
  /\ exists c, heap w !! self = Some (NManager (with_children c m))
       /\ forall k, dict_mem k (_children (manager_node m)) = true -> dict_mem k c = true.
Proof.
  intros Hs. split; [done|]. split; [done|].
  exists (_children (manager_node m)). by rewrite with_children_id.
Qed.

(** A cached list of components that is not empty is what [components]
    returns. *)
Lemma components_cached self w m c x xs :
  heap w !! self = Some (NManager (with_children c m)) ->
  _components m = Some (x :: xs) ->
  fst (components self w) = Ok (x :: xs).
Proof.
  intros Hs Hc. rewrite (components_run _ _ _ Hs).
  change (_components (with_children c m)) with (_components m). by rewrite Hc.
Qed.

(** X5. [create_component] raises [FailedToCreateComponentError] with the
    module name when the remote manager answers with nil, and passes a
    fault of the call on; in both cases the store is as it was. When the
    remote manager made the component, the component listing is parsed
    again: that adds children, and nothing else. No child name of before is
    removed, no other object changes, and no cached view of the node is
    cleared: a list of components cached before is still what [components]
    returns afterwards. *)
Theorem create_component_outcomes
    (self : loc) (module_name : string) (w : World) (m : Manager)
    (r : outcome unit) (w' : World) :
  heap w !! self = Some (NManager m) ->
  create_component operations self module_name w = (r, w') ->
  ((forall made,
      RTM.create_component (operations (_obj m)) module_name <> Ok (Some made)) ->
   w' = w
   /\ r = Raised match RTM.create_component (operations (_obj m)) module_name with
                 | Raise e => Exn e
                 | Ok _ => FailedToCreateComponentError module_name
                 end)
  /\ (forall made,
        RTM.create_component (operations (_obj m)) module_name = Ok (Some made) ->
        lift (_parse_component_children (_obj m) self) w = (r, w'))
  /\ length (heap w) <= length (heap w')
  /\ (forall l, l < length (heap w) -> l <> self -> heap w' !! l = heap w !! l)
  /\ exists c,
       heap w' !! self = Some (NManager (with_children c m))
       /\ (forall k, dict_mem k (_children (manager_node m)) = true -> dict_mem k c = true)
       /\ (forall x xs, _components m = Some (x :: xs) ->
                        fst (components self w') = Ok (x :: xs)).
Proof.
  intros Hs Hrun.
  unfold create_component in Hrun.
  rewrite (lift_get_manager _ _ _ _ _ Hs) in Hrun.
  rewrite bind'_run, lift_run in Hrun. unfold remote in Hrun.
  assert (Hkeeps :
    length (heap w) <= length (heap w')
    /\ (forall l, l < length (heap w) -> l <> self -> heap w' !! l = heap w !! l)
    /\ exists c, heap w' !! self = Some (NManager (with_children c m))
         /\ forall k, dict_mem k (_children (manager_node m)) = true -> dict_mem k c = true).
  { destruct (RTM.create_component (operations (_obj m)) module_name) as [[made|]|e].
    - rewrite lift_run in Hrun.
      destruct (_parse_component_children (_obj m) self w) as [r0 w0] eqn:Hparse.
      assert (w0 = w') as -> by (destruct r0; congruence).
      by apply (parse_component_children_keeps (_obj m) self w m r0 w').
    - injection Hrun as <- <-. by apply keeps_refl.
    - injection Hrun as <- <-. by apply keeps_refl. }
  split; [|split].
  - intros Hnone.
    destruct (RTM.create_component (operations (_obj m)) module_name) as [[made|]|e].
    + by destruct (Hnone made).
    + by injection Hrun as <- <-.
    + by injection Hrun as <- <-.
  - intros made Hmade. by rewrite Hmade in Hrun.
  - destruct Hkeeps as (Hlen & Hframe & c & Hs' & Hkeys).
    split; [done|]. split; [done|].
    exists c. split; [done|]. split; [done|].
    intros x xs Hc. by apply (components_cached self w' m c).
Qed.


(** X6. [delete_component] raises [FailedToDeleteComponentError] with the
    instance name when the remote manager answers with a code other than
    [RTC_OK], and passes a fault of the call on; the store is then as it
    was. After [RTC_OK] the component listing is parsed again, which only
    adds children: every child name of before is still a child name, the
    name of the deleted component included, no other object changes and no
    cached view is cleared. When the remote manager lists no component any
    more, nothing changes at all. *)
Theorem delete_component_outcomes
    (self : loc) (instance_name : string) (w : World) (m : Manager)
    (r : outcome unit) (w' : World) :
  heap w !! self = Some (NManager m) ->
  delete_component operations self instance_name w = (r, w') ->
  (RTM.delete_component (operations (_obj m)) instance_name <> Ok RTC.RTC_OK ->
   w' = w
   /\ r = Raised match RTM.delete_component (operations (_obj m)) instance_name with
                 | Raise e => Exn e
                 | Ok _ => FailedToDeleteComponentError instance_name
                 end)
  /\ (RTM.delete_component (operations (_obj m)) instance_name = Ok RTC.RTC_OK ->
      get_components (_obj m) = Ok [] ->
      w' = w /\ r = Done tt)
  /\ length (heap w) <= length (heap w')
  /\ (forall l, l < length (heap w) -> l <> self -> heap w' !! l = heap w !! l)
  /\ exists c,
       heap w' !! self = Some (NManager (with_children c m))
       /\ (forall k, dict_mem k (_children (manager_node m)) = true -> dict_mem k c = true)
       /\ (forall x xs, _components m = Some (x :: xs) ->
                        fst (components self w') = Ok (x :: xs)).
Proof.
  intros Hs Hrun.
  unfold delete_component in Hrun.
  rewrite (lift_get_manager _ _ _ _ _ Hs) in Hrun.
  rewrite bind'_run, lift_run in Hrun. unfold remote in Hrun.
  assert (Hkeeps :
    length (heap w) <= length (heap w')
    /\ (forall l, l < length (heap w) -> l <> self -> heap w' !! l = heap w !! l)
    /\ exists c, heap w' !! self = Some (NManager (with_children c m))
         /\ forall k, dict_mem k (_children (manager_node m)) = true -> dict_mem k c = true).
  { destruct (RTM.delete_component (operations (_obj m)) instance_name) as [[]|e];
      cbn [RTC.ne_RTC_OK] in Hrun;
      try (injection Hrun as <- <-; by apply keeps_refl).
    rewrite lift_run in Hrun.
    destruct (_parse_component_children (_obj m) self w) as [r0 w0] eqn:Hparse.
    assert (w0 = w') as -> by (destruct r0; congruence).
    by apply (parse_component_children_keeps (_obj m) self w m r0 w'). }
  split; [|split].
  - intros Hrefused.
    destruct (RTM.delete_component (operations (_obj m)) instance_name) as [[]|e];
      cbn [RTC.ne_RTC_OK] in Hrun; try done; by injection Hrun as <- <-.
  - intros Hok Hnone. rewrite Hok in Hrun. cbn [RTC.ne_RTC_OK] in Hrun.
    unfold _parse_component_children in Hrun. rewrite lift_run, Hnone in Hrun.
    by injection Hrun as <- <-.
  - destruct Hkeeps as (Hlen & Hframe & c & Hs' & Hkeys).
    split; [done|]. split; [done|].
    exists c. split; [done|]. split; [done|].
    intros x xs Hc. by apply (components_cached self w' m c).
Qed.

(** Takes the hypotheses about an outcome apart. *)
Ltac settle_answer :=
  repeat match goal with
    | H : _ /\ _ |- _ => destruct H
    | H : _ \/ _ |- _ => destruct H
    | H : exists _, _ |- _ => destruct H
    end;
  simplify_eq.

(** X7. [load_module] never changes the store, so a list of loaded modules
    cached before is still what [loaded_modules] returns after a successful
    load. It returns exactly when the remote manager answers [RTC_OK]; it
    raises [FailedToLoadModuleError] with the path when the answer is
    another code, and with the path and the reason [CORBA User Exception]
    when the call raises [CORBA.UNKNOWN] with the minor code
    [UNKNOWN_UserException]; every other fault of the call is raised as it
    is. *)
Theorem load_module_outcomes
    (self : loc) (path init_func : string) (w : World) (m : Manager)
    (r : outcome unit) (w' : World) :
  heap w !! self = Some (NManager m) ->
  load_module operations UNKNOWN_UserException self path init_func w = (r, w') ->
  w' = w
  /\ (r = Done tt <->
      RTM.load_module (operations (_obj m)) path init_func = Ok RTC.RTC_OK)
  /\ (forall p reason,
        r = Raised (FailedToLoadModuleError p reason) <->
        p = path
        /\ ((reason = None
             /\ exists rc, RTM.load_module (operations (_obj m)) path init_func = Ok rc
                           /\ rc <> RTC.RTC_OK)
            \/ (reason = Some "CORBA User Exception"
                /\ RTM.load_module (operations (_obj m)) path init_func =
                   Raise (CORBA_SystemException CORBA.UNKNOWN UNKNOWN_UserException))))
  /\ (forall e,
        r = Raised (Exn e) <->
        RTM.load_module (operations (_obj m)) path init_func = Raise e
        /\ e <> CORBA_SystemException CORBA.UNKNOWN UNKNOWN_UserException)
  /\ (forall x xs, _loaded_modules m = Some (x :: xs) ->
                   fst (loaded_modules self w') = Ok (x :: xs)).
Proof.
  intros Hs Hrun.
  unfold load_module in Hrun.
  rewrite (lift_get_manager _ _ _ _ _ Hs) in Hrun.
  assert (Hw : w' = w).
  { revert Hrun.
    destruct (RTM.load_module (operations (_obj m)) path init_func)
      as [[]|[[] minor| | | | | | |]];
      try destruct (Z.eqb_spec minor UNKNOWN_UserException);
      intros Hrun; by injection Hrun as <- <-. }
  subst w'. split; [done|].
  split; [|split; [|split]].
  4: { intros x xs Hc. rewrite (loaded_modules_run _ _ _ Hs). by rewrite Hc. }
  all: revert Hrun;
       destruct (RTM.load_module (operations (_obj m)) path init_func)
         as [[]|[[] minor| | | | | | |]];
       try destruct (Z.eqb_spec minor UNKNOWN_UserException) as [->|Hminor];
       cbn [RTC.ne_RTC_OK]; intros Hrun; injection Hrun as <-;
       intros; split; intros; settle_answer; try done;
       eauto 8 using eq_refl; try congruence;
       try (split; [done|left; split; [done|eexists; split; [done|discriminate]]]);
       try (split; [done|right; by split]);
       try (split; [done|congruence]).
Qed.

(** X8. [unload_module] never changes the store. It returns exactly when
    the remote manager answers [RTC_OK], raises [FailedToUnloadModuleError]
    with the path exactly when the answer is another code, and raises every
    fault of the call as it is: unlike [load_module] it does not turn
    [CORBA.UNKNOWN] with the minor code [UNKNOWN_UserException] into its
    own error. *)
Theorem unload_module_outcomes
    (self : loc) (path : string) (w : World) (m : Manager)
    (r : outcome unit) (w' : World) :
  heap w !! self = Some (NManager m) ->
  unload_module operations self path w = (r, w') ->
  w' = w
  /\ (r = Done tt <-> RTM.unload_module (operations (_obj m)) path = Ok RTC.RTC_OK)
  /\ (forall p,
        r = Raised (FailedToUnloadModuleError p) <->
        p = path
        /\ exists rc, RTM.unload_module (operations (_obj m)) path = Ok rc
                      /\ rc <> RTC.RTC_OK)
  /\ (forall e,
        r = Raised (Exn e) <-> RTM.unload_module (operations (_obj m)) path = Raise e)
  /\ (forall x xs, _loaded_modules m = Some (x :: xs) ->
                   fst (loaded_modules self w') = Ok (x :: xs)).
Proof.
  intros Hs Hrun.
  unfold unload_module in Hrun.
  rewrite (lift_get_manager _ _ _ _ _ Hs) in Hrun.
  rewrite bind'_run, lift_run in Hrun. unfold remote in Hrun.
  assert (Hw : w' = w).
  { destruct (RTM.unload_module (operations (_obj m)) path) as [[]|e];
      by injection Hrun as <- <-. }
  subst w'. split; [done|].
  split; [|split; [|split]].
  4: { intros x xs Hc. rewrite (loaded_modules_run _ _ _ Hs). by rewrite Hc. }
  all: destruct (RTM.unload_module (operations (_obj m)) path) as [[]|e];
       cbn [RTC.ne_RTC_OK] in Hrun; injection Hrun as <-;
       intros; split; intros; settle_answer; try done;
       try congruence;
       try (split; [done|eexists; split; [done|discriminate]]).
Qed.

End Management.

(** ** Reading the configuration, the profile and the factory profiles *)

Section CachedViews.

(** X9. Reading [configuration] or [profile] returns a cached dictionary
    that is not empty as it is, without a remote call and without any change
    of the store, whatever the remote manager would answer. When nothing is
    cached, or an empty dictionary is, the remote manager is asked: its
    answer is converted, cached and returned, and a fault of the call is
    raised with the cache left as it was. So an empty configuration is
    fetched again at every read. *)
Theorem configuration_and_profile_read (self : loc) (w : World) (m : Manager) :
  heap w !! self = Some (NManager m) ->
  configuration self w =
    match _configuration m with
    | Some (kv :: d) => (Ok (kv :: d), w)
    | _ =>
        match get_configuration (_obj m) with
        | Ok nv =>
            (Ok (nvlist_to_dict nv),
             stored self (with_configuration (Some (nvlist_to_dict nv)) m) w)
        | Raise e => (Raise e, w)
        end
    end
  /\ profile self w =
    match _profile m with
    | Some (kv :: d) => (Ok (kv :: d), w)
    | _ =>
        match get_profile (_obj m) with
        | Ok p =>
            (Ok (nvlist_to_dict (properties p)),
             stored self (with_profile (Some (nvlist_to_dict (properties p))) m) w)
        | Raise e => (Raise e, w)
        end
    end.
Proof.
  intros Hs. split.
  - unfold configuration.
    rewrite (bind_ok _ _ _ _ _ (get_manager_run _ _ _ Hs)).
    assert (Hfetch :
      ((let* nv := remote (get_configuration (_obj m)) in
        assign self (with_configuration (Some (nvlist_to_dict nv)))) ;;
       let* m := get_manager self in ret (default [] (_configuration m))) w =
      match get_configuration (_obj m) with
      | Ok nv =>
          (Ok (nvlist_to_dict nv),
           stored self (with_configuration (Some (nvlist_to_dict nv)) m) w)
      | Raise e => (Raise e, w)
      end).
    { rewrite bind_run. unfold remote at 1. rewrite bind_run.
      destruct (get_configuration (_obj m)) as [nv|e]; [|done].
      rewrite (assign_run _ _ _ _ Hs).
      erewrite bind_ok; [|apply get_manager_run; cbn; by eapply lookup_insert_manager].
      done. }
    destruct (_configuration m) as [[|kv d]|] eqn:Hc; cbn [py_not]; try exact Hfetch.
    rewrite bind_run. cbn [ret].
    rewrite (bind_ok _ _ _ _ _ (get_manager_run _ _ _ Hs)). by rewrite Hc.
  - unfold profile.
    rewrite (bind_ok _ _ _ _ _ (get_manager_run _ _ _ Hs)).
    assert (Hfetch :
      ((let* profile := remote (get_profile (_obj m)) in
        assign self (with_profile (Some (nvlist_to_dict (properties profile))))) ;;
       let* m := get_manager self in ret (default [] (_profile m))) w =
      match get_profile (_obj m) with
      | Ok p =>
          (Ok (nvlist_to_dict (properties p)),
           stored self (with_profile (Some (nvlist_to_dict (properties p))) m) w)
      | Raise e => (Raise e, w)
      end).
    { rewrite bind_run. unfold remote at 1. rewrite bind_run.
      destruct (get_profile (_obj m)) as [p|e]; [|done].
      rewrite (assign_run _ _ _ _ Hs).
      erewrite bind_ok; [|apply get_manager_run; cbn; by eapply lookup_insert_manager].
      done. }
    destruct (_profile m) as [[|kv d]|] eqn:Hc; cbn [py_not]; try exact Hfetch.
    rewrite bind_run. cbn [ret].
    rewrite (bind_ok _ _ _ _ _ (get_manager_run _ _ _ Hs)). by rewrite Hc.
Qed.

(** A list view that is fetched from the remote manager: the outcome of a
    read and the store after it. *)
Lemma list_view_read
    (getf : Manager -> option (list (dict string)))
    (setf : option (list (dict string)) -> Manager -> Manager)
    (Hgs : forall v m, getf (setf v m) = v)
    (Hss : forall v v' m, setf v (setf v' m) = setf v m)
    (Hsg : forall m, setf (getf m) m = m)
    (call : RTMManager -> result (list Profile)) self w m :
  heap w !! self = Some (NManager m) ->
  (let* m := get_manager self in
   (if py_not (getf m)
    then
      assign self (setf (Some [])) ;;
      let* ps := remote (call (_obj m)) in
      for_each ps (fun p =>
        assign self (fun m => setf (append (nvlist_to_dict (properties p)) (getf m)) m))
    else ret tt) ;;
   let* m := get_manager self in
   ret (default [] (getf m))) w =
  match getf m with
  | Some (x :: xs) => (Ok (x :: xs), w)
  | _ =>
      match call (_obj m) with
      | Ok ps => (Ok (dicts_of ps), stored self (setf (Some (dicts_of ps)) m) w)
      | Raise e => (Raise e, stored self (setf (Some []) m) w)
      end
  end.
Proof.
  intros Hs. rewrite (bind_ok _ _ _ _ _ (get_manager_run _ _ _ Hs)).
  assert (Hfetch :
    ((assign self (setf (Some [])) ;;
      let* ps := remote (call (_obj m)) in
      for_each ps (fun p =>
        assign self (fun m => setf (append (nvlist_to_dict (properties p)) (getf m)) m))) ;;
     let* m := get_manager self in ret (default [] (getf m))) w =
    match call (_obj m) with
    | Ok ps => (Ok (dicts_of ps), stored self (setf (Some (dicts_of ps)) m) w)
    | Raise e => (Raise e, stored self (setf (Some []) m) w)
    end).
  { rewrite bind_run, (bind_ok _ _ _ _ _ (assign_run _ _ _ _ Hs)).
    unfold remote at 1. rewrite bind_run.
    destruct (call (_obj m)) as [ps|e]; [|done].
    erewrite (append_loop getf setf Hgs Hss Hsg ps);
      [| by eapply lookup_insert_manager | by rewrite Hgs].
    cbn [heap stderr]. rewrite list_insert_insert_eq.
    erewrite bind_ok; [|apply get_manager_run; cbn; by eapply lookup_insert_manager].
    cbn. by rewrite Hss, Hgs. }
  destruct (getf m) as [[|x xs]|] eqn:Hc; cbn [py_not]; try exact Hfetch.
  rewrite bind_run. cbn [ret].
  rewrite (bind_ok _ _ _ _ _ (get_manager_run _ _ _ Hs)). by rewrite Hc.
Qed.

(** X10. Reading [factory_profiles], [loadable_modules] or
    [loaded_modules] returns a cached list that is not empty as it is.
    Otherwise the cache is first set to the empty list and the remote
    manager is asked: the property dictionaries of its profiles are
    appended in the order of the answer, and the list is returned. A fault
    of the call is raised and leaves the empty list in the cache. *)
Theorem list_views_read (self : loc) (w : World) (m : Manager) :
  heap w !! self = Some (NManager m) ->
  factory_profiles self w =
    match _factory_profiles m with
    | Some (x :: xs) => (Ok (x :: xs), w)
    | _ =>
        match get_factory_profiles (_obj m) with
        | Ok ps =>
            (Ok (dicts_of ps), stored self (with_factory_profiles (Some (dicts_of ps)) m) w)
        | Raise e => (Raise e, stored self (with_factory_profiles (Some []) m) w)
        end
    end
  /\ loadable_modules self w =
    match _loadable_modules m with
    | Some (x :: xs) => (Ok (x :: xs), w)
    | _ =>
        match get_loadable_modules (_obj m) with
        | Ok ps =>
            (Ok (dicts_of ps), stored self (with_loadable_modules (Some (dicts_of ps)) m) w)
        | Raise e => (Raise e, stored self (with_loadable_modules (Some []) m) w)
        end
    end
  /\ loaded_modules self w =
    match _loaded_modules m with
    | Some (x :: xs) => (Ok (x :: xs), w)
    | _ =>
        match get_loaded_modules (_obj m) with
        | Ok ps =>
            (Ok (dicts_of ps), stored self (with_loaded_modules (Some (dicts_of ps)) m) w)
        | Raise e => (Raise e, stored self (with_loaded_modules (Some []) m) w)
        end
    end.
Proof.
  intros Hs. split; [|split].
  - apply (list_view_read _factory_profiles with_factory_profiles); try done.
    by intros [].
  - apply (list_view_read _loadable_modules with_loadable_modules); try done.
    by intros [].
  - apply (list_view_read _loaded_modules with_loaded_modules); try done.
    by intros [].
Qed.

(** X19. Unless the remote manager answers [RTC_OK], [set_config_parameter]
    raises and leaves the store as it was: it raises
    [FailedToSetConfigurationError] with the parameter and the value for
    another code, and the fault itself when the call raises. The cached
    configuration is not cleared then, so a configuration cached before is
    still what [configuration] returns. *)
Theorem set_config_parameter_failure
    (self : loc) (param value : string) (w : World) (m : Manager) :
  heap w !! self = Some (NManager m) ->
  set_configuration (_obj m) param value <> Ok RTC.RTC_OK ->
  set_config_parameter self param value w =
    (Raise match set_configuration (_obj m) param value with
           | Raise e => e
           | Ok _ => FailedToSetConfigurationError param value
           end, w)
  /\ forall kv d,
       _configuration m = Some (kv :: d) ->
       fst (configuration self (snd (set_config_parameter self param value w))) =
       Ok (kv :: d).
Proof.
  intros Hs Hfail.
  assert (Hrun : set_config_parameter self param value w =
                 (Raise match set_configuration (_obj m) param value with
                        | Raise e => e
                        | Ok _ => FailedToSetConfigurationError param value
                        end, w)).
  { unfold set_config_parameter.
    rewrite (bind_ok _ _ _ _ _ (get_manager_run _ _ _ Hs)).
    unfold remote at 1. rewrite bind_run.
    by destruct (set_configuration (_obj m) param value) as [[]|e]. }
  split; [exact Hrun|].
  intros kv d Hc. rewrite Hrun. cbn [snd].
  rewrite (configuration_run _ _ _ Hs). by rewrite Hc.
Qed.

End CachedViews.

(** ** Faults during a parse *)

Section ParseFaults.

Variable TRANSIENT_ConnectFailed : Z.

(** The loop up to a component whose profile cannot be read. *)
Lemma component_loop_fault (comps : list RTObject) :
  forall i c e self w m,
    heap w !! self = Some (NManager m) ->
    comps !! i = Some c ->
    Forall (fun c' => exists p', get_component_profile c' = Ok p') (take i comps) ->
    get_component_profile c = Raise e ->
    exists w' plan,
      component_loop self comps w = (Raise e, w')
      /\ stderr w' = stderr w
      /\ length (heap w') = length (heap w) + i
      /\ adds self plan w w'
      /\ Forall (fun c' => forall p', get_component_profile c' = Ok p' ->
                   In (instance_name p' +:+ ".rtc", KComponent) plan) (take i comps).
Proof.
  induction comps as [|c0 rest IH]; intros i c e self w m Hs Hi Hbefore He; [done|].
  destruct i as [|i].
  - injection Hi as ->. exists w, []. rewrite component_loop_cons.
    unfold remote. rewrite !bind_run, He.
    split; [done|]. split; [done|]. split; [lia|].
    split; [by eapply adds_refl | constructor].
  - cbn [take] in Hbefore. inversion Hbefore as [|? ? [p0 Hp0] Hbefore']; subst.
    destruct (component_step self c0 p0 w m Hs Hp0) as (w2 & Hstep & Herr & Hadds & _).
    pose proof (component_step_length _ _ _ _ Hstep) as Hlen.
    destruct (adds_manager _ _ _ _ _ Hadds Hs) as [c2 Hs2].
    destruct (IH i c e self w2 _ Hs2 Hi Hbefore' He)
      as (w' & plan & Hrun & Herr' & Hlen' & Hadds' & Hplan).
    exists w', ((instance_name p0 +:+ ".rtc", KComponent) :: plan).
    rewrite component_loop_cons, (bind_ok _ _ _ _ _ Hstep).
    split; [done|]. split; [congruence|]. split; [lia|]. split.
    + by apply (adds_trans self [_] plan w w2 w').
    + cbn [take]. constructor.
      * intros p' Hp'. left. congruence.
      * eapply Forall_impl; [exact Hplan|]. intros c' Hc' p' Hp'. right. by apply Hc'.
Qed.

(** X11. [_parse_component_children] catches [BAD_PARAM] only around
    [get_components]. A fault of [get_component_profile] on one of the
    listed components, [BAD_PARAM] included, is raised by the method; the
    components listed before it have their nodes and are children by then,
    and the components after it are not visited. *)
Theorem component_profile_fault_is_raised
    (obj : RTMManager) (self : loc) (w : World) (m : Manager)
    (comps : list RTObject) (i : nat) (c : RTObject) (e : exn)
    (r : result unit) (w' : World) :
  heap w !! self = Some (NManager m) ->
  get_components obj = Ok comps ->
  comps !! i = Some c ->
  Forall (fun c' => exists p', get_component_profile c' = Ok p') (take i comps) ->
  get_component_profile c = Raise e ->
  _parse_component_children obj self w = (r, w') ->
  r = Raise e
  /\ stderr w' = stderr w
  /\ length (heap w') = length (heap w) + i
  /\ exists m',
       heap w' !! self = Some (NManager m')
       /\ (forall k, dict_mem k (_children (manager_node m)) = true ->
                     dict_mem k (_children (manager_node m')) = true)
       /\ (forall j c' p',
             j < i -> comps !! j = Some c' -> get_component_profile c' = Ok p' ->
             dict_mem (instance_name p' +:+ ".rtc") (_children (manager_node m')) = true).
Proof.
  intros Hs Hcomps Hi Hbefore He Hrun.
  unfold _parse_component_children in Hrun. rewrite Hcomps in Hrun.
  destruct (component_loop_fault comps i c e self w m Hs Hi Hbefore He)
    as (w0 & plan & Hrun0 & Herr & Hlen & Hadds & Hplan).
  rewrite Hrun0 in Hrun. injection Hrun as <- <-.
  split; [done|]. split; [done|]. split; [done|].
  destruct (adds_keys _ _ _ _ _ Hadds Hs) as (m' & Hs' & Hold & Hnew).
  exists m'. split; [done|]. split; [done|].
  intros j c' p' Hj Hc' Hp'.
  assert (Hin : In c' (take i comps)).
  { apply list_elem_of_In. apply (list_elem_of_lookup_2 _ j).
    by rewrite lookup_take_lt. }
  pose proof (proj1 (List.Forall_forall _ _) Hplan c' Hin p' Hp') as Hin'.
  exact (proj1 (List.Forall_forall _ _) Hnew _ Hin').
Qed.

(** A fault of the component listing that [_parse] does not catch. *)
Lemma parse_raises (obj : RTMManager) (self : loc) (w : World) (m : Manager) (e : exn) :
  heap w !! self = Some (NManager m) ->
  get_components obj = Raise e ->
  (forall minor, e <> CORBA_SystemException CORBA.BAD_PARAM minor) ->
  _parse TRANSIENT_ConnectFailed obj self w = (Raise e, after_reset self m w).
Proof.
  intros Hs He Hother.
  rewrite (parse_run _ _ _ _ _ Hs).
  unfold _parse_children, parse_children, _parse_component_children.
  rewrite bind_run, He.
  destruct e as [[] minor| | | | | | |]; try reflexivity.
  by destruct (Hother minor).
Qed.

(** The constructor of a manager node whose component listing raises a
    fault that is not caught. *)
Lemma Manager_new_raises (s : RTMManager) (nm : string) (par : option loc) (w : World)
    (e : exn) :
  get_components s = Raise e ->
  (forall minor, e <> CORBA_SystemException CORBA.BAD_PARAM minor) ->
  Manager_new TRANSIENT_ConnectFailed nm par s w =
  (Raise e,
   mkWorld (heap w ++ [NManager (mkManager (mkTreeNode nm par []) s
                          None None None None None None None None)])
     (stderr w)).
Proof.
  intros He Hother. rewrite Manager_new_run, bind_run, alloc_run.
  set (node := mkManager (mkTreeNode nm par []) s None None None None None None None None).
  set (w1 := mkWorld (heap w ++ [NManager node]) (stderr w)).
  assert (Hs : heap w1 !! length (heap w) = Some (NManager node))
    by apply lookup_alloc_new.
  rewrite bind_run.
  rewrite (parse_raises s _ _ _ e Hs He Hother).
  unfold after_reset. cbn [heap stderr w1].
  rewrite list_insert_id; [done|]. exact Hs.
Qed.

(** X12. [_parse] clears the cached views before it parses the children,
    and catches nothing itself. When [get_components] raises a fault other
    than [BAD_PARAM], a [_parse] on that handle raises the fault: the slave
    managers are not parsed, and the store differs from the one before only
    in that the cached views of the node are cleared. The constructor of a
    manager node on such a handle raises the fault too, and leaves the node
    it made in the store, without children. *)
Theorem component_listing_fault_is_raised (obj : RTMManager) (e : exn) :
  get_components obj = Raise e ->
  (forall minor, e <> CORBA_SystemException CORBA.BAD_PARAM minor) ->
  (forall self w m,
     heap w !! self = Some (NManager m) ->
     _parse TRANSIENT_ConnectFailed obj self w =
     (Raise e, mkWorld (<[self := NManager (reset_views m)]> (heap w)) (stderr w)))
  /\ (forall nm par w,
        Manager__init__ TRANSIENT_ConnectFailed obj nm par w =
        (Raise e,
         mkWorld (heap w ++ [NManager (mkManager (mkTreeNode nm par []) obj
                                None None None None None None None None)])
           (stderr w))).
Proof.
  intros He Hother. split.
  - intros self w m Hs. by apply parse_raises.
  - intros nm par w. by apply Manager_new_raises.
Qed.

(** A listed slave manager of which no node can be made: its profile
    cannot be read, for another reason than a refused connection, or its
    profile is read and its component listing raises a fault other than
    [BAD_PARAM]. *)
Lemma slave_loop_raises (mgrs : list RTMManager) :
  forall index self w m s,
    heap w !! self = Some (NManager m) ->
    In s mgrs ->
    (exists e, get_profile s = Raise e
               /\ e <> CORBA_SystemException CORBA.TRANSIENT TRANSIENT_ConnectFailed)
    \/ (exists p e, get_profile s = Ok p
                    /\ get_components s = Raise e
                    /\ forall minor, e <> CORBA_SystemException CORBA.BAD_PARAM minor) ->
    exists e w',
      slave_loop TRANSIENT_ConnectFailed (Manager_new TRANSIENT_ConnectFailed)
        self mgrs index w = (Raise e, w').
Proof.
  induction mgrs as [|m0 rest IH]; intros index self w m s Hs Hin Hbad; [done|].
  rewrite slave_loop_cons.
  destruct (get_profile m0) as [p|e] eqn:Hp.
  - cbv zeta.
    set (named := match dict_get "name" (nvlist_to_dict (properties p)) with
                  | Some n => (n, index)
                  | None => ("slave" +:+ PyStr.str_of_nat index, S index)
                  end).
    rewrite bind_run.
    destruct (Manager_new TRANSIENT_ConnectFailed (fst named) (Some self) m0 w)
      as [r0 w1] eqn:Hnew.
    destruct (init_all TRANSIENT_ConnectFailed m0 (fst named)) as (res0 & out0 & Hinit).
    destruct (Hinit _ _ _ _ Hnew) as (-> & _).
    destruct res0 as [[]|e]; [|by eauto]. cbn [at_next] in *.
    destruct (slave_step TRANSIENT_ConnectFailed self m0 (fst named) w m w1 Hs
                (init_all _ m0) Hnew)
      as (w2 & ms & Hadd & _ & Hadds & _).
    rewrite (bind_ok _ _ _ _ _ Hadd).
    destruct (adds_manager _ _ _ _ _ Hadds Hs) as [c2 Hs2].
    destruct Hin as [->|Hin]; [|by apply (IH _ _ _ _ s Hs2 Hin Hbad)].
    destruct Hbad as [(e & He & _)|(p' & e & _ & He & Hother)]; [congruence|].
    rewrite (Manager_new_raises _ _ _ _ _ He Hother) in Hnew. done.
  - destruct e as [[] minor| | | | | | |]; try by eauto.
    destruct (Z.eqb_spec minor TRANSIENT_ConnectFailed) as [->|Hminor]; [|by eauto].
    rewrite (bind_ok _ _ _ _ _ (name_run _ _ _ Hs)), bind_run.
    cbn [print_stderr].
    destruct Hin as [->|Hin].
    + destruct Hbad as [(e & He & Hne)|(p' & e & Hp' & _)]; congruence.
    + by apply (IH _ _ _ m s).
Qed.

(** X13. The parse of the slave managers forgives a listed slave only a
    refused connection while its profile is read. When the profile of a
    listed slave cannot be read for another fault, or its profile is read
    and its own component listing raises a fault other than [BAD_PARAM]
    (a refused connection included), [_parse_manager_children] of the
    master does not return: it raises. *)
Theorem slave_fault_aborts_parse
    (obj : RTMManager) (self : loc) (w : World) (m : Manager)
    (mgrs : list RTMManager) (s : RTMManager) :
  heap w !! self = Some (NManager m) ->
  get_slave_managers obj = Ok mgrs ->
  In s mgrs ->
  (exists e, get_profile s = Raise e
             /\ e <> CORBA_SystemException CORBA.TRANSIENT TRANSIENT_ConnectFailed)
  \/ (exists p e, get_profile s = Ok p
                  /\ get_components s = Raise e
                  /\ forall minor, e <> CORBA_SystemException CORBA.BAD_PARAM minor) ->
  exists e w',
    _parse_manager_children TRANSIENT_ConnectFailed obj self w = (Raise e, w').
Proof.
  intros Hs Hmgrs Hin Hbad.
  unfold _parse_manager_children, parse_manager_children. rewrite Hmgrs.
  by apply (slave_loop_raises mgrs 0 self w m s).
Qed.

(** What a parse leaves as it was. *)
Lemma parse_summary
    (obj : RTMManager) (self : loc) (w : World) (m : Manager)
    (r : result unit) (w' : World) :
  heap w !! self = Some (NManager m) ->
  _parse TRANSIENT_ConnectFailed obj self w = (r, w') ->
  length (heap w) <= length (heap w')
  /\ (forall l, l < length (heap w) -> l <> self -> heap w' !! l = heap w !! l)
  /\ (exists out, stderr w' = stderr w ++ out)
  /\ exists c,
       heap w' !! self = Some (NManager (with_children c (reset_views m)))
       /\ forall k, dict_mem k (_children (manager_node m)) = true -> dict_mem k c = true.
Proof.
  intros Hs Hrun.
  destruct (parse_plan_exists TRANSIENT_ConnectFailed obj (_name (manager_node m)))
    as (plan & res & out & Hplan).
  destruct (Hplan self w m r w' Hs eq_refl Hrun) as (_ & Herr & Hadds).
  assert (Hs1 : heap (after_reset self m w) !! self = Some (NManager (reset_views m))).
  { cbn. by eapply lookup_insert_manager. }
  assert (Hlen1 : length (heap (after_reset self m w)) = length (heap w)).
  { cbn. by rewrite length_insert. }
  destruct (adds_summary _ _ _ _ _ Hadds Hs1) as (Hlen & Hframe & c & Hs' & Hkeys).
  rewrite Hlen1 in Hlen, Hframe.
  split; [done|]. split; [|split; [by exists out|by exists c]].
  intros l Hl Hne. rewrite (Hframe l Hl Hne). cbn.
  by rewrite list_lookup_insert_ne.
Qed.

Lemma created_new w' base kvs plan :
  Forall2 (created w' base) kvs plan -> Forall (fun kv => base <= snd kv) kvs.
Proof.
  induction 1 as [|kv nk kvs plan (_ & Hbase & _) _ IH]; constructor; done.
Qed.

(** X14. Whatever its outcome, [_parse] only adds to the store: no object
    is removed, no object other than the node itself is changed, nothing
    printed before is lost, and the node keeps its name, parent and handle.
    Every child name the node had is still a child name, and denotes the
    child of before or an object made by this parse: a child that the
    remote manager no longer lists stays a child. *)
Theorem parse_only_adds
    (obj : RTMManager) (self : loc) (w : World) (m : Manager)
    (r : result unit) (w' : World) :
  heap w !! self = Some (NManager m) ->
  _parse TRANSIENT_ConnectFailed obj self w = (r, w') ->
  length (heap w) <= length (heap w')
  /\ (forall l, l < length (heap w) -> l <> self -> heap w' !! l = heap w !! l)
  /\ (exists out, stderr w' = stderr w ++ out)
  /\ exists c,
       heap w' !! self = Some (NManager (with_children c (reset_views m)))
       /\ forall k l,
            dict_get k (_children (manager_node m)) = Some l ->
            exists l', dict_get k c = Some l' /\ (l' = l \/ length (heap w) <= l').
Proof.
  intros Hs Hrun.
  destruct (parse_summary obj self w m r w' Hs Hrun) as (Hlen & Hframe & Hout & _).
  split; [done|]. split; [done|]. split; [done|].
  destruct (parse_plan_exists TRANSIENT_ConnectFailed obj (_name (manager_node m)))
    as (plan & res & out & Hplan).
  destruct (Hplan self w m r w' Hs eq_refl Hrun)
    as (_ & _ & _ & _ & m0 & kvs & Hs0 & Hs' & Hcreated).
  assert (Hs1 : heap (after_reset self m w) !! self = Some (NManager (reset_views m))).
  { cbn. by eapply lookup_insert_manager. }
  rewrite Hs1 in Hs0. injection Hs0 as <-.
  eexists. split; [exact Hs'|].
  intros k l Hk.
  change (_children (manager_node (reset_views m))) with (_children (manager_node m)).
  destruct (in_dec String.string_dec k (map fst kvs)) as [Hin|Hnotin].
  - destruct (dict_get_update_in k kvs (_children (manager_node m)) Hin) as (v & Hv & Hkv).
    exists v. split; [done|]. right.
    pose proof (proj1 (List.Forall_forall _ _) (created_new _ _ _ _ Hcreated) _ Hkv) as Hnew.
    cbn in Hnew. by rewrite length_insert in Hnew.
  - exists l. split; [|by left].
    by rewrite (dict_get_update_notin k kvs _ Hnotin).
Qed.

(** X18. After a parse, whatever its outcome, the first read of
    [components] returns the children of the node that are component
    nodes, in the order of the children, and caches that list. *)
Theorem components_after_parse
    (obj : RTMManager) (self : loc) (w : World) (m : Manager)
    (r : result unit) (w1 : World) :
  heap w !! self = Some (NManager m) ->
  _parse TRANSIENT_ConnectFailed obj self w = (r, w1) ->
  exists m1,
    heap w1 !! self = Some (NManager m1)
    /\ components self w1 =
       (Ok (children_where node_is_component w1 m1),
        stored self (with_components (Some (children_where node_is_component w1 m1)) m1) w1)
    /\ (forall c, In c (children_where node_is_component w1 m1) <->
          In c (dict_values (_children (manager_node m1)))
          /\ exists comp, heap w1 !! c = Some (NComponent comp)).
Proof.
  intros Hs Hrun.
  destruct (parse_summary obj self w m r w1 Hs Hrun) as (_ & _ & _ & c & Hs1 & _).
  eexists. split; [exact Hs1|]. split.
  - unfold components.
    rewrite (bind_ok _ _ _ _ _ (get_manager_run _ _ _ Hs1)).
    change (py_not (_components (with_children c (reset_views m)))) with true. cbv iota.
    rewrite bind_run.
    rewrite (bind_ok _ _ _ _ _ (children_run _ _ _ Hs1)).
    rewrite bind_run. cbn [select]. rewrite (assign_run _ _ _ _ Hs1).
    erewrite bind_ok; [|apply get_manager_run; cbn; by eapply lookup_insert_manager].
    done.
  - intros l. unfold children_where. rewrite filter_In. split.
    + intros [Hin Hc]. split; [done|].
      destruct (heap w1 !! l) as [[| |]|]; try done. by eexists.
    + intros [Hin [comp Hc]]. split; [done|]. by rewrite Hc.
Qed.

(** X15. The constructor of a manager node makes the node the next object
    of the store, with the name, parent and handle it is given, and changes
    no object that was there: the new node is not entered among the
    children of its parent, which is left to the caller. This holds also
    when the first parse raises and the constructor with it. *)
Theorem manager_init_makes_next_object
    (obj : RTMManager) (nm : string) (par : option loc) (w : World)
    (r : result loc) (w' : World) :
  Manager__init__ TRANSIENT_ConnectFailed obj nm par w = (r, w') ->
  length (heap w) < length (heap w')
  /\ (forall l, l < length (heap w) -> heap w' !! l = heap w !! l)
  /\ (forall self, r = Ok self -> self = length (heap w))
  /\ exists m',
       heap w' !! length (heap w) = Some (NManager m')
       /\ _name (manager_node m') = nm
       /\ _parent (manager_node m') = par
       /\ _obj m' = obj.
Proof.
  intros Hrun.
  destruct (init_all TRANSIENT_ConnectFailed obj nm) as (res & out & Hinit).
  destruct (Hinit par w r w' Hrun) as (-> & _ & Hlen & Hframe & Hnode).
  split; [done|]. split; [done|]. split; [|done].
  intros self Hr. destruct res; cbn in Hr; congruence.
Qed.

End ParseFaults.

(** ** The error of a failed reparenting *)

Section ReparentingErrors.

Lemma add_master_exact self new_master w m np :
  heap w !! self = Some (NManager m) ->
  heap w !! new_master = Some (NManager np) ->
  _add_master self new_master w =
  match failure (add_master_manager (_obj m) (manager_ref (_obj np)))
          FailedToAddMasterManagerError with
  | Some e => (Raise e, w)
  | None => (Ok tt, w)
  end.
Proof.
  intros Hs Hn. unfold _add_master.
  rewrite (bind_ok _ _ _ _ _ (get_manager_run _ _ _ Hs)).
  rewrite (bind_ok _ _ _ _ _ (object_run _ _ _ Hn)).
  unfold remote. rewrite bind_run.
  by destruct (add_master_manager _ _) as [[]|e].
Qed.

Lemma remove_master_exact self master w m np :
  heap w !! self = Some (NManager m) ->
  heap w !! master = Some (NManager np) ->
  _remove_master self master w =
  match failure (remove_master_manager (_obj m) (manager_ref (_obj np)))
          FailedToRemoveMasterManagerError with
  | Some e => (Raise e, w)
  | None => (Ok tt, w)
  end.
Proof.
  intros Hs Hn. unfold _remove_master.
  rewrite (bind_ok _ _ _ _ _ (get_manager_run _ _ _ Hs)).
  rewrite (bind_ok _ _ _ _ _ (object_run _ _ _ Hn)).
  unfold remote. rewrite bind_run.
  by destruct (remove_master_manager _ _) as [[]|e].
Qed.

Lemma add_slave_exact self new_slave w m sm :
  heap w !! self = Some (NManager m) ->
  heap w !! new_slave = Some (NManager sm) ->
  _add_slave self new_slave w =
  match failure (add_save_manager (_obj m) (manager_ref (_obj sm)))
          (FailedToAddSlaveManagerError (_name (manager_node m)) (_name (manager_node sm)))
  with
  | Some e => (Raise e, w)
  | None => (Ok tt, w)
  end.
Proof.
  intros Hs Hn. unfold _add_slave.
  rewrite (bind_ok _ _ _ _ _ (get_manager_run _ _ _ Hs)).
  rewrite (bind_ok _ _ _ _ _ (object_run _ _ _ Hn)).
  unfold remote. rewrite bind_run.
  destruct (add_save_manager _ _) as [[]|e]; cbn; try done;
    by rewrite (bind_ok _ _ _ _ _ (name_run _ _ _ Hs)),
               (bind_ok _ _ _ _ _ (name_run _ _ _ Hn)).
Qed.

Lemma remove_slave_exact self slave w m sm :
  heap w !! self = Some (NManager m) ->
  heap w !! slave = Some (NManager sm) ->
  _remove_slave self slave w =
  match failure (remove_slave_manager (_obj m) (manager_ref (_obj sm)))
          (FailedToRemoveSlaveManagerError (_name (manager_node m))
             (_name (manager_node sm)))
  with
  | Some e => (Raise e, w)
  | None => (Ok tt, w)
  end.
Proof.
  intros Hs Hn. unfold _remove_slave.
  rewrite (bind_ok _ _ _ _ _ (get_manager_run _ _ _ Hs)).
  rewrite (bind_ok _ _ _ _ _ (object_run _ _ _ Hn)).
  unfold remote. rewrite bind_run.
  destruct (remove_slave_manager _ _) as [[]|e]; cbn; try done;
    by rewrite (bind_ok _ _ _ _ _ (name_run _ _ _ Hs)),
               (bind_ok _ _ _ _ _ (name_run _ _ _ Hn)).
Qed.

(** The outcome of [_set_parent] and the store after it. *)
Lemma set_parent_first_failure_run
    (self new_parent : loc) (w : World) (m np : Manager) :
  heap w !! self = Some (NManager m) ->
  heap w !! new_parent = Some (NManager np) ->
  (forall old, _parent (manager_node m) = Some old -> is_Some (heap w !! old)) ->
  _set_parent self new_parent w =
  match first_failure (registration_answers w self new_parent)
          (registration_errors w self new_parent) with
  | Some e => (Raise e, w)
  | None => (Ok tt, reparented self new_parent m w)
  end.
Proof.
  intros Hs Hn Hold.
  unfold _set_parent, registration_answers, registration_errors. rewrite Hs, Hn.
  rewrite (bind_ok _ _ _ _ _ (parent_run _ _ _ Hs)). cbn [node_base].
  assert (Hadd :
    (_add_master self new_parent;; _add_slave new_parent self;;
     set_parent self new_parent) w =
    match first_failure
            [add_master_manager (_obj m) (manager_ref (_obj np));
             add_save_manager (_obj np) (manager_ref (_obj m))]
            [FailedToAddMasterManagerError;
             FailedToAddSlaveManagerError (_name (manager_node np))
               (_name (manager_node m))] with
    | Some e => (Raise e, w)
    | None => (Ok tt, reparented self new_parent m w)
    end).
  { cbn [first_failure].
    rewrite bind_run, (add_master_exact _ _ _ _ _ Hs Hn).
    destruct (failure (add_master_manager _ _) _); [done|].
    rewrite bind_run, (add_slave_exact _ _ _ _ _ Hn Hs).
    destruct (failure (add_save_manager _ _) _); [done|].
    by rewrite (set_parent_run _ _ _ _ Hs). }
  destruct (_parent (manager_node m)) as [old|] eqn:Hp.
  - destruct (Hold old eq_refl) as [on Hon]. rewrite Hon.
    rewrite (bind_run (let* old_is_manager := is_manager old in _)).
    rewrite (bind_ok _ _ _ _ _ (is_manager_run _ _ _ Hon)).
    destruct on as [om| |]; cbn [node_is_manager app]; [|exact Hadd..].
    cbn [first_failure].
    rewrite bind_run, (remove_slave_exact _ _ _ _ _ Hon Hs).
    destruct (failure (remove_slave_manager _ _) _); [done|].
    rewrite (remove_master_exact _ _ _ _ _ Hs Hon).
    destruct (failure (remove_master_manager _ _) _); [done|].
    exact Hadd.
  - rewrite bind_run. cbn [ret app]. exact Hadd.
Qed.

(** X16. [_set_parent] makes its registration calls in a fixed order: when
    the old parent is a manager, the old parent drops the slave and the
    slave drops the old master; then the slave adds the new master and the
    new parent adds the slave. The first call that fails decides the
    error: the fault of the call, or for another code than [RTC_OK] the
    error of that step, which for the two slave registrations carries the
    names of the master and of the slave. The answers of the later calls
    play no part, and the store is as it was. When no call fails,
    [_set_parent] returns and the parent reference of the node is the new
    parent. *)
Theorem set_parent_raises_first_failure
    (self new_parent : loc) (w : World) (m np : Manager) :
  heap w !! self = Some (NManager m) ->
  heap w !! new_parent = Some (NManager np) ->
  (forall old, _parent (manager_node m) = Some old -> is_Some (heap w !! old)) ->
  match first_failure (registration_answers w self new_parent)
          (registration_errors w self new_parent) with
  | Some e => _set_parent self new_parent w = (Raise e, w)
  | None =>
      exists w', _set_parent self new_parent w = (Ok tt, w')
                 /\ parent self w' = (Ok (Some new_parent), w')
  end.
Proof.
  intros Hs Hn Hold.
  pose proof (set_parent_first_failure_run _ _ _ _ _ Hs Hn Hold) as Hrun.
  destruct (first_failure _ _) as [e|]; [exact Hrun|].
  eexists. split; [exact Hrun|].
  assert (H : heap (reparented self new_parent m w) !! self =
              Some (NManager (set_manager_node
                 (mkTreeNode (_name (manager_node m)) (Some new_parent)
                    (_children (manager_node m))) m))).
  { eapply list_lookup_insert_eq, lookup_lt_Some, Hs. }
  by rewrite (parent_run _ _ _ H).
Qed.

End ReparentingErrors.

(** ** Children and their parent *)

Section Ownership.

Variable TRANSIENT_ConnectFailed : Z.

Lemma In_dict_set {V} k (v : V) k' v' d :
  In (k, v) (dict_set k' v' d) -> (k = k' /\ v = v') \/ In (k, v) d.
Proof.
  induction d as [|[k0 v0] d IH]; cbn [dict_set].
  - intros [[= <- <-]|[]]. by left.
  - destruct (String.eqb k0 k').
    + intros [[= <- <-]|Hin]; [by left|right; by right].
    + intros [Heq|Hin]; [right; by left|].
      destruct (IH Hin) as [?|?]; [by left|right; by right].
Qed.

Lemma node_base_set t n : node_base (set_node_base t n) = t.
Proof. by destruct n. Qed.

(** A new object without children keeps the invariant. *)
Lemma owned_alloc w n :
  children_owned w ->
  _children (node_base n) = [] ->
  children_owned (mkWorld (heap w ++ [n]) (stderr w)).
Proof.
  intros Hown Hn p n0 k l Hp Hin. cbn [heap] in *.
  destruct (decide (p < length (heap w))) as [Hlt|Hge].
  - rewrite lookup_app_l in Hp by done.
    destruct (Hown p n0 k l Hp Hin) as (cn & Hl & Hrest).
    exists cn. split; [|done].
    rewrite lookup_app_l; [done|]. by eapply lookup_lt_Some.
  - rewrite lookup_app_r in Hp by lia.
    destruct (p - length (heap w)) as [|i]; cbn in Hp; [|done].
    injection Hp as <-. by rewrite Hn in Hin.
Qed.

(** A node replaced by one of the same name and parent, whose children
    are children of before or objects that have it as parent. *)
Lemma owned_update w self n n' :
  children_owned w ->
  heap w !! self = Some n ->
  _name (node_base n') = _name (node_base n) ->
  _parent (node_base n') = _parent (node_base n) ->
  (forall k l, In (k, l) (_children (node_base n')) ->
     In (k, l) (_children (node_base n))
     \/ exists cn, heap w !! l = Some cn
                   /\ _parent (node_base cn) = Some self
                   /\ _name (node_base cn) = k) ->
  children_owned (mkWorld (<[self := n']> (heap w)) (stderr w)).
Proof.
  intros Hown Hs Hname Hparent Hchildren p n0 k l Hp Hin. cbn [heap] in *.
  assert (Hself : self < length (heap w)) by by eapply lookup_lt_Some.
  assert (Hold : exists cn, heap w !! l = Some cn
                            /\ _parent (node_base cn) = Some p
                            /\ _name (node_base cn) = k).
  { destruct (decide (p = self)) as [->|Hne].
    - rewrite list_lookup_insert_eq in Hp by done. injection Hp as <-.
      destruct (Hchildren k l Hin) as [Hin'|Hnew]; [|done].
      by apply (Hown self n).
    - rewrite list_lookup_insert_ne in Hp by done.
      by apply (Hown p n0). }
  destruct Hold as (cn & Hl & Hpar & Hnm).
  destruct (decide (l = self)) as [->|Hne].
  - exists n'. rewrite list_lookup_insert_eq by done.
    split; [done|]. rewrite Hs in Hl. injection Hl as <-. by rewrite Hname, Hparent.
  - exists cn. by rewrite list_lookup_insert_ne.
Qed.

(** [_add_child] of an object that has the node as its parent. *)
Lemma owned_add_child w1 self n c cn :
  children_owned w1 ->
  heap w1 !! self = Some n ->
  heap w1 !! c = Some cn ->
  _parent (node_base cn) = Some self ->
  exists w2,
    _add_child self c w1 = (Ok tt, w2)
    /\ children_owned w2
    /\ stderr w2 = stderr w1
    /\ heap w2 =
       <[self := set_node_base
                   (mkTreeNode (_name (node_base n)) (_parent (node_base n))
                      (dict_set (_name (node_base cn)) c (_children (node_base n)))) n]>
         (heap w1).
Proof.
  intros Hown Hs Hc Hpar.
  eexists. split; [exact (add_child_run _ _ _ _ _ Hs Hc)|].
  split; [|done].
  apply (owned_update w1 self n); try done; rewrite node_base_set; try done.
  intros k l Hin. cbn [_children] in Hin.
  destruct (In_dict_set _ _ _ _ _ Hin) as [[-> ->]|Hin']; [right|by left].
  by exists cn.
Qed.

Lemma component_loop_owned (comps : list RTObject) :
  forall self w m r w',
    heap w !! self = Some (NManager m) ->
    children_owned w ->
    component_loop self comps w = (r, w') ->
    children_owned w'.
Proof.
  induction comps as [|c rest IH]; intros self w m r w' Hs Hown Hrun.
  - by injection Hrun as <- <-.
  - rewrite component_loop_cons in Hrun.
    unfold remote at 1 in Hrun. rewrite !bind_run in Hrun.
    destruct (get_component_profile c) as [p|e]; [|by injection Hrun as <- <-].
    unfold Component__init__ in Hrun. rewrite bind_run, alloc_run in Hrun.
    set (cn := NComponent (mkComponent
                 (mkTreeNode (instance_name p +:+ ".rtc") (Some self) []) c)) in Hrun.
    set (w1 := mkWorld (heap w ++ [cn]) (stderr w)) in Hrun.
    assert (Hself : self < length (heap w)) by by eapply lookup_lt_Some.
    assert (Hs1 : heap w1 !! self = Some (NManager m))
      by (cbn; by rewrite lookup_alloc_old).
    assert (Hc1 : heap w1 !! length (heap w) = Some cn) by apply lookup_alloc_new.
    destruct (owned_add_child w1 self _ _ cn (owned_alloc w cn Hown eq_refl) Hs1 Hc1 eq_refl)
      as (w2 & Hadd & Hown2 & _ & Hheap2).
    rewrite Hadd in Hrun.
    refine (IH self w2 _ r w' _ Hown2 Hrun).
    rewrite Hheap2. cbn [set_node_base]. by eapply lookup_insert_manager.
Qed.

Lemma parse_component_children_owned obj self w m r w' :
  heap w !! self = Some (NManager m) ->
  children_owned w ->
  _parse_component_children obj self w = (r, w') ->
  children_owned w'.
Proof.
  intros Hs Hown Hrun. unfold _parse_component_children in Hrun.
  destruct (get_components obj) as [comps|e].
  - by apply (component_loop_owned comps self w m r w').
  - destruct e as [[] minor| | | | | | |]; by injection Hrun as <- <-.
Qed.

Lemma slave_loop_owned (mgrs : list RTMManager) :
  Forall (init_owned TRANSIENT_ConnectFailed) mgrs ->
  forall index self w m r w',
    heap w !! self = Some (NManager m) ->
    children_owned w ->
    slave_loop TRANSIENT_ConnectFailed (Manager_new TRANSIENT_ConnectFailed)
      self mgrs index w = (r, w') ->
    children_owned w'.
Proof.
  induction 1 as [|m0 rest Hm0 _ IH]; intros index self w m r w' Hs Hown Hrun.
  - by injection Hrun as <- <-.
  - rewrite slave_loop_cons in Hrun.
    destruct (get_profile m0) as [p|e] eqn:Hp.
    + cbv zeta in Hrun.
      set (named := match dict_get "name" (nvlist_to_dict (properties p)) with
                    | Some n => (n, index)
                    | None => ("slave" +:+ PyStr.str_of_nat index, S index)
                    end) in Hrun.
      rewrite bind_run in Hrun.
      destruct (Manager_new TRANSIENT_ConnectFailed (fst named) (Some self) m0 w)
        as [r0 w1] eqn:Hnew.
      pose proof (Hm0 _ _ _ _ _ Hown Hnew) as Hown1.
      destruct (init_all TRANSIENT_ConnectFailed m0 (fst named)) as (res0 & out0 & Hinit).
      destruct (Hinit _ _ _ _ Hnew)
        as (-> & _ & Hlen & Hframe & ms & Hnode & Hnm & Hpar & Hobj).
      destruct res0 as [[]|e]; [|by injection Hrun as <- <-]. cbn [at_next] in Hrun.
      assert (Hself : self < length (heap w)) by by eapply lookup_lt_Some.
      assert (Hs1 : heap w1 !! self = Some (NManager m)) by by rewrite Hframe.
      destruct (owned_add_child w1 self _ _ _ Hown1 Hs1 Hnode Hpar)
        as (w2 & Hadd & Hown2 & _ & Hheap2).
      rewrite (bind_ok _ _ _ _ _ Hadd) in Hrun.
      refine (IH (snd named) self w2 _ r w' _ Hown2 Hrun).
      rewrite Hheap2. cbn [set_node_base]. by eapply lookup_insert_manager.
    + destruct e as [[] minor| | | | | | |]; try by injection Hrun as <- <-.
      destruct (minor =? TRANSIENT_ConnectFailed)%Z; [|by injection Hrun as <- <-].
      rewrite (bind_ok _ _ _ _ _ (name_run _ _ _ Hs)), bind_run in Hrun.
      cbn [print_stderr] in Hrun.
      eapply IH; [| |exact Hrun]; [exact Hs|exact Hown].
Qed.

Lemma parse_owned_from (obj : RTMManager) :
  (forall mgrs, get_slave_managers obj = Ok mgrs -> Forall (init_owned TRANSIENT_ConnectFailed) mgrs) ->
  forall self w m r w',
    heap w !! self = Some (NManager m) ->
    children_owned w ->
    _parse TRANSIENT_ConnectFailed obj self w = (r, w') ->
    children_owned w'.
Proof.
  intros Hslaves self w m r w' Hs Hown Hrun.
  rewrite (parse_run _ _ _ _ _ Hs) in Hrun.
  assert (Hown1 : children_owned (after_reset self m w)).
  { apply (owned_update w self (NManager m)); try done. intros k l Hin. by left. }
  assert (Hs1 : heap (after_reset self m w) !! self = Some (NManager (reset_views m))).
  { cbn. by eapply lookup_insert_manager. }
  unfold _parse_children, parse_children in Hrun. rewrite bind_run in Hrun.
  destruct (_parse_component_children obj self (after_reset self m w)) as [r1 w1] eqn:Hcomp.
  pose proof (parse_component_children_owned _ _ _ _ _ _ Hs1 Hown1 Hcomp) as Hown2.
  destruct r1 as [[]|e]; [|by injection Hrun as <- <-].
  destruct (parse_component_children_spec obj) as (plan & res & out & Hspec).
  destruct (Hspec _ _ _ _ _ Hs1 Hcomp) as (_ & _ & Hadds).
  destruct (adds_manager _ _ _ _ _ Hadds Hs1) as [c Hs2].
  unfold parse_manager_children in Hrun.
  destruct (get_slave_managers obj) as [mgrs|e] eqn:Hmgrs.
  - by apply (slave_loop_owned mgrs (Hslaves mgrs eq_refl) 0 self w1 _ r w' Hs2).
  - destruct e as [[] minor| | | | | | |]; by injection Hrun as <- <-.
Qed.

Lemma init_owned_all (obj : RTMManager) : init_owned TRANSIENT_ConnectFailed obj.
Proof.
  induction obj as [obj IH] using RTMManager_nested_ind.
  intros nm par w r w' Hown Hrun.
  rewrite Manager_new_run, bind_run, alloc_run in Hrun.
  set (node := mkManager (mkTreeNode nm par []) obj None None None None None None None None)
    in Hrun.
  set (w1 := mkWorld (heap w ++ [NManager node]) (stderr w)) in Hrun.
  assert (Hs : heap w1 !! length (heap w) = Some (NManager node))
    by apply lookup_alloc_new.
  rewrite bind_run in Hrun.
  destruct (_parse TRANSIENT_ConnectFailed obj (length (heap w)) w1) as [r1 w2] eqn:Hparse.
  assert (Hown2 : children_owned w2).
  { apply (parse_owned_from obj IH _ w1 node r1 w2 Hs); [|done].
    by apply owned_alloc. }
  destruct r1 as [[]|e]; by injection Hrun as <- <-.
Qed.

(** X17. The tree invariant that every entry of a child collection
    denotes a node which has the key as its name and the owner as its
    parent is kept by [_parse], by [_parse_component_children] and by the
    constructor of a manager node, whatever their outcome. *)
Theorem parse_keeps_children_owned
    (obj : RTMManager) (self : loc) (w : World) (m : Manager) :
  heap w !! self = Some (NManager m) ->
  children_owned w ->
  children_owned (snd (_parse TRANSIENT_ConnectFailed obj self w))
  /\ children_owned (snd (_parse_component_children obj self w))
  /\ forall nm par,
       children_owned (snd (Manager__init__ TRANSIENT_ConnectFailed obj nm par w)).
Proof.
  intros Hs Hown. split; [|split].
  - destruct (_parse TRANSIENT_ConnectFailed obj self w) as [r w'] eqn:Hrun.
    apply (parse_owned_from obj (fun mgrs _ => proj2 (List.Forall_forall _ _)
             (fun s _ => init_owned_all s)) self w m r w' Hs Hown Hrun).
  - destruct (_parse_component_children obj self w) as [r w'] eqn:Hrun.
    by apply (parse_component_children_owned obj self w m r w').
  - intros nm par.
    destruct (Manager__init__ TRANSIENT_ConnectFailed obj nm par w) as [r w'] eqn:Hrun.
    by apply (init_owned_all obj nm par w r w').
Qed.

End Ownership.

(** ** The further properties on the examples *)

Section MoreWitnesses.
Import Examples MoreExamples.

Ltac evaluate := vm_compute; reflexivity.

Example connect_examples :
  fst (_connect_to_naming_service connect_failed
         (mkNameServerAttrs (Some "localhost") orb_up None None) "localhost") = Done 7
  /\ _full_address (snd (_connect_to_naming_service connect_failed
         (mkNameServerAttrs (Some "localhost") orb_up None None) "localhost")) =
     Some "corbaloc::localhost/NameService"
  /\ fst (_connect_to_naming_service connect_failed
         (mkNameServerAttrs (Some "localhost") orb_down None None) "localhost") =
     Raised (InvalidServiceError "localhost").
Proof. repeat split. Qed.

Lemma create_component_witness :
  (heap tree_read !! 1 = Some (NManager (manager_at tree_read 1))
   /\ create_component (fun _ => obliging) 1 "C20" tree_read = (Done tt, tree_created))
  /\ _children (manager_node (manager_at tree_created 1)) = [("C10.rtc", 3); ("C20.rtc", 4)]
  /\ fst (components 1 tree_created) = Ok [2].
Proof.
  assert (H1 : heap tree_read !! 1 = Some (NManager (manager_at tree_read 1))) by evaluate.
  assert (H2 : create_component (fun _ => obliging) 1 "C20" tree_read =
               (Done tt, tree_created)) by evaluate.
  split; [by split|]. split; [evaluate|].
  destruct (create_component_outcomes (fun _ => obliging) 1 "C20" tree_read _ _ _ H1 H2)
    as (_ & _ & _ & _ & c & _ & _ & Hcache).
  exact (Hcache 2 [] eq_refl).
Defined.

Lemma delete_component_witness :
  (heap tree_emptied !! 1 = Some (NManager (manager_at tree_emptied 1))
   /\ delete_component (fun _ => obliging) 1 "C10" tree_emptied = (Done tt, tree_emptied))
  /\ RTM.delete_component obliging "C10" = Ok RTC.RTC_OK
  /\ exists c,
       heap tree_emptied !! 1 =
         Some (NManager (with_children c (manager_at tree_emptied 1)))
       /\ dict_mem "C10.rtc" c = true.
Proof.
  assert (H1 : heap tree_emptied !! 1 = Some (NManager (manager_at tree_emptied 1)))
    by evaluate.
  assert (H2 : delete_component (fun _ => obliging) 1 "C10" tree_emptied =
               (Done tt, tree_emptied)) by evaluate.
  split; [by split|]. split; [reflexivity|].
  destruct (delete_component_outcomes (fun _ => obliging) 1 "C10" tree_emptied _ _ _ H1 H2)
    as (_ & _ & _ & _ & c & Hs & Hkeys & _).
  exists c. split; [exact Hs|]. apply Hkeys. evaluate.
Defined.

Lemma load_module_witness :
  (heap tree_read !! 1 = Some (NManager (manager_at tree_read 1))
   /\ load_module (fun _ => unwilling) unknown_user_exception 1 "C20.so" "C20Init" tree_read =
      (Raised (FailedToLoadModuleError "C20.so" (Some "CORBA User Exception")), tree_read))
  /\ RTM.load_module unwilling "C20.so" "C20Init" =
     Raise (CORBA_SystemException CORBA.UNKNOWN unknown_user_exception)
  /\ fst (loaded_modules 1 tree_read) = Ok [[("file_path", "C10.so")]].
Proof.
  assert (H1 : heap tree_read !! 1 = Some (NManager (manager_at tree_read 1))) by evaluate.
  assert (H2 : load_module (fun _ => unwilling) unknown_user_exception 1 "C20.so" "C20Init"
                 tree_read =
               (Raised (FailedToLoadModuleError "C20.so" (Some "CORBA User Exception")),
                tree_read)) by evaluate.
  split; [by split|]. split; [reflexivity|].
  destruct (load_module_outcomes (fun _ => unwilling) unknown_user_exception
              1 "C20.so" "C20Init" tree_read _ _ _ H1 H2)
    as (_ & _ & _ & _ & Hcache).
  exact (Hcache [("file_path", "C10.so")] [] eq_refl).
Defined.

Lemma unload_module_witness :
  (heap tree_read !! 1 = Some (NManager (manager_at tree_read 1))
   /\ unload_module (fun _ => unwilling) 1 "C10.so" tree_read =
      (Raised (Exn (CORBA_SystemException CORBA.UNKNOWN unknown_user_exception)), tree_read))
  /\ RTM.unload_module unwilling "C10.so" =
     Raise (CORBA_SystemException CORBA.UNKNOWN unknown_user_exception).
Proof.
  assert (H1 : heap tree_read !! 1 = Some (NManager (manager_at tree_read 1))) by evaluate.
  assert (H2 : unload_module (fun _ => unwilling) 1 "C10.so" tree_read =
               (Raised (Exn (CORBA_SystemException CORBA.UNKNOWN unknown_user_exception)),
                tree_read)) by evaluate.
  split; [by split|].
  destruct (unload_module_outcomes (fun _ => unwilling) 1 "C10.so" tree_read _ _ _ H1 H2)
    as (_ & _ & _ & Hfault & _).
  exact (proj1 (Hfault _) eq_refl).
Defined.

Lemma configuration_and_profile_read_witness :
  heap tree_read !! 1 = Some (NManager (manager_at tree_read 1))
  /\ configuration 1 tree_read = (Ok [("manager.name", "manager")], tree_read)
  /\ profile 1 tree_read =
     (Ok [("language", "Python")],
      stored 1 (with_profile (Some [("language", "Python")]) (manager_at tree_read 1))
        tree_read).
Proof.
  assert (H1 : heap tree_read !! 1 = Some (NManager (manager_at tree_read 1))) by evaluate.
  split; [exact H1|].
  exact (configuration_and_profile_read 1 tree_read _ H1).
Defined.

Lemma list_views_read_witness :
  heap tree_off_line !! 0 = Some (NManager (manager_at tree_off_line 0))
  /\ factory_profiles 0 tree_off_line =
     (Raise (CORBA_SystemException CORBA.COMM_FAILURE 0),
      stored 0 (with_factory_profiles (Some []) (manager_at tree_off_line 0)) tree_off_line)
  /\ loadable_modules 0 tree_off_line =
     (Ok [[("file_path", "C10.so")]; [("file_path", "C20.so")]],
      stored 0 (with_loadable_modules
                  (Some [[("file_path", "C10.so")]; [("file_path", "C20.so")]])
                  (manager_at tree_off_line 0)) tree_off_line)
  /\ loaded_modules 0 tree_off_line =
     (Ok [],
      stored 0 (with_loaded_modules (Some []) (manager_at tree_off_line 0)) tree_off_line).
Proof.
  assert (H1 : heap tree_off_line !! 0 = Some (NManager (manager_at tree_off_line 0)))
    by evaluate.
  split; [exact H1|].
  exact (list_views_read 0 tree_off_line _ H1).
Defined.

Lemma component_profile_fault_witness :
  (heap tree_broken !! 0 = Some (NManager (manager_at tree_broken 0))
   /\ get_components master_broken =
      Ok [remote_component 10 "C10"; broken_component; remote_component 11 "C20"]
   /\ [remote_component 10 "C10"; broken_component; remote_component 11 "C20"] !! 1 =
      Some broken_component
   /\ Forall (fun c' => exists p', get_component_profile c' = Ok p')
        (take 1 [remote_component 10 "C10"; broken_component; remote_component 11 "C20"])
   /\ get_component_profile broken_component =
      Raise (CORBA_SystemException CORBA.BAD_PARAM 0)
   /\ _parse_component_children master_broken 0 tree_broken =
      (Raise (CORBA_SystemException CORBA.BAD_PARAM 0), tree_half_parsed))
  /\ _children (manager_node (manager_at tree_half_parsed 0)) = [("C10.rtc", 1)]
  /\ length (heap tree_half_parsed) = length (heap tree_broken) + 1.
Proof.
  assert (H1 : heap tree_broken !! 0 = Some (NManager (manager_at tree_broken 0)))
    by evaluate.
  assert (H2 : get_components master_broken =
               Ok [remote_component 10 "C10"; broken_component; remote_component 11 "C20"])
    by reflexivity.
  assert (H3 : [remote_component 10 "C10"; broken_component; remote_component 11 "C20"] !! 1 =
               Some broken_component) by reflexivity.
  assert (H4 : Forall (fun c' => exists p', get_component_profile c' = Ok p')
                 (take 1 [remote_component 10 "C10"; broken_component;
                          remote_component 11 "C20"])).
  { repeat constructor. by eexists. }
  assert (H5 : get_component_profile broken_component =
               Raise (CORBA_SystemException CORBA.BAD_PARAM 0)) by reflexivity.
  assert (H6 : _parse_component_children master_broken 0 tree_broken =
               (Raise (CORBA_SystemException CORBA.BAD_PARAM 0), tree_half_parsed))
    by evaluate.
  split; [by repeat split|]. split; [evaluate|].
  destruct (component_profile_fault_is_raised master_broken 0 tree_broken _ _ 1 _ _ _ _
              H1 H2 H3 H4 H5 H6) as (_ & _ & Hlen & _).
  exact Hlen.
Defined.

Lemma component_listing_fault_witness :
  (get_components master_down =
     Raise (CORBA_SystemException CORBA.TRANSIENT connect_failed)
   /\ forall minor,
        CORBA_SystemException CORBA.TRANSIENT connect_failed <>
        CORBA_SystemException CORBA.BAD_PARAM minor)
  /\ (forall self w m,
        heap w !! self = Some (NManager m) ->
        _parse connect_failed master_down self w =
        (Raise (CORBA_SystemException CORBA.TRANSIENT connect_failed),
         mkWorld (<[self := NManager (reset_views m)]> (heap w)) (stderr w)))
  /\ (forall nm par w,
        Manager__init__ connect_failed master_down nm par w =
        (Raise (CORBA_SystemException CORBA.TRANSIENT connect_failed),
         mkWorld (heap w ++ [NManager (mkManager (mkTreeNode nm par []) master_down
                                None None None None None None None None)])
           (stderr w))).
Proof.
  assert (H1 : get_components master_down =
               Raise (CORBA_SystemException CORBA.TRANSIENT connect_failed)) by reflexivity.
  assert (H2 : forall minor,
             CORBA_SystemException CORBA.TRANSIENT connect_failed <>
             CORBA_SystemException CORBA.BAD_PARAM minor) by (intros minor; discriminate).
  split; [by split|].
  exact (component_listing_fault_is_raised connect_failed master_down _ H1 H2).
Defined.

Lemma slave_fault_witness :
  (heap tree_of_half_dead !! 0 = Some (NManager (manager_at tree_of_half_dead 0))
   /\ get_slave_managers master_of_half_dead = Ok [unnamed_slave 2; half_dead]
   /\ In half_dead [unnamed_slave 2; half_dead]
   /\ get_profile half_dead = Ok {| properties := [("name", "bob")] |}
   /\ get_components half_dead =
      Raise (CORBA_SystemException CORBA.TRANSIENT connect_failed))
  /\ exists e w',
       _parse_manager_children connect_failed master_of_half_dead 0 tree_of_half_dead =
       (Raise e, w').
Proof.
  assert (H1 : heap tree_of_half_dead !! 0 =
               Some (NManager (manager_at tree_of_half_dead 0))) by evaluate.
  assert (H2 : get_slave_managers master_of_half_dead = Ok [unnamed_slave 2; half_dead])
    by reflexivity.
  assert (H3 : In half_dead [unnamed_slave 2; half_dead]) by (right; by left).
  assert (H4 : get_profile half_dead = Ok {| properties := [("name", "bob")] |})
    by reflexivity.
  assert (H5 : get_components half_dead =
               Raise (CORBA_SystemException CORBA.TRANSIENT connect_failed))
    by reflexivity.
  split; [by repeat split|].
  apply (slave_fault_aborts_parse connect_failed master_of_half_dead 0 tree_of_half_dead
           _ _ half_dead H1 H2 H3).
  right. exists {| properties := [("name", "bob")] |},
    (CORBA_SystemException CORBA.TRANSIENT connect_failed).
  split; [exact H4|]. split; [exact H5|]. intros minor. discriminate.
Defined.

Lemma parse_only_adds_witness :
  (heap tree !! 1 = Some (NManager (manager_at tree 1))
   /\ _parse connect_failed master 1 tree = (Ok tt, tree1))
  /\ length (heap tree) <= length (heap tree1)
  /\ (forall l, l < length (heap tree) -> l <> 1 -> heap tree1 !! l = heap tree !! l)
  /\ (exists out, stderr tree1 = stderr tree ++ out)
  /\ exists c,
       heap tree1 !! 1 =
         Some (NManager (with_children c (reset_views (manager_at tree 1))))
       /\ forall k l,
            dict_get k (_children (manager_node (manager_at tree 1))) = Some l ->
            exists l', dict_get k c = Some l' /\ (l' = l \/ length (heap tree) <= l').
Proof.
  assert (H1 : heap tree !! 1 = Some (NManager (manager_at tree 1))) by evaluate.
  assert (H2 : _parse connect_failed master 1 tree = (Ok tt, tree1)) by evaluate.
  split; [by split|].
  exact (parse_only_adds connect_failed master 1 tree _ _ _ H1 H2).
Defined.

Lemma manager_init_witness :
  Manager__init__ connect_failed master "manager.mgr" (Some 0) name_server_only =
    (Ok 1, tree)
  /\ length (heap name_server_only) < length (heap tree)
  /\ (forall l, l < length (heap name_server_only) ->
                heap tree !! l = heap name_server_only !! l)
  /\ (forall self, Ok 1 = Ok self -> self = length (heap name_server_only))
  /\ exists m',
       heap tree !! length (heap name_server_only) = Some (NManager m')
       /\ _name (manager_node m') = "manager.mgr"
       /\ _parent (manager_node m') = Some 0
       /\ _obj m' = master.
Proof.
  assert (H1 : Manager__init__ connect_failed master "manager.mgr" (Some 0)
                 name_server_only = (Ok 1, tree)) by evaluate.
  split; [exact H1|].
  exact (manager_init_makes_next_object connect_failed master "manager.mgr" (Some 0)
           name_server_only _ _ H1).
Defined.

Lemma set_parent_first_failure_witness :
  (heap tree_of_stubborn !! 1 = Some (NManager (manager_at tree_of_stubborn 1))
   /\ heap tree_of_stubborn !! 2 = Some (NManager (manager_at tree_of_stubborn 2))
   /\ (forall old, _parent (manager_node (manager_at tree_of_stubborn 1)) = Some old ->
                   is_Some (heap tree_of_stubborn !! old)))
  /\ [ remove_slave_manager stubborn_master 2; remove_master_manager (unnamed_slave 2) 1;
       add_master_manager (unnamed_slave 2) 3; add_save_manager (named_slave 3 "new") 2 ] =
     [ Ok RTC.RTC_ERROR; Ok RTC.RTC_OK; Ok RTC.RTC_OK; Ok RTC.RTC_OK ]
  /\ _set_parent 1 2 tree_of_stubborn =
     (Raise (FailedToRemoveSlaveManagerError "old.mgr" "slave0"), tree_of_stubborn).
Proof.
  assert (H1 : heap tree_of_stubborn !! 1 = Some (NManager (manager_at tree_of_stubborn 1)))
    by evaluate.
  assert (H2 : heap tree_of_stubborn !! 2 = Some (NManager (manager_at tree_of_stubborn 2)))
    by evaluate.
  assert (H3 : forall old,
             _parent (manager_node (manager_at tree_of_stubborn 1)) = Some old ->
             is_Some (heap tree_of_stubborn !! old)).
  { intros old Hold. vm_compute in Hold. injection Hold as <-. by eexists. }
  split; [by repeat split|]. split; [reflexivity|].
  exact (set_parent_raises_first_failure 1 2 tree_of_stubborn _ _ H1 H2 H3).
Defined.

Lemma children_owned_witness :
  (heap tree !! 1 = Some (NManager (manager_at tree 1))
   /\ children_owned tree)
  /\ children_owned (snd (_parse connect_failed master 1 tree))
  /\ children_owned (snd (_parse_component_children master 1 tree))
  /\ forall nm par,
       children_owned (snd (Manager__init__ connect_failed master nm par tree)).
Proof.
  assert (H1 : heap tree !! 1 = Some (NManager (manager_at tree 1))) by evaluate.
  assert (H2 : children_owned tree).
  { intros p n k l Hp Hin.
    do 7 (destruct p as [|p];
          [vm_compute in Hp; injection Hp as <-; cbn in Hin;
           repeat (destruct Hin as [[= <- <-]|Hin];
                   [eexists; split; [reflexivity|by split]|]); done|]).
    done. }
  split; [by split|].
  exact (parse_keeps_children_owned connect_failed master 1 tree _ H1 H2).
Defined.

Lemma components_after_parse_witness :
  (heap tree !! 1 = Some (NManager (manager_at tree 1))
   /\ _parse connect_failed master 1 tree = (Ok tt, tree1))
  /\ fst (components 1 tree1) = Ok [7; 8]
  /\ exists m1,
       heap tree1 !! 1 = Some (NManager m1)
       /\ components 1 tree1 =
          (Ok (children_where node_is_component tree1 m1),
           stored 1 (with_components (Some (children_where node_is_component tree1 m1)) m1)
             tree1)
       /\ (forall c, In c (children_where node_is_component tree1 m1) <->
             In c (dict_values (_children (manager_node m1)))
             /\ exists comp, heap tree1 !! c = Some (NComponent comp)).
Proof.
  assert (H1 : heap tree !! 1 = Some (NManager (manager_at tree 1))) by evaluate.
  assert (H2 : _parse connect_failed master 1 tree = (Ok tt, tree1)) by evaluate.
  split; [by split|]. split; [evaluate|].
  exact (components_after_parse connect_failed master 1 tree _ _ _ H1 H2).
Defined.

Lemma set_config_parameter_failure_witness :
  (heap tree_read_only !! 0 = Some (NManager (manager_at tree_read_only 0))
   /\ set_configuration (_obj (manager_at tree_read_only 0)) "manager.name" "x" <>
      Ok RTC.RTC_OK)
  /\ set_config_parameter 0 "manager.name" "x" tree_read_only =
     (Raise (FailedToSetConfigurationError "manager.name" "x"), tree_read_only)
  /\ fst (configuration 0
            (snd (set_config_parameter 0 "manager.name" "x" tree_read_only))) =
     Ok [("manager.name", "manager")].
Proof.
  assert (H1 : heap tree_read_only !! 0 = Some (NManager (manager_at tree_read_only 0)))
    by evaluate.
  assert (H2 : set_configuration (_obj (manager_at tree_read_only 0)) "manager.name" "x" <>
               Ok RTC.RTC_OK) by discriminate.
  split; [by split|].
  destruct (set_config_parameter_failure 0 "manager.name" "x" tree_read_only _ H1 H2)
    as [Hrun Hcache].
  split; [exact Hrun|].
  exact (Hcache ("manager.name", "manager") [] eq_refl).
Defined.

End MoreWitnesses.
